(** * go-composegen: a shallow embedding of pkg/composegen/composegen.go

    The package reads the state of a container runtime through the docker
    client and renders a compose document.  The embedding keeps the
    functions of the Go file under their own names.  What lies outside the
    repository is kept outside the model as well:

    - the docker client is a record of answers, one per API call the
      package makes ([Client]);
    - package [regexp] and package [yaml] are interfaces ([Regexp],
      [Yaml]), with one small instance each to run examples;
    - the calls made and the lines logged are collected in a trace. *)

From Stdlib Require Import ZArith Ascii String.
From stdpp Require Import base option list sorting strings pretty gmap.

Local Open Scope list_scope.
Local Open Scope string_scope.

(** ** Go values *)

Module Go.

(** [error] values are carried as their message ([err.Error()]). *)
Definition error : Type := string.

(** A Go pair [(value, error)]: [inl v] is [(v, nil)], [inr e] is
    [(zero, e)]. *)
Definition result (A : Type) : Type := (A + error)%type.

(** [network.IPAMConfig] of the docker API. *)
Record IPAMConfig : Type := {
  Subnet : string;
  IPRange : string;
  Gateway : string;
  AuxAddress : gmap string string;
}.

(** An [interface{}] value is a dynamic type together with a value of that
    type: one constructor per dynamic type that occurs in the package.
    A nil slice and an empty slice of one type are not told apart (the
    package never compares a slice with nil), nor are a nil and an empty
    map. *)
#[warnings="-register-all"]
Inductive iface : Type :=
| I_nil                                          (* the nil interface *)
| I_string (s : string)                          (* string *)
| I_int (n : Z)                                  (* int *)
| I_bool (b : bool)                              (* bool *)
| I_strings (l : list string)                    (* []string *)
| I_StrSlice (l : list string)                   (* strslice.StrSlice *)
| I_RestartPolicyMode (s : string)               (* container.RestartPolicyMode *)
| I_map_string_string (m : gmap string string)   (* map[string]string *)
| I_slice_iface (l : list iface)                 (* []interface{} *)
| I_map_string_iface (m : gmap string iface)     (* map[string]interface{} *)
| I_IPAMConfigs (l : list IPAMConfig).           (* []network.IPAMConfig *)

(** A computation ends with a value or with a run-time panic. *)
Inductive outcome (A : Type) : Type :=
| Done (a : A)
| Panicked (msg : string).
Arguments Done {A} a.
Arguments Panicked {A} msg.

(** [v == w] on interface values: equal when the dynamic types are
    identical and the values are equal; a run-time panic when the types are
    identical and not comparable (slices and maps). *)
Definition iface_eq (v w : iface) : outcome bool :=
  match v, w with
  | I_nil, I_nil => Done true
  | I_string a, I_string b => Done (bool_decide (a = b))
  | I_int a, I_int b => Done (bool_decide (a = b))
  | I_bool a, I_bool b => Done (bool_decide (a = b))
  | I_RestartPolicyMode a, I_RestartPolicyMode b => Done (bool_decide (a = b))
  | I_strings _, I_strings _ =>
      Panicked "runtime error: comparing uncomparable type []string"
  | I_StrSlice _, I_StrSlice _ =>
      Panicked "runtime error: comparing uncomparable type strslice.StrSlice"
  | I_map_string_string _, I_map_string_string _ =>
      Panicked "runtime error: comparing uncomparable type map[string]string"
  | I_slice_iface _, I_slice_iface _ =>
      Panicked "runtime error: comparing uncomparable type []interface {}"
  | I_map_string_iface _, I_map_string_iface _ =>
      Panicked "runtime error: comparing uncomparable type map[string]interface {}"
  | I_IPAMConfigs _, I_IPAMConfigs _ =>
      Panicked "runtime error: comparing uncomparable type []network.IPAMConfig"
  | _, _ => Done false
  end.

(** [s[1:]]: the string without its first byte; out of range on [""]. *)
Definition from1 (s : string) : outcome string :=
  match s with
  | String _ rest => Done rest
  | EmptyString => Panicked "runtime error: slice bounds out of range [1:0]"
  end.

(** [l[0]] on a slice. *)
Definition index0 {A} (l : list A) : outcome A :=
  match l with
  | x :: _ => Done x
  | [] => Panicked "runtime error: index out of range [0] with length 0"
  end.

(** [sort.Strings]: ascending in the byte-wise order of Go's [<] on
    strings.  The order is total and antisymmetric, so the sorted
    arrangement of a list is unique and the algorithm does not show. *)
Definition sort_Strings (l : list string) : list string :=
  merge_sort String.le l.

(** [append(l, x)]. *)
Definition append {A} (l : list A) (x : A) : list A := (l ++ [x])%list.

(** [fmt.Sprintf("%s:%s", a, b)]. *)
Definition Sprintf_colon (a b : string) : string := a ++ ":" ++ b.

End Go.
Import Go.

(** ** The docker API records the package reads *)

Module Docker.

(** [types.Container], an element of the answer of [ContainerList]. *)
Record Container : Type := {
  ID : string;
  Names : list string;
}.

(** [types.MountPoint]. *)
Record MountPoint : Type := {
  Mount_Type : string;
  Mount_Name : string;
  Mount_Source : string;
  Mount_Destination : string;
}.

(** [nat.PortBinding]. *)
Record PortBinding : Type := {
  HostIP : string;
  HostPort : string;
}.

(** [types.ContainerJSON], with the embedded structs flattened: a field
    [cattrs.Config.Image] is [Config_Image].  The structs behind the
    pointers ([Config], [HostConfig], [NetworkSettings]) are there, as
    in every answer of the daemon.  The two maps the package
    ranges over are kept as lists in the order the range yields them:
    [HostConfig_PortBindings] with its values, [NetworkSettings_Networks]
    with its keys only (the endpoint settings are never read).  Go fixes
    no order for the range over a map, and every range statement draws
    its own: [NetworkSettings_Networks] is the order of the range of
    [generate], which also gives the length of the map, and
    [NetworkSettings_Networks_mode] holds the same keys in the order of
    the range of [getNetworkMode]. *)
Record ContainerJSON : Type := {
  Name : string;
  Config_Image : string;
  Config_Labels : gmap string string;
  Config_Env : list string;
  Config_Cmd : list string;
  Config_Entrypoint : list string;
  Config_WorkingDir : string;
  Config_User : string;
  Config_Hostname : string;
  Config_Domainname : string;
  Config_Tty : bool;
  Config_OpenStdin : bool;
  HostConfig_NetworkMode : string;
  HostConfig_PortBindings : list (string * list PortBinding);
  HostConfig_Privileged : bool;
  HostConfig_RestartPolicy_Name : string;
  NetworkSettings_Networks : list string;
  NetworkSettings_Networks_mode : list string;
  Mounts : list MountPoint;
}.

(** [types.NetworkResource], also the element type of [NetworkList]. *)
Record NetworkResource : Type := {
  Net_Name : string;
  Net_Scope : string;
  Net_Driver : string;
  Net_EnableIPv6 : bool;
  Net_Internal : bool;
  Net_IPAM_Driver : string;
  Net_IPAM_Config : list IPAMConfig;
}.

(** [container.NetworkMode.IsDefault] of the docker API. *)
Definition NetworkMode_IsDefault (n : string) : bool :=
  bool_decide (n = "default").

(** [*client.Client]: what the runtime answers to each call the package
    makes.  The answers stand for one generation; connection and
    transport are outside the package. *)
Record Client : Type := {
  answer_ContainerList : result (list Container);
  answer_ContainerInspect : string → result ContainerJSON;
  answer_NetworkList : result (list NetworkResource);
  answer_NetworkInspect : string → result NetworkResource;
}.

End Docker.
Import Docker.

(** ** Effects: API calls, log lines, panics *)

Inductive event : Type :=
| Call_ContainerList
| Call_ContainerInspect (containerID : string)
| Call_NetworkList
| Call_NetworkInspect (networkName : string)
| Log (line : string).

(** A computation yields its outcome and the events it emitted, oldest
    first. *)
Definition M (A : Type) : Type := (outcome A * list event)%type.

Global Instance M_ret : MRet M := λ A a, (Done a, []).
Global Instance M_bind : MBind M := λ A B f m,
  match m with
  | (Done a, t) => let '(o, t') := f a in (o, (t ++ t')%list)
  | (Panicked msg, t) => (Panicked msg, t)
  end.

Definition emit (e : event) : M unit := (Done (), [e]).
Definition lift {A} (o : outcome A) : M A := (o, []).

Definition log_Printf (line : string) : M unit := emit (Log line).

Definition cli_ContainerList (cli : Client) : M (result (list Container)) :=
  emit Call_ContainerList;; mret (answer_ContainerList cli).
Definition cli_ContainerInspect (cli : Client) (containerID : string)
  : M (result ContainerJSON) :=
  emit (Call_ContainerInspect containerID);;
  mret (answer_ContainerInspect cli containerID).
Definition cli_NetworkList (cli : Client) : M (result (list NetworkResource)) :=
  emit Call_NetworkList;; mret (answer_NetworkList cli).
Definition cli_NetworkInspect (cli : Client) (networkName : string)
  : M (result NetworkResource) :=
  emit (Call_NetworkInspect networkName);;
  mret (answer_NetworkInspect cli networkName).

(** ** The package *)

(** [map[string]map[string]interface{}]. *)
Abbreviation section := (gmap string (gmap string iface)).

Record Config : Type := {
  Version : string;
  Services : section;
  Networks : section;
  Volumes : section;
}.

(** Package [regexp], as far as the package uses it. *)
Class Regexp : Type := {
  regexp : Type;
  Compile : string → result regexp;
  MatchString : regexp → string → bool;
}.

(** [yaml.Marshal] on a [Config]. *)
Class Yaml : Type := {
  Marshal : Config → result string;
}.

Definition ignoreValues : list iface :=
  [ I_nil; I_string ""; I_slice_iface []; I_string "null";
    I_map_string_iface ∅; I_string "default"; I_int 0; I_string ",";
    I_string "no" ].


(** [isIgnoredValue]: the scan stops at the first sentinel equal to
    [value]; a comparison that panics ends it. *)
Fixpoint isIgnoredValue_scan (value : iface) (ivs : list iface) : M bool :=
  match ivs with
  | [] => mret false
  | iv :: ivs' =>
      eq ← lift (iface_eq value iv);
      if eq : bool then mret true else isIgnoredValue_scan value ivs'
  end.

Definition isIgnoredValue (value : iface) : M bool :=
  isIgnoredValue_scan value ignoreValues.

(** The body of the loop of [generateVolumes]: the entry of one mount. *)
Definition generateVolumes_entry (createVolumes : bool) (mount : MountPoint)
  : string :=
  if bool_decide (Mount_Type mount = "volume") && createVolumes then
    Sprintf_colon (Mount_Name mount) (Mount_Destination mount)
  else if bool_decide (Mount_Type mount = "bind") then
    Sprintf_colon (Mount_Source mount) (Mount_Destination mount)
  else "".

Fixpoint generateVolumes_loop (createVolumes : bool) (mounts : list MountPoint)
    (volumes : list string) : list string :=
  match mounts with
  | [] => volumes
  | mount :: mounts' =>
      generateVolumes_loop createVolumes mounts'
        (append volumes (generateVolumes_entry createVolumes mount))
  end.

Definition generateVolumes (cattrs : ContainerJSON) (createVolumes : bool)
  : list string :=
  sort_Strings (generateVolumes_loop createVolumes (Mounts cattrs) []).

Definition getNetworkMode (cattrs : ContainerJSON) : string :=
  if NetworkMode_IsDefault (HostConfig_NetworkMode cattrs) then
    match NetworkSettings_Networks_mode cattrs with
    | name :: _ => name
    | [] => HostConfig_NetworkMode cattrs
    end
  else HostConfig_NetworkMode cattrs.

Fixpoint getPorts_bindings (port : string) (bindings : list PortBinding)
    (ports : list string) : list string :=
  match bindings with
  | [] => ports
  | binding :: bindings' =>
      let hostPort :=
        if bool_decide (HostIP binding ≠ "")
        then HostIP binding ++ ":" ++ HostPort binding
        else HostPort binding in
      getPorts_bindings port bindings' (append ports (Sprintf_colon hostPort port))
  end.

Fixpoint getPorts_loop (portBindings : list (string * list PortBinding))
    (ports : list string) : list string :=
  match portBindings with
  | [] => ports
  | (port, bindings) :: rest =>
      getPorts_loop rest (getPorts_bindings port bindings ports)
  end.

Definition getPorts (cattrs : ContainerJSON) : list string :=
  getPorts_loop (HostConfig_PortBindings cattrs) [].

(** [container.Names[0][1:]]. *)
Definition displayName (container : Container) : M string :=
  name0 ← lift (index0 (Names container)); lift (from1 name0).

Fixpoint listContainerNames_loop (containers : list Container)
    (names : list string) : M (list string) :=
  match containers with
  | [] => mret names
  | container :: containers' =>
      containerName ← displayName container;
      listContainerNames_loop containers' (append names containerName)
  end.

Definition listContainerNames (cli : Client) : M (result (list string)) :=
  r ← cli_ContainerList cli;
  match r with
  | inr err => mret (inr err)
  | inl containers =>
      names ← listContainerNames_loop containers [];
      mret (inl names)
  end.

(** The lookup loop of [generate]: the ID of the first container whose
    display name or ID is [cname], [""] when there is none. *)
Fixpoint generate_lookup (containers : list Container) (cname : string)
  : M string :=
  match containers with
  | [] => mret ""
  | container :: containers' =>
      n ← displayName container;
      if bool_decide (n = cname) || bool_decide (ID container = cname)
      then mret (ID container)
      else generate_lookup containers' cname
  end.

(** The loop of [generate] over the networks of the container. *)
Fixpoint generate_networks (cli : Client) (names : list string)
    (networks : section) : M section :=
  match names with
  | [] => mret networks
  | networkName :: names' =>
      r ← cli_NetworkInspect cli networkName;
      match r with
      | inr err =>
          log_Printf ("Error inspecting network " ++ networkName ++ ": " ++ err);;
          generate_networks cli names' networks
      | inl networkResource =>
          generate_networks cli names'
            (<[networkName :=
                 {[ "external" := I_bool (negb (Net_Internal networkResource));
                    "name" := I_string networkName ]}]> networks)
      end
  end.

(** The loop of [generate] that copies the values not ignored. *)
Fixpoint generate_keep (values : list (string * iface))
    (ct : gmap string iface) : M (gmap string iface) :=
  match values with
  | [] => mret ct
  | (key, value) :: values' =>
      ignored ← isIgnoredValue value;
      generate_keep values' (if ignored : bool then ct else <[key := value]> ct)
  end.

(** The map literal [values] of [generate], in the order it is written;
    [name] is [cattrs.Name[1:]].  Each value is boxed with the static
    type of its expression: [Cmd] and [Entrypoint] are
    [strslice.StrSlice], and [RestartPolicy.Name] is
    [container.RestartPolicyMode] in the API that has
    [container.ListOptions]. *)
Definition generate_values (cattrs : ContainerJSON) (name : string)
    (createVolumes : bool) : list (string * iface) :=
  [ ("container_name", I_string name);
    ("image", I_string (Config_Image cattrs));
    ("labels", I_map_string_string (Config_Labels cattrs));
    ("volumes", I_strings (generateVolumes cattrs createVolumes));
    ("environment", I_strings (Config_Env cattrs));
    ("command", I_StrSlice (Config_Cmd cattrs));
    ("entrypoint", I_StrSlice (Config_Entrypoint cattrs));
    ("working_dir", I_string (Config_WorkingDir cattrs));
    ("user", I_string (Config_User cattrs));
    ("hostname", I_string (Config_Hostname cattrs));
    ("domainname", I_string (Config_Domainname cattrs));
    ("network_mode", I_string (getNetworkMode cattrs));
    ("ports", I_strings (getPorts cattrs));
    ("privileged", I_bool (HostConfig_Privileged cattrs));
    ("restart", I_RestartPolicyMode (HostConfig_RestartPolicy_Name cattrs));
    ("tty", I_bool (Config_Tty cattrs));
    ("stdin_open", I_bool (Config_OpenStdin cattrs)) ].

Definition generate (cli : Client) (cname : string) (createVolumes : bool)
  : M (result (section * section * section)) :=
  r ← cli_ContainerList cli;
  match r with
  | inr err => mret (inr err)
  | inl containers =>
      containerID ← generate_lookup containers cname;
      if bool_decide (containerID = "") then
        mret (inr ("container " ++ cname ++ " not found"))
      else
        r ← cli_ContainerInspect cli containerID;
        match r with
        | inr err => mret (inr err)
        | inl cattrs =>
            name ← lift (from1 (Name cattrs));
            let values := generate_values cattrs name createVolumes in
            networks ←
              (if bool_decide (0 < length (NetworkSettings_Networks cattrs))
               then generate_networks cli (NetworkSettings_Networks cattrs) ∅
               else mret ∅);
            ct ← generate_keep values ∅;
            mret (inl ({[ name := ct ]}, networks, ∅))
        end
  end.

Fixpoint listNetworkNames_loop (networks : list NetworkResource)
    (names : list string) : list string :=
  match networks with
  | [] => names
  | network :: networks' =>
      listNetworkNames_loop networks' (append names (Net_Name network))
  end.

Definition listNetworkNames (cli : Client) : M (result (list string)) :=
  r ← cli_NetworkList cli;
  match r with
  | inr err => mret (inr err)
  | inl networks => mret (inl (listNetworkNames_loop networks []))
  end.

(** The map literal [values] of [generateNetworkInfo]. *)
Definition generateNetworkInfo_values (networkResource : NetworkResource)
  : gmap string iface :=
  {[ "name" := I_string (Net_Name networkResource);
     "scope" := I_string (Net_Scope networkResource);
     "driver" := I_string (Net_Driver networkResource);
     "enable_ipv6" := I_bool (Net_EnableIPv6 networkResource);
     "internal" := I_bool (Net_Internal networkResource);
     "ipam" := I_map_string_iface
       {[ "driver" := I_string (Net_IPAM_Driver networkResource);
          "config" := I_IPAMConfigs (Net_IPAM_Config networkResource) ]} ]}.

(** The loop of [generateNetworkInfo]; the first failed inspection
    returns. *)
Fixpoint generateNetworkInfo_loop (cli : Client) (networkNames : list string)
    (networks : section) : M (result section) :=
  match networkNames with
  | [] => mret (inl networks)
  | networkName :: networkNames' =>
      r ← cli_NetworkInspect cli networkName;
      match r with
      | inr err => mret (inr err)
      | inl networkResource =>
          let values := generateNetworkInfo_values networkResource in
          generateNetworkInfo_loop cli networkNames'
            (<[networkName := values]> networks)
      end
  end.

Definition generateNetworkInfo (cli : Client) : M (result section) :=
  r ← listNetworkNames cli;
  match r with
  | inr err => mret (inr err)
  | inl networkNames => generateNetworkInfo_loop cli networkNames ∅
  end.

Section Package.
Context `{!Regexp, !Yaml}.

Definition render (config : Config) : result string :=
  match Marshal config with
  | inr err => inr ("error marshaling to YAML: " ++ err)
  | inl out => inl out
  end.

(** The filter loop of [GenerateComposeFile]. *)
Fixpoint GenerateComposeFile_filter (filterRegex : regexp)
    (containerNames filtered : list string) : list string :=
  match containerNames with
  | [] => filtered
  | name :: containerNames' =>
      GenerateComposeFile_filter filterRegex containerNames'
        (if MatchString filterRegex name then append filtered name else filtered)
  end.

(** The [if containerFilter != ""] block: the names to process, or the
    error on a pattern that does not compile. *)
Definition GenerateComposeFile_select (containerFilter : string)
    (containerNames : list string) : result (list string) :=
  if bool_decide (containerFilter ≠ "") then
    match Compile containerFilter with
    | inr err => inr ("invalid filter regex: " ++ err)
    | inl filterRegex =>
        inl (GenerateComposeFile_filter filterRegex containerNames [])
    end
  else inl containerNames.

(** The loop over the containers: a container whose [generate] returns an
    error is logged and left out; the maps of the others are copied into
    the accumulators key by key, a later write replacing an earlier one. *)
Fixpoint GenerateComposeFile_loop (cli : Client) (createVolumes : bool)
    (containerNames : list string) (acc : section * section * section)
  : M (section * section * section) :=
  match containerNames with
  | [] => mret acc
  | cname :: containerNames' =>
      r ← generate cli cname createVolumes;
      match r with
      | inr err =>
          log_Printf ("Error generating config for container " ++ cname
                      ++ ": " ++ err);;
          GenerateComposeFile_loop cli createVolumes containerNames' acc
      | inl (cfile, cNetworks, cVolumes) =>
          let '(structure, networks, volumes) := acc in
          GenerateComposeFile_loop cli createVolumes containerNames'
            (cfile ∪ structure, cNetworks ∪ networks, cVolumes ∪ volumes)
      end
  end.

(** From the three accumulators to the [Config] literal: the loop over
    [containerNames], then the host-wide networks when
    [includeAllContainers] is set. *)
Definition GenerateComposeFile_batch (cli : Client) (includeAllContainers : bool)
    (createVolumes : bool) (containerNames : list string) : M (result Config) :=
  '(structure, networks, volumes) ←
    GenerateComposeFile_loop cli createVolumes containerNames (∅, ∅, ∅);
  r ← (if includeAllContainers then
         r ← generateNetworkInfo cli;
         match r with
         | inr err => mret (inr ("error generating network info: " ++ err))
         | inl hostNetworks => mret (inl hostNetworks)
         end
       else mret (inl networks));
  match r with
  | inr err => mret (inr err)
  | inl networks =>
      mret (inl {| Version := "3.6"; Services := structure;
                   Networks := networks; Volumes := volumes |})
  end.

(** [GenerateComposeFile] up to the value [config] it hands to [render]. *)
Definition GenerateComposeFile_config (cli : Client) (includeAllContainers : bool)
    (containerFilter : string) (createVolumes : bool) : M (result Config) :=
  r ← listContainerNames cli;
  match r with
  | inr err => mret (inr err)
  | inl containerNames =>
      match GenerateComposeFile_select containerFilter containerNames with
      | inr err => mret (inr err)
      | inl containerNames =>
          GenerateComposeFile_batch cli includeAllContainers createVolumes
            containerNames
      end
  end.

Definition GenerateComposeFile (cli : Client) (includeAllContainers : bool)
    (containerFilter : string) (createVolumes : bool) : M (result string) :=
  r ← GenerateComposeFile_config cli includeAllContainers containerFilter
        createVolumes;
  match r with
  | inr err => mret (inr err)
  | inl config => mret (render config)
  end.

End Package.

(** A mount for which neither branch of [generateVolumes] assigns the
    entry: its type is neither volume nor bind, or it is a volume while
    [createVolumes] is off. *)
Definition blank_mount (createVolumes : bool) (mount : MountPoint) : Prop :=
  (Mount_Type mount ≠ "volume" ∧ Mount_Type mount ≠ "bind")
  ∨ (Mount_Type mount = "volume" ∧ createVolumes = false).

Global Instance blank_mount_dec createVolumes mount :
  Decision (blank_mount createVolumes mount).
Proof. unfold blank_mount. apply _. Defined.

(** ** An instance of [Regexp]: a fragment of the RE2 syntax

    Literals, [.], [^], [$], groups, [|] and the postfix operators [*], [+],
    [?], with a backslash before a punctuation character.  The instance
    runs the examples; the properties of the package below are stated for
    every instance of [Regexp]. *)

Module RE2.

Inductive re : Type :=
| Fail                      (* matches nothing *)
| Eps                       (* the empty string *)
| Lit (c : ascii)
| AnyNotNL                  (* [.] *)
| AnyByte
| Bol                       (* [^] *)
| Eol                       (* [$] *)
| Cat (r1 r2 : re)
| Alt (r1 r2 : re)
| Star (r : re)
| Plus (r : re)
| Quest (r : re)
| Group (r : re).

(** [bol]/[eol]: the position is the start/the end of the text. *)
Fixpoint nullable (bol eol : bool) (r : re) : bool :=
  match r with
  | Fail | Lit _ | AnyNotNL | AnyByte => false
  | Eps | Star _ | Quest _ => true
  | Bol => bol
  | Eol => eol
  | Cat r1 r2 => nullable bol eol r1 && nullable bol eol r2
  | Alt r1 r2 => nullable bol eol r1 || nullable bol eol r2
  | Plus r | Group r => nullable bol eol r
  end.

(** The derivative of [r] by the character [c] read at a position that
    is the start of the text iff [bol]. *)
Fixpoint deriv (bol : bool) (c : ascii) (r : re) : re :=
  match r with
  | Fail | Eps | Bol | Eol => Fail
  | Lit a => if bool_decide (a = c) then Eps else Fail
  | AnyNotNL => if bool_decide (c = "010"%char) then Fail else Eps
  | AnyByte => Eps
  | Cat r1 r2 =>
      Alt (Cat (deriv bol c r1) r2)
          (if nullable bol false r1 then deriv bol c r2 else Fail)
  | Alt r1 r2 => Alt (deriv bol c r1) (deriv bol c r2)
  | Star r1 | Plus r1 => Cat (deriv bol c r1) (Star r1)
  | Quest r1 | Group r1 => deriv bol c r1
  end.

Fixpoint matches (bol : bool) (r : re) (s : string) : bool :=
  match s with
  | EmptyString => nullable bol true r
  | String c s' => matches false (deriv bol c r) s'
  end.

(** The parser keeps, as Go's does, a stack of open groups; a frame is
    the alternatives closed so far and the current concatenation, last
    item first. *)
Definition frame : Type := (list re * list re)%type.

Definition concat (cur : list re) : re := foldl (λ acc r, Cat r acc) Eps cur.
Definition close (f : frame) : re :=
  foldl (λ acc r, Alt r acc) (concat f.2) f.1.

Definition is_repetition (r : re) : bool :=
  match r with Star _ | Plus _ | Quest _ => true | _ => false end.

Definition repetition_text (r : re) : string :=
  match r with Star _ => "*" | Plus _ => "+" | Quest _ => "?" | _ => "" end.

Definition is_punct (c : ascii) : bool :=
  let n := nat_of_ascii c in
  (bool_decide (33 ≤ n ≤ 47) || bool_decide (58 ≤ n ≤ 64)
   || bool_decide (91 ≤ n ≤ 96) || bool_decide (123 ≤ n ≤ 126))%nat.

Fixpoint parse (whole s : string) (f : frame) (stack : list frame)
  : result re :=
  let bad msg expr := inr ("error parsing regexp: " ++ msg ++ ": `" ++ expr ++ "`") in
  match s with
  | EmptyString =>
      match stack with
      | [] => inl (close f)
      | _ => bad "missing closing )" whole
      end
  | String c s' =>
      let item r := parse whole s' (f.1, r :: f.2) stack in
      let repeat op :=
        match f.2 with
        | [] => bad "missing argument to repetition operator" (String c "")
        | r :: cur =>
            if is_repetition r
            then bad "invalid nested repetition operator"
                     (repetition_text r ++ String c "")
            else parse whole s' (f.1, op r :: cur) stack
        end in
      if bool_decide (c = "("%char) then parse whole s' ([], []) (f :: stack)
      else if bool_decide (c = ")"%char) then
        match stack with
        | [] => bad "unexpected )" whole
        | (alts, cur) :: stack' =>
            parse whole s' (alts, Group (close f) :: cur) stack'
        end
      else if bool_decide (c = "|"%char) then
        parse whole s' (concat f.2 :: f.1, []) stack
      else if bool_decide (c = "*"%char) then repeat Star
      else if bool_decide (c = "+"%char) then repeat Plus
      else if bool_decide (c = "?"%char) then repeat Quest
      else if bool_decide (c = "."%char) then item AnyNotNL
      else if bool_decide (c = "^"%char) then item Bol
      else if bool_decide (c = "$"%char) then item Eol
      else if bool_decide (c = "\"%char) then
        match s' with
        | EmptyString => bad "trailing backslash at end of expression" ""
        | String d s'' =>
            if is_punct d then parse whole s'' (f.1, Lit d :: f.2) stack
            else bad "escape outside the fragment" (String c (String d ""))
        end
      else if bool_decide (c = "["%char) || bool_decide (c = "{"%char) then
        bad "operator outside the fragment" (String c "")
      else item (Lit c)
  end.

Definition compile (expr : string) : result re := parse expr expr ([], []) [].

(** [MatchString]: some substring of [s] matches. *)
Definition matchString (r : re) (s : string) : bool :=
  matches true (Cat (Star AnyByte) (Cat r (Star AnyByte))) s.

End RE2.

Definition RE2_fragment : Regexp :=
  {| regexp := RE2.re; Compile := RE2.compile; MatchString := RE2.matchString |}.

(** ** An instance of [Yaml]: a plain printer

    One line per service and per network, values in flow style with
    single-quoted strings, nested values down to a fixed depth.  It stands
    in for [yaml.Marshal] where an example has to run; nothing below
    depends on its layout. *)

Module PlainYaml.

Definition nl : string := String "010"%char "".
Definition quoted (s : string) : string := "'" ++ s ++ "'".

Fixpoint join (sep : string) (l : list string) : string :=
  match l with
  | [] => ""
  | [x] => x
  | x :: l' => x ++ sep ++ join sep l'
  end.

Definition flow_list (l : list string) : string := "[" ++ join ", " l ++ "]".
Definition flow_map (l : list (string * string)) : string :=
  "{" ++ join ", " ((λ kv, kv.1 ++ ": " ++ kv.2) <$> l) ++ "}".

Definition show_IPAMConfig (c : IPAMConfig) : string :=
  flow_map [ ("subnet", quoted (Subnet c)); ("iprange", quoted (IPRange c));
             ("gateway", quoted (Gateway c));
             ("auxaddress", flow_map (prod_map id quoted <$> map_to_list (AuxAddress c))) ].

Fixpoint show (depth : nat) (v : iface) : string :=
  match v with
  | I_nil => "null"
  | I_string s | I_RestartPolicyMode s => quoted s
  | I_int n => pretty n
  | I_bool b => if b then "true" else "false"
  | I_strings l | I_StrSlice l => flow_list (quoted <$> l)
  | I_map_string_string m => flow_map (prod_map id quoted <$> map_to_list m)
  | I_IPAMConfigs l => flow_list (show_IPAMConfig <$> l)
  | I_slice_iface l =>
      match depth with
      | 0 => "[...]"
      | S d => flow_list (show d <$> l)
      end
  | I_map_string_iface m =>
      match depth with
      | 0 => "{...}"
      | S d => flow_map (prod_map id (show d) <$> map_to_list m)
      end
  end.

Definition show_section (title : string) (sec : section) : string :=
  title ++ ":" ++ nl
  ++ join "" ((λ kv, "  " ++ kv.1 ++ ": "
                     ++ flow_map (prod_map id (show 4) <$> map_to_list kv.2) ++ nl)
              <$> map_to_list sec).

Definition omitempty (title : string) (sec : section) : string :=
  if bool_decide (sec = ∅) then "" else show_section title sec.

Definition marshal (config : Config) : result string :=
  inl ("version: " ++ quoted (Version config) ++ nl
       ++ show_section "services" (Services config)
       ++ omitempty "networks" (Networks config)
       ++ omitempty "volumes" (Volumes config)).

End PlainYaml.

Definition Plain_yaml : Yaml := {| Marshal := PlainYaml.marshal |}.

(** ** Example runtimes *)

Module Examples.

Definition container_json (name image : string) (networks : list string)
    (mounts : list MountPoint) : ContainerJSON :=
  {| Name := name; Config_Image := image; Config_Labels := ∅;
     Config_Env := []; Config_Cmd := []; Config_Entrypoint := [];
     Config_WorkingDir := ""; Config_User := ""; Config_Hostname := "";
     Config_Domainname := ""; Config_Tty := false; Config_OpenStdin := false;
     HostConfig_NetworkMode := "default"; HostConfig_PortBindings := [];
     HostConfig_Privileged := false; HostConfig_RestartPolicy_Name := "no";
     NetworkSettings_Networks := networks;
     NetworkSettings_Networks_mode := networks; Mounts := mounts |}.

Definition data_volume : MountPoint :=
  {| Mount_Type := "volume"; Mount_Name := "pgdata"; Mount_Source :=
       "/var/lib/docker/volumes/pgdata/_data";
     Mount_Destination := "/var/lib/postgresql/data" |}.
Definition conf_bind : MountPoint :=
  {| Mount_Type := "bind"; Mount_Name := ""; Mount_Source := "/etc/app";
     Mount_Destination := "/conf" |}.
Definition scratch_tmpfs : MountPoint :=
  {| Mount_Type := "tmpfs"; Mount_Name := ""; Mount_Source := "";
     Mount_Destination := "/run" |}.

Definition web1 : ContainerJSON :=
  container_json "/web1" "nginx:1.27" ["frontend"] [].
Definition web2 : ContainerJSON :=
  container_json "/web2" "nginx:1.27" [] [conf_bind].
Definition db1 : ContainerJSON :=
  container_json "/db1" "postgres:16" ["backend"]
    [data_volume; conf_bind; scratch_tmpfs].

Definition listed : list Container :=
  [ {| ID := "c1"; Names := ["/web1"] |};
    {| ID := "c2"; Names := ["/web2"] |};
    {| ID := "c3"; Names := ["/db1"] |} ].

Definition network (name : string) (internal : bool) : NetworkResource :=
  {| Net_Name := name; Net_Scope := "local"; Net_Driver := "bridge";
     Net_EnableIPv6 := false; Net_Internal := internal;
     Net_IPAM_Driver := "default";
     Net_IPAM_Config :=
       [ {| Subnet := "172.18.0.0/16"; IPRange := "";
            Gateway := "172.18.0.1"; AuxAddress := ∅ |} ] |}.

Definition host_networks : list NetworkResource :=
  [ network "frontend" false; network "backend" true; network "unused" false ].

Definition inspect_network (broken : list string) (name : string)
  : result NetworkResource :=
  if bool_decide (name ∈ broken) then inr ("Error: No such network: " ++ name)
  else match filter (λ n, Net_Name n = name) host_networks with
       | n :: _ => inl n
       | [] => inr ("Error: No such network: " ++ name)
       end.

(** Three containers, all of which can be inspected. *)
Definition healthy : Client :=
  {| answer_ContainerList := inl listed;
     answer_ContainerInspect := λ id,
       if bool_decide (id = "c1") then inl web1
       else if bool_decide (id = "c2") then inl web2
       else if bool_decide (id = "c3") then inl db1
       else inr ("Error: No such container: " ++ id);
     answer_NetworkList := inl host_networks;
     answer_NetworkInspect := inspect_network [] |}.

(** The same runtime after [web2] is gone: it is still listed, its
    inspection answers NotFound. *)
Definition web2_gone : Client :=
  {| answer_ContainerList := inl listed;
     answer_ContainerInspect := λ id,
       if bool_decide (id = "c1") then inl web1
       else if bool_decide (id = "c3") then inl db1
       else inr ("Error: No such container: " ++ id);
     answer_NetworkList := inl host_networks;
     answer_NetworkInspect := inspect_network [] |}.

(** A network that is listed and cannot be inspected. *)
Definition unused_gone : Client :=
  {| answer_ContainerList := inl listed;
     answer_ContainerInspect := answer_ContainerInspect healthy;
     answer_NetworkList := inl host_networks;
     answer_NetworkInspect := inspect_network ["unused"] |}.



(** The daemon cannot be reached. *)
Definition daemon_down : Client :=
  let down := "Cannot connect to the Docker daemon" in
  {| answer_ContainerList := inr down;
     answer_ContainerInspect := λ _, inr down;
     answer_NetworkList := inr down;
     answer_NetworkInspect := λ _, inr down |}.

End Examples.

(** More runtimes, for the further properties. *)
Module MoreExamples.
Import Examples.

(** A container in host mode with published ports, attached to a
    network the runtime cannot inspect. *)
Definition api : ContainerJSON :=
  {| Name := "/api"; Config_Image := "api:2"; Config_Labels := ∅;
     Config_Env := ["MODE=prod"]; Config_Cmd := ["serve"];
     Config_Entrypoint := []; Config_WorkingDir := "/srv"; Config_User := "";
     Config_Hostname := "api"; Config_Domainname := ""; Config_Tty := true;
     Config_OpenStdin := false; HostConfig_NetworkMode := "host";
     HostConfig_PortBindings :=
       [ ("80/tcp", [ {| HostIP := ""; HostPort := "8080" |};
                      {| HostIP := "127.0.0.1"; HostPort := "8081" |} ]);
         ("443/tcp", []) ];
     HostConfig_Privileged := true; HostConfig_RestartPolicy_Name := "always";
     NetworkSettings_Networks := ["frontend"; "ghost"];
     NetworkSettings_Networks_mode := ["frontend"; "ghost"]; Mounts := [] |}.

Definition api_host : Client :=
  {| answer_ContainerList := inl [ {| ID := "c7"; Names := ["/api"] |} ];
     answer_ContainerInspect := λ id,
       if bool_decide (id = "c7") then inl api
       else inr ("Error: No such container: " ++ id);
     answer_NetworkList := inl host_networks;
     answer_NetworkInspect := inspect_network [] |}.

(** [db1] with its mounts in the opposite order. *)
Definition db1_reversed : ContainerJSON :=
  container_json "/db1" "postgres:16" ["backend"] (reverse (Mounts db1)).

(** A listing with a container that has no name. *)
Definition nameless : Client :=
  {| answer_ContainerList :=
       inl [ {| ID := "c1"; Names := ["/web1"] |}; {| ID := "c9"; Names := [] |} ];
     answer_ContainerInspect := answer_ContainerInspect healthy;
     answer_NetworkList := inl host_networks;
     answer_NetworkInspect := inspect_network [] |}.

(** A container in the default mode that is attached to two networks,
    in a generation where the range of [getNetworkMode] starts at
    [backend] and the range of [generate] at [frontend]. *)
Definition worker : ContainerJSON :=
  {| Name := "/worker"; Config_Image := "worker:1"; Config_Labels := ∅;
     Config_Env := []; Config_Cmd := []; Config_Entrypoint := [];
     Config_WorkingDir := ""; Config_User := ""; Config_Hostname := "";
     Config_Domainname := ""; Config_Tty := false; Config_OpenStdin := false;
     HostConfig_NetworkMode := "default"; HostConfig_PortBindings := [];
     HostConfig_Privileged := false; HostConfig_RestartPolicy_Name := "no";
     NetworkSettings_Networks := ["frontend"; "backend"];
     NetworkSettings_Networks_mode := ["backend"; "frontend"]; Mounts := [] |}.

Definition worker_host : Client :=
  {| answer_ContainerList := inl [ {| ID := "c8"; Names := ["/worker"] |} ];
     answer_ContainerInspect := λ id,
       if bool_decide (id = "c8") then inl worker
       else inr ("Error: No such container: " ++ id);
     answer_NetworkList := inl host_networks;
     answer_NetworkInspect := inspect_network [] |}.

(** The second listed network cannot be inspected. *)
Definition backend_gone : Client :=
  {| answer_ContainerList := inl listed;
     answer_ContainerInspect := answer_ContainerInspect healthy;
     answer_NetworkList := inl host_networks;
     answer_NetworkInspect := inspect_network ["backend"] |}.

End MoreExamples.

(** [cname] is successfully inspected as [cattrs]: the lookup of
    [generate] finds a container for [cname] and the runtime answers the
    inspection of its ID with [cattrs]. *)
Definition inspects_as (cli : Client) (cname : string) (cattrs : ContainerJSON)
  : Prop :=
  ∃ containers containerID,
    answer_ContainerList cli = inl containers
    ∧ (generate_lookup containers cname).1 = Done containerID
    ∧ containerID ≠ ""
    ∧ answer_ContainerInspect cli containerID = inl cattrs.

(** The inspection of [cname] fails: [generate] returns an error. *)
Definition generate_fails (cli : Client) (createVolumes : bool) (cname : string)
  : Prop :=
  ∃ err t, generate cli cname createVolumes = (Done (inr err), t).

Global Instance generate_fails_dec cli createVolumes cname :
  Decision (generate_fails cli createVolumes cname).
Proof.
  unfold generate_fails.
  destruct (generate cli cname createVolumes) as [[[r|err]|msg] t].
  - right. by intros (? & ? & ?).
  - left. by exists err, t.
  - right. by intros (? & ? & ?).
Defined.

(** The entry of the network [name] in the host-wide export: the literal
    of [generateNetworkInfo] on the answer of its inspection. *)
Definition host_entry (cli : Client) (name : string) : option (gmap string iface) :=
  match answer_NetworkInspect cli name with
  | inl networkResource => Some (generateNetworkInfo_values networkResource)
  | inr _ => None
  end.


(** The keys of a full-detail network entry. *)
Definition detail_keys : gset string :=
  {[ "name"; "scope"; "driver"; "enable_ipv6"; "internal"; "ipam" ]}.

(** A full-detail entry of the network record [r]: under each of the
    six keys the field of [r] the key names, the IPAM as a mapping of its
    driver and its configuration. *)
Definition full_detail (r : NetworkResource) (entry : gmap string iface)
  : Prop :=
  entry !! "name" = Some (I_string (Net_Name r))
  ∧ entry !! "scope" = Some (I_string (Net_Scope r))
  ∧ entry !! "driver" = Some (I_string (Net_Driver r))
  ∧ entry !! "enable_ipv6" = Some (I_bool (Net_EnableIPv6 r))
  ∧ entry !! "internal" = Some (I_bool (Net_Internal r))
  ∧ ∃ ipam,
      entry !! "ipam" = Some (I_map_string_iface ipam)
      ∧ ipam !! "driver" = Some (I_string (Net_IPAM_Driver r))
      ∧ ipam !! "config" = Some (I_IPAMConfigs (Net_IPAM_Config r))
      ∧ dom ipam = {[ "driver"; "config" ]}.

(** The strings among the sentinels of [ignoreValues]. *)
Definition string_sentinels : list string := [""; "null"; "default"; ","; "no"].

(** The keys of the literal [values] of [generate]. *)
Definition attribute_keys : list string :=
  [ "container_name"; "image"; "labels"; "volumes"; "environment"; "command";
    "entrypoint"; "working_dir"; "user"; "hostname"; "domainname";
    "network_mode"; "ports"; "privileged"; "restart"; "tty"; "stdin_open" ].

(** The record [ct] has the string [s] under [key] unless [s] is a
    sentinel, in which case it has no [key]. *)
Definition string_attribute (ct : gmap string iface) (key s : string) : Prop :=
  ct !! key = if bool_decide (s ∈ string_sentinels) then None
              else Some (I_string s).

(** The entry of one binding of a published port:
    [hostIP:hostPort:port], without the first segment when the host IP is
    unset. *)
Definition port_entry (port : string) (binding : PortBinding) : string :=
  (if bool_decide (HostIP binding = "") then HostPort binding
   else HostIP binding ++ ":" ++ HostPort binding) ++ ":" ++ port.

(** The entries of one published port, one per binding. *)
Definition port_entries (pb : string * list PortBinding) : list string :=
  port_entry pb.1 <$> pb.2.

(** The stub of the network [name] in the networks of a container:
    [{external: !internal, name}] on the answer of its inspection, none
    when the inspection fails. *)
Definition stub_entry (cli : Client) (name : string) : option (gmap string iface) :=
  match answer_NetworkInspect cli name with
  | inl networkResource =>
      Some {[ "external" := I_bool (negb (Net_Internal networkResource));
              "name" := I_string name ]}
  | inr _ => None
  end.

(** The two ranges over the networks of a container visit the same
    keys. *)
Definition same_networks (cattrs : ContainerJSON) : Prop :=
  NetworkSettings_Networks_mode cattrs ≡ₚ NetworkSettings_Networks cattrs.

(** The listed container [c] does not answer to [cname]: it has a display
    name, and neither that name nor its ID is [cname]. *)
Definition no_match (cname : string) (c : Container) : Prop :=
  ∃ n, (displayName c).1 = Done n ∧ n ≠ cname ∧ ID c ≠ cname.


(** The display name of a listed container as a value: none when
    [container.Names[0][1:]] is out of range. *)
Definition stripped (container : Container) : option string :=
  match Names container with
  | String _ name :: _ => Some name
  | _ => None
  end.

Global Instance event_eq_dec : EqDecision event.
Proof. solve_decision. Defined.

(** The number of [ContainerList] calls in a trace. *)
Definition listings (t : list event) : nat :=
  length (filter (λ e, e = Call_ContainerList) t).

(** [containerID] is the non-empty ID of a listed container. *)
Definition listed_id (cli : Client) (containerID : string) : Prop :=
  containerID ≠ ""
  ∧ ∃ containers c,
      answer_ContainerList cli = inl containers
      ∧ c ∈ containers ∧ ID c = containerID.

(** A listed container whose inspection succeeds is attached to the
    network [k]. *)
Definition attached (cli : Client) (k : string) : Prop :=
  ∃ containerID cattrs,
    listed_id cli containerID
    ∧ answer_ContainerInspect cli containerID = inl cattrs
    ∧ k ∈ NetworkSettings_Networks cattrs.

(** [k] is the name of a network of the host listing. *)
Definition host_network (cli : Client) (k : string) : Prop :=
  ∃ hostNetworks, answer_NetworkList cli = inl hostNetworks
                  ∧ k ∈ Net_Name <$> hostNetworks.

(** The events a generation may emit. *)
Definition allowed_event (cli : Client) (includeAllContainers : bool)
    (e : event) : Prop :=
  match e with
  | Call_ContainerList | Log _ => True
  | Call_ContainerInspect containerID => listed_id cli containerID
  | Call_NetworkList => includeAllContainers = true
  | Call_NetworkInspect k =>
      attached cli k ∨ (includeAllContainers = true ∧ host_network cli k)
  end.

(** * Properties *)

(** ** Computations *)

Section Monad.
Context {A B : Type}.
Implicit Types (m : M A) (f : A → M B).

Lemma bind_Done a t f :
  ((Done a, t) : M A) ≫= f = ((f a).1, (t ++ (f a).2)%list).
Proof. unfold mbind, M_bind. by destruct (f a). Qed.

Lemma bind_Panicked msg t f :
  ((Panicked msg, t) : M A) ≫= f = (Panicked msg, t).
Proof. done. Qed.

Lemma bind_fst m f :
  (m ≫= f).1 = match m.1 with Done a => (f a).1 | Panicked msg => Panicked msg end.
Proof. destruct m as [[a|msg] t]; [by rewrite bind_Done|done]. Qed.

Lemma bind_snd m f :
  (m ≫= f).2 = (m.2 ++ match m.1 with Done a => (f a).2 | Panicked _ => [] end)%list.
Proof.
  destruct m as [[a|msg] t]; [by rewrite bind_Done|].
  simpl. by rewrite app_nil_r.
Qed.

(** A bind that ends with a value: both halves did. *)
Lemma bind_inv m f b t :
  m ≫= f = (Done b, t) →
  ∃ a t1 t2, m = (Done a, t1) ∧ f a = (Done b, t2) ∧ t = (t1 ++ t2)%list.
Proof.
  destruct m as [[a|msg] t1]; [|done]. rewrite bind_Done.
  destruct (f a) as [o t2] eqn:Hf. simpl. intros [= -> <-].
  by exists a, t1, t2.
Qed.

End Monad.

Lemma ret_inv {A} (a b : A) t : mret a = ((Done b, t) : M A) → a = b ∧ t = [].
Proof. by intros [= -> <-]. Qed.

(** Splits a hypothesis [m ≫= f = (Done b, t)] as far as it goes. *)
Ltac inv_bind H :=
  let a := fresh "a" in
  let t1 := fresh "t" in
  let t2 := fresh "t" in
  let H1 := fresh H "l" in
  let H2 := fresh H "r" in
  apply bind_inv in H as (a & t1 & t2 & H1 & H2 & ->).

(** ** Mount entries: [generateVolumes] *)

Section Volumes.
Implicit Types (cattrs : ContainerJSON) (mount : MountPoint).
Implicit Types (createVolumes : bool).

Lemma generateVolumes_loop_spec createVolumes mounts volumes :
  generateVolumes_loop createVolumes mounts volumes
  = (volumes ++ (generateVolumes_entry createVolumes <$> mounts))%list.
Proof.
  revert volumes. induction mounts as [|mount mounts IH]; intros volumes; simpl.
  - by rewrite app_nil_r.
  - rewrite IH. unfold append. by rewrite <- app_assoc.
Qed.

Lemma generateVolumes_Permutation cattrs createVolumes :
  generateVolumes cattrs createVolumes
  ≡ₚ generateVolumes_entry createVolumes <$> Mounts cattrs.
Proof.
  unfold generateVolumes, sort_Strings.
  rewrite merge_sort_Permutation. by rewrite generateVolumes_loop_spec.
Qed.

Lemma generateVolumes_Sorted cattrs createVolumes :
  Sorted String.le (generateVolumes cattrs createVolumes).
Proof. unfold generateVolumes, sort_Strings. apply (Sorted_merge_sort _). Qed.

(** [sort.Strings] is determined by its contract: any sorted arrangement
    of the entries is the list [generateVolumes] returns. *)
Lemma generateVolumes_unique cattrs createVolumes (l : list string) :
  Sorted String.le l →
  l ≡ₚ generateVolumes_entry createVolumes <$> Mounts cattrs →
  l = generateVolumes cattrs createVolumes.
Proof.
  intros Hs Hp. apply (Sorted_unique String.le); auto using generateVolumes_Sorted.
  by rewrite generateVolumes_Permutation.
Qed.

Lemma generateVolumes_elem cattrs createVolumes mount :
  mount ∈ Mounts cattrs →
  generateVolumes_entry createVolumes mount ∈ generateVolumes cattrs createVolumes.
Proof.
  intros Hin. rewrite generateVolumes_Permutation. by apply list_elem_of_fmap_2.
Qed.

Lemma Sprintf_colon_nonempty (a b : string) : Sprintf_colon a b ≠ "".
Proof. unfold Sprintf_colon. by destruct a. Qed.

Lemma generateVolumes_entry_blank createVolumes mount :
  generateVolumes_entry createVolumes mount = "" ↔ blank_mount createVolumes mount.
Proof.
  unfold generateVolumes_entry, blank_mount.
  destruct createVolumes; repeat case_bool_decide; simpl;
    (split; [intros Hentry|intros [[??]|[??]]]); try done; try congruence;
    try (by apply Sprintf_colon_nonempty in Hentry); try (by left); try (by right).
Qed.

(** [String.le] is the lexicographic order on the bytes of the strings. *)
Lemma String_le_lexicographic (a b : ascii) (s t : string) :
  String.le (String a s) (String b t)
  ↔ (N_of_ascii a < N_of_ascii b)%N ∨ (a = b ∧ String.le s t).
Proof.
  unfold String.le, String.leb. cbn [String.compare]. unfold Ascii.compare.
  destruct (N.compare_spec (N_of_ascii a) (N_of_ascii b)) as [Heq|Hlt|Hgt].
  - assert (a = b) as ->.
    { rewrite <- (ascii_N_embedding a), <- (ascii_N_embedding b). by f_equal. }
    split; [by right|]. intros [Hlt|[_ ?]]; [|done].
    by apply N.lt_irrefl in Hlt.
  - split; [by left|done].
  - split; [done|]. intros [Hlt|[-> _]].
    + by apply N.lt_asymm in Hlt.
    + by apply N.lt_irrefl in Hgt.
Qed.

Lemma String_le_empty (s : string) : String.le "" s.
Proof. by destruct s. Qed.

Lemma String_le_empty_inv (s : string) : String.le s "" → s = "".
Proof. intros H. apply (anti_symm String.le); auto using String_le_empty. Qed.

Lemma filter_all {A} (P : A → Prop) `{!∀ x, Decision (P x)} (l : list A) :
  Forall P l → filter P l = l.
Proof.
  induction 1 as [|x l Hx _ IH]; [done|].
  by rewrite filter_cons_True, IH.
Qed.

Lemma filter_none {A} (P : A → Prop) `{!∀ x, Decision (P x)} (l : list A) :
  Forall (λ x, ¬ P x) l → filter P l = [].
Proof.
  induction 1 as [|x l Hx _ IH]; [done|].
  by rewrite filter_cons_False.
Qed.

(** In a sorted list of strings the empty ones come first. *)
Lemma Sorted_empty_first (l : list string) :
  Sorted String.le l →
  l = (replicate (length (filter (λ s, s = "") l)) "" ++ filter (λ s, s ≠ "") l)%list.
Proof.
  intros Hs. apply (Sorted_StronglySorted _) in Hs.
  induction Hs as [|x l Hs IH Hx]; [done|].
  destruct (decide (x = "")) as [->|Hne].
  - rewrite filter_cons_True by done.
    rewrite (filter_cons_False (λ s, s ≠ "")) by (intros ?; done).
    simpl. by rewrite <- IH.
  - rewrite filter_cons_False by done. rewrite filter_cons_True by done.
    assert (Forall (λ s, s ≠ "") l) as Hall.
    { eapply Forall_impl; [exact Hx|]. intros y Hy ->.
      by apply String_le_empty_inv in Hy. }
    rewrite (filter_none (λ s, s = "")), (filter_all (λ s, s ≠ "")) by done.
    done.
Qed.

Lemma blank_entries_count createVolumes (mounts : list MountPoint) :
  length (filter (λ s, s = "") (generateVolumes_entry createVolumes <$> mounts))
  = length (filter (blank_mount createVolumes) mounts).
Proof.
  induction mounts as [|mount mounts IH]; [done|]. rewrite fmap_cons.
  destruct (decide (blank_mount createVolumes mount)) as [Hb|Hb].
  - rewrite !filter_cons_True; simpl; auto.
    by apply generateVolumes_entry_blank.
  - rewrite !filter_cons_False; auto.
    by rewrite generateVolumes_entry_blank.
Qed.

(** C2: a mount of type volume is rendered as [name:destination] when
    [createVolumes] is on and as the empty entry when it is off; the entry
    is an element of the list [generateVolumes] returns, which holds the
    entries of the mounts and nothing else; the entry of a bind mount is
    the same under both values of the flag. *)
Theorem volume_mount_entry cattrs createVolumes mount :
  mount ∈ Mounts cattrs →
  Mount_Type mount = "volume" →
  let entry := if createVolumes
               then Mount_Name mount ++ ":" ++ Mount_Destination mount
               else "" in
  generateVolumes_entry createVolumes mount = entry
  ∧ entry ∈ generateVolumes cattrs createVolumes
  ∧ generateVolumes cattrs createVolumes
      ≡ₚ generateVolumes_entry createVolumes <$> Mounts cattrs
  ∧ ∀ b, Mount_Type b = "bind" →
         generateVolumes_entry true b = generateVolumes_entry false b.
Proof.
  intros Hin Hty entry.
  assert (generateVolumes_entry createVolumes mount = entry) as He.
  { unfold generateVolumes_entry, entry. rewrite Hty.
    by destruct createVolumes. }
  split_and!; [done| |apply generateVolumes_Permutation|].
  - rewrite <- He. by apply generateVolumes_elem.
  - intros b Hb. unfold generateVolumes_entry. by rewrite Hb.
Qed.

(** C3: a mount of type bind is rendered as [source:destination] whatever
    the flag; the entry is an element of the list [generateVolumes]
    returns; that list is sorted in the lexicographic order of strings,
    and it is the sorted list that [generate] puts under [volumes]. *)
Theorem bind_mount_entry cattrs createVolumes mount :
  mount ∈ Mounts cattrs →
  Mount_Type mount = "bind" →
  let entry := Mount_Source mount ++ ":" ++ Mount_Destination mount in
  generateVolumes_entry true mount = entry
  ∧ generateVolumes_entry false mount = entry
  ∧ entry ∈ generateVolumes cattrs createVolumes
  ∧ Sorted String.le (generateVolumes cattrs createVolumes)
  ∧ ∀ name, ("volumes", I_strings (generateVolumes cattrs createVolumes))
            ∈ generate_values cattrs name createVolumes.
Proof.
  intros Hin Hty entry.
  assert (∀ flag, generateVolumes_entry flag mount = entry) as He.
  { intros flag. unfold generateVolumes_entry, entry. rewrite Hty.
    by destruct flag. }
  split_and!; [done..| |apply generateVolumes_Sorted|].
  - rewrite <- (He createVolumes). by apply generateVolumes_elem.
  - intros name. unfold generate_values.
    do 3 apply list_elem_of_further. apply list_elem_of_here.
Qed.

(** C9: [generateVolumes] returns one entry per mount.  A mount that is
    neither volume nor bind, and a volume mount while [createVolumes] is
    off, contributes the empty string; in the sorted list these empty
    entries are the first ones, followed by the non-empty entries. *)
Theorem one_entry_per_mount cattrs createVolumes :
  length (generateVolumes cattrs createVolumes) = length (Mounts cattrs)
  ∧ generateVolumes cattrs createVolumes
      ≡ₚ generateVolumes_entry createVolumes <$> Mounts cattrs
  ∧ (∀ mount, blank_mount createVolumes mount →
              generateVolumes_entry createVolumes mount = "")
  ∧ ∃ rest,
      generateVolumes cattrs createVolumes
      = (replicate (length (filter (blank_mount createVolumes) (Mounts cattrs))) ""
         ++ rest)%list
      ∧ Forall (λ s, s ≠ "") rest.
Proof.
  pose proof (generateVolumes_Permutation cattrs createVolumes) as Hp.
  split_and!; [| done | |].
  - by rewrite Hp, length_fmap.
  - intros mount. apply generateVolumes_entry_blank.
  - exists (filter (λ s, s ≠ "") (generateVolumes cattrs createVolumes)).
    split; [|apply Forall_forall; intros s Hs; by apply list_elem_of_filter in Hs as [? _]].
    rewrite <- blank_entries_count, <- Hp.
    apply Sorted_empty_first, generateVolumes_Sorted.
Qed.

End Volumes.



(** ** The record of one container: [isIgnoredValue] and [generate] *)

Section Record.
Implicit Types (value iv : iface) (values : list (string * iface)).
Implicit Types (ct : gmap string iface).

Lemma isIgnoredValue_scan_differs value iv ivs :
  iface_eq value iv = Done false →
  isIgnoredValue_scan value (iv :: ivs) = isIgnoredValue_scan value ivs.
Proof.
  intros Heq. cbn [isIgnoredValue_scan]. rewrite Heq. unfold lift.
  rewrite bind_Done. by destruct (isIgnoredValue_scan value ivs).
Qed.

Lemma isIgnoredValue_scan_equal value iv ivs :
  iface_eq value iv = Done true →
  isIgnoredValue_scan value (iv :: ivs) = mret true.
Proof. intros Heq. cbn [isIgnoredValue_scan]. by rewrite Heq. Qed.

(** No sentinel has the dynamic type of a list, a map or a bool
    attribute: such a value is never ignored, whatever it holds. *)
Lemma isIgnoredValue_other_type value :
  match value with
  | I_strings _ | I_StrSlice _ | I_map_string_string _ | I_bool _
  | I_RestartPolicyMode _ | I_IPAMConfigs _ => True
  | _ => False
  end →
  isIgnoredValue value = mret false.
Proof. by destruct value. Qed.

(** A string is ignored iff it is one of the five string sentinels. *)
Lemma isIgnoredValue_string (s : string) :
  isIgnoredValue (I_string s)
  = mret (bool_decide (s ∈ [""; "null"; "default"; ","; "no"])).
Proof.
  unfold isIgnoredValue, ignoreValues.
  repeat first
    [ rewrite isIgnoredValue_scan_differs by done
    | match goal with
      | |- isIgnoredValue_scan (I_string s) (I_string ?x :: _) = _ =>
          destruct (decide (s = x)) as [->|?];
          [ by rewrite isIgnoredValue_scan_equal
          | rewrite isIgnoredValue_scan_differs
              by (simpl; by rewrite bool_decide_eq_false_2) ]
      end ].
  simpl. rewrite bool_decide_eq_false_2; [done|]. intros Hin.
  repeat (apply elem_of_cons in Hin as [?|Hin]; [done|]).
  by apply elem_of_nil in Hin.
Qed.

(** A comparison of two values of type [[]interface{}] does not return. *)
Example isIgnoredValue_panics :
  (isIgnoredValue (I_slice_iface [I_string "a"])).1
  = Panicked "runtime error: comparing uncomparable type []interface {}".
Proof. reflexivity. Qed.

Lemma generate_keep_untouched values ct0 ct t key :
  generate_keep values ct0 = (Done ct, t) →
  key ∉ values.*1 →
  ct !! key = ct0 !! key.
Proof.
  revert ct0 t. induction values as [|[k v] values IH]; intros ct0 t Hrun Hk.
  - by apply ret_inv in Hrun as [-> _].
  - cbn [generate_keep] in Hrun. inv_bind Hrun.
    apply not_elem_of_cons in Hk as [Hne Hk].
    rewrite (IH _ _ Hrunr Hk). destruct a; [done|].
    by rewrite lookup_insert_ne.
Qed.

(** The copy loop, key by key: a value that is not ignored is in the
    record under its key; a value that is ignored is not. *)
Lemma generate_keep_kept values ct0 ct t key value :
  generate_keep values ct0 = (Done ct, t) →
  NoDup values.*1 →
  (key, value) ∈ values →
  isIgnoredValue value = mret false →
  ct !! key = Some value.
Proof.
  revert ct0 t. induction values as [|[k v] values IH];
    intros ct0 t Hrun Hnd Hin Hig.
  { by apply elem_of_nil in Hin. }
  cbn [generate_keep] in Hrun. inv_bind Hrun.
  rewrite fmap_cons in Hnd. apply NoDup_cons in Hnd as [Hk Hnd]. simpl in Hk.
  apply elem_of_cons in Hin as [[= <- <-]|Hin]; [|by eapply IH].
  rewrite Hig in Hrunl. apply ret_inv in Hrunl as [<- ->].
  rewrite (generate_keep_untouched _ _ _ _ _ Hrunr Hk).
  apply lookup_insert_eq.
Qed.

Lemma generate_keep_dropped values ct0 ct t key value :
  generate_keep values ct0 = (Done ct, t) →
  NoDup values.*1 →
  (key, value) ∈ values →
  isIgnoredValue value = mret true →
  ct0 !! key = None →
  ct !! key = None.
Proof.
  revert ct0 t. induction values as [|[k v] values IH];
    intros ct0 t Hrun Hnd Hin Hig Hct0.
  { by apply elem_of_nil in Hin. }
  cbn [generate_keep] in Hrun. inv_bind Hrun.
  rewrite fmap_cons in Hnd. apply NoDup_cons in Hnd as [Hk Hnd]. simpl in Hk.
  apply elem_of_cons in Hin as [[= <- <-]|Hin].
  - rewrite Hig in Hrunl. apply ret_inv in Hrunl as [<- ->].
    by rewrite (generate_keep_untouched _ _ _ _ _ Hrunr Hk).
  - eapply IH; [done..|]. destruct a; [done|].
    rewrite lookup_insert_ne; [done|]. intros ->.
    apply Hk. by apply (list_elem_of_fmap_2 fst _ (key, value)).
Qed.

Lemma isIgnoredValue_silent value : (isIgnoredValue value).2 = [].
Proof.
  unfold isIgnoredValue. induction ignoreValues as [|iv ivs IH]; [done|].
  cbn [isIgnoredValue_scan]. rewrite bind_snd. unfold lift. cbn [fst snd].
  destruct (iface_eq value iv) as [[]|]; done.
Qed.

Lemma generate_keep_lookup_inv values ct0 ct t key value :
  generate_keep values ct0 = (Done ct, t) →
  ct !! key = Some value →
  ct0 !! key = Some value
  ∨ ((key, value) ∈ values ∧ isIgnoredValue value = mret false).
Proof.
  revert ct0 t. induction values as [|[k v] values IH]; intros ct0 t Hrun Hct.
  { apply ret_inv in Hrun as [-> _]. by left. }
  cbn [generate_keep] in Hrun. inv_bind Hrun.
  destruct (IH _ _ Hrunr Hct) as [Hold|[Hin Hig]].
  - destruct a; [by left|].
    destruct (decide (k = key)) as [->|Hne].
    + rewrite lookup_insert_eq in Hold. injection Hold as ->. right.
      split; [apply list_elem_of_here|].
      pose proof (isIgnoredValue_silent value) as Hs.
      rewrite Hrunl in Hs. simpl in Hs. by subst.
    + rewrite lookup_insert_ne in Hold by done. by left.
  - right. split; [by apply list_elem_of_further|done].
Qed.

End Record.

Section Generate.
Implicit Types (cli : Client) (cname : string) (createVolumes : bool).

Lemma bind_ret {A B} (a : A) (f : A → M B) : mret a ≫= f = f a.
Proof. unfold mret, M_ret. rewrite bind_Done. by destruct (f a). Qed.

Lemma cli_ContainerList_run cli :
  cli_ContainerList cli = (Done (answer_ContainerList cli), [Call_ContainerList]).
Proof. reflexivity. Qed.

Lemma cli_ContainerInspect_run cli containerID :
  cli_ContainerInspect cli containerID
  = (Done (answer_ContainerInspect cli containerID),
     [Call_ContainerInspect containerID]).
Proof. reflexivity. Qed.

Lemma cli_NetworkList_run cli :
  cli_NetworkList cli = (Done (answer_NetworkList cli), [Call_NetworkList]).
Proof. reflexivity. Qed.

Lemma cli_NetworkInspect_run cli networkName :
  cli_NetworkInspect cli networkName
  = (Done (answer_NetworkInspect cli networkName),
     [Call_NetworkInspect networkName]).
Proof. reflexivity. Qed.

Lemma displayName_silent container : (displayName container).2 = [].
Proof.
  unfold displayName. destruct (Names container) as [|[|c name0] ?]; done.
Qed.

Lemma generate_lookup_silent containers cname :
  (generate_lookup containers cname).2 = [].
Proof.
  induction containers as [|container containers IH]; [done|].
  cbn [generate_lookup]. rewrite bind_snd, displayName_silent.
  destruct (displayName container).1; [|done].
  by destruct (_ || _).
Qed.

(** The loop over the networks of a container always ends: a failed
    inspection is logged, not returned. *)
Lemma generate_networks_total cli names networks :
  ∃ networks' t, generate_networks cli names networks = (Done networks', t).
Proof.
  revert networks. induction names as [|name names IH]; intros networks.
  { by eexists _, _. }
  cbn [generate_networks]. rewrite cli_NetworkInspect_run, bind_Done.
  destruct (answer_NetworkInspect cli name) as [r|err].
  - destruct (IH (<[name:={["external" := I_bool (negb (Net_Internal r));
                            "name" := I_string name]}]> networks))
      as (n' & t & ->). by eexists _, _.
  - destruct (IH networks) as (n' & t & Hrest).
    unfold log_Printf, emit. rewrite bind_Done, Hrest. by eexists _, _.
Qed.

Lemma generate_values_NoDup cattrs name createVolumes :
  NoDup (generate_values cattrs name createVolumes).*1.
Proof. by apply (bool_decide_unpack _). Qed.

Lemma generate_keep_total values ct0 :
  Forall (λ kv, ∃ b : bool, isIgnoredValue kv.2 = mret b) values →
  ∃ ct, generate_keep values ct0 = (Done ct, []).
Proof.
  intros Hall. revert ct0.
  induction Hall as [|[k v] values [b Hb] _ IH]; intros ct0; [by eexists|].
  cbn [generate_keep]. simpl in Hb. rewrite Hb, bind_ret. apply IH.
Qed.

(** No value of the literal has a dynamic type whose comparison with a
    sentinel panics: the copy loop always ends, without events. *)
Lemma generate_keep_values_total cattrs name createVolumes :
  ∃ ct, generate_keep (generate_values cattrs name createVolumes) ∅ = (Done ct, []).
Proof.
  apply generate_keep_total. unfold generate_values.
  repeat (apply Forall_cons; split;
          [cbn [snd];
           lazymatch goal with
           | |- ∃ b, isIgnoredValue (I_string ?s) = _ =>
               exact (ex_intro _ _ (isIgnoredValue_string s))
           | |- ∃ b, isIgnoredValue ?v = _ =>
               exact (ex_intro _ false (isIgnoredValue_other_type v I))
           end|]).
  apply Forall_nil_2.
Qed.

(** What a successful [generate] returns: one service, under the name of
    the inspected container without its first byte, and no volume
    declarations. *)
Lemma generate_inv cli cname createVolumes cfile cNetworks cVolumes t :
  generate cli cname createVolumes = (Done (inl (cfile, cNetworks, cVolumes)), t) →
  ∃ cattrs name ct,
    inspects_as cli cname cattrs
    ∧ from1 (Name cattrs) = Done name
    ∧ generate_keep (generate_values cattrs name createVolumes) ∅ = (Done ct, [])
    ∧ cfile = {[ name := ct ]}
    ∧ cVolumes = ∅.
Proof.
  unfold generate. rewrite cli_ContainerList_run, bind_Done. cbn [fst snd].
  destruct (answer_ContainerList cli) as [containers|err] eqn:Hlist; [|done].
  pose proof (generate_lookup_silent containers cname) as Hsilent.
  destruct (generate_lookup containers cname) as [[containerID|msg] t0] eqn:Hl;
    [|done].
  rewrite bind_Done. case_bool_decide as Hid; [done|].
  rewrite cli_ContainerInspect_run, bind_Done. cbn [fst snd].
  destruct (answer_ContainerInspect cli containerID) as [cattrs|err] eqn:Hi;
    [|done].
  unfold lift. destruct (from1 (Name cattrs)) as [name|msg] eqn:Hname; [|done].
  rewrite bind_Done.
  destruct (generate_keep_values_total cattrs name createVolumes) as [ct Hct].
  match goal with |- context [?m ≫= _] =>
    destruct m as [[networks|msg] tn]; [|done] end.
  rewrite bind_Done, Hct, bind_Done. cbn [fst snd]. intros [= <- <- <- <-].
  exists cattrs, name, ct. split_and!; try done.
  exists containers, containerID. by rewrite Hl.
Qed.

(** Conversely, a container that is inspected and has a name yields a
    service. *)
Lemma generate_intro cli cname createVolumes cattrs name :
  inspects_as cli cname cattrs →
  from1 (Name cattrs) = Done name →
  ∃ ct cNetworks t,
    generate cli cname createVolumes
    = (Done (inl ({[ name := ct ]}, cNetworks, ∅)), t).
Proof.
  intros (containers & containerID & Hlist & Hl & Hid & Hi) Hname.
  unfold generate. rewrite cli_ContainerList_run, bind_Done, Hlist. cbn [fst snd].
  pose proof (generate_lookup_silent containers cname) as Hsilent.
  destruct (generate_lookup containers cname) as [o t0]. simpl in Hl, Hsilent.
  subst o t0. rewrite bind_Done, bool_decide_eq_false_2 by done.
  rewrite cli_ContainerInspect_run, bind_Done, Hi. cbn [fst snd].
  rewrite Hname. unfold lift. rewrite bind_Done.
  destruct (generate_keep_values_total cattrs name createVolumes) as [ct Hct].
  assert (∃ networks tn,
    (if bool_decide (0 < length (NetworkSettings_Networks cattrs))
     then generate_networks cli (NetworkSettings_Networks cattrs) ∅
     else mret ∅) = (Done networks, tn)) as (networks & tn & ->).
  { case_bool_decide; [apply generate_networks_total|by eexists _, _]. }
  rewrite bind_Done, Hct, bind_Done. cbn [fst snd]. by eexists _, _, _.
Qed.

Lemma inspects_as_functional cli cname cattrs1 cattrs2 :
  inspects_as cli cname cattrs1 → inspects_as cli cname cattrs2 →
  cattrs1 = cattrs2.
Proof.
  intros (cs1 & id1 & Hl1 & Hk1 & _ & Hi1) (cs2 & id2 & Hl2 & Hk2 & _ & Hi2).
  congruence.
Qed.

(** The record of a container, as the code builds it: a key of the
    literal is in the record, with its value, iff [isIgnoredValue]
    returns false on the value. *)
Lemma generate_record cli cname createVolumes cfile cNetworks cVolumes t
    cattrs name :
  generate cli cname createVolumes = (Done (inl (cfile, cNetworks, cVolumes)), t) →
  inspects_as cli cname cattrs →
  from1 (Name cattrs) = Done name →
  ∃ ct, cfile = {[ name := ct ]}
    ∧ ∀ key value,
        ct !! key = Some value
        ↔ (key, value) ∈ generate_values cattrs name createVolumes
          ∧ isIgnoredValue value = mret false.
Proof.
  intros (cattrs' & name' & ct & Hin & Hname' & Hkeep & -> & _)%generate_inv
    Hin' Hname.
  rewrite (inspects_as_functional _ _ _ _ Hin Hin') in *.
  assert (name' = name) as -> by congruence.
  exists ct. split; [done|]. intros key value. split.
  - intros Hct. destruct (generate_keep_lookup_inv _ _ _ _ _ _ Hkeep Hct)
      as [Hempty|?]; [|done]. by rewrite lookup_empty in Hempty.
  - intros [Hmem Hig].
    eapply generate_keep_kept; eauto using generate_values_NoDup.
Qed.


Lemma generate_lookup_found containers cname containerID :
  (generate_lookup containers cname).1 = Done containerID →
  containerID ≠ "" →
  ∃ c, c ∈ containers ∧ ID c = containerID
       ∧ ((displayName c).1 = Done cname ∨ ID c = cname).
Proof.
  intros Hl Hid. induction containers as [|c containers IH]; [by injection Hl|].
  cbn [generate_lookup] in Hl. rewrite bind_fst in Hl.
  destruct (displayName c).1 as [n|msg] eqn:Hn; [|done].
  destruct (bool_decide (n = cname) || bool_decide (ID c = cname)) eqn:Hm.
  - injection Hl as <-. exists c. split_and!; [apply list_elem_of_here|done|].
    apply orb_prop in Hm as [->%bool_decide_eq_true|?%bool_decide_eq_true];
      auto.
  - destruct (IH Hl) as (c' & Hin & ? & ?). exists c'.
    split_and!; [by apply list_elem_of_further|done..].
Qed.




End Generate.

(** C1 at a container without mounts, labels, command or published
    ports: the empty list and the empty mapping are sentinels, yet
    [generate] keeps the keys [volumes], [ports], [command] and [labels]
    with their empty values.  An empty [[]string] is not equal to the
    sentinel [[]interface{}{}]: the dynamic types differ. *)
Theorem empty_attributes_are_kept :
  Mounts Examples.web1 = []
  ∧ iface_eq (I_strings []) (I_slice_iface []) = Done false
  ∧ isIgnoredValue (I_strings []) = mret false
  ∧ ∃ ct cNetworks t,
    generate Examples.healthy "web1" true
    = (Done (inl ({[ "web1" := ct ]}, cNetworks, ∅)), t)
    ∧ ct !! "volumes" = Some (I_strings [])
    ∧ ct !! "ports" = Some (I_strings [])
    ∧ ct !! "command" = Some (I_StrSlice [])
    ∧ ct !! "labels" = Some (I_map_string_string ∅).
Proof.
  split_and!; [done..|].
  assert (inspects_as Examples.healthy "web1" Examples.web1) as Hin.
  { exists Examples.listed, "c1". by split_and!. }
  destruct (generate_intro _ _ true _ "web1" Hin eq_refl) as (ct & nets & t & Hgen).
  destruct (generate_record _ _ _ _ _ _ _ _ "web1" Hgen Hin eq_refl)
    as (ct' & Heq & Hct).
  apply (inj (singletonM "web1")) in Heq as <-.
  exists ct, nets, t. split; [done|].
  split_and!; apply Hct;
    (split; [|by apply isIgnoredValue_other_type]);
    unfold generate_values;
    repeat first [apply list_elem_of_here | apply list_elem_of_further].
Qed.

(** ** The loop over the containers *)

Section Loop.
Implicit Types (cli : Client) (createVolumes : bool) (cname : string).
Implicit Types (acc : section * section * section).

Lemma loop_cons_fails cli createVolumes cname names acc err t0 :
  generate cli cname createVolumes = (Done (inr err), t0) →
  GenerateComposeFile_loop cli createVolumes (cname :: names) acc
  = ((GenerateComposeFile_loop cli createVolumes names acc).1,
     (t0 ++ Log ("Error generating config for container " ++ cname ++ ": " ++ err)
         :: (GenerateComposeFile_loop cli createVolumes names acc).2)%list).
Proof.
  intros Hgen. cbn [GenerateComposeFile_loop]. rewrite Hgen, bind_Done.
  unfold log_Printf, emit. by rewrite bind_Done.
Qed.

Lemma loop_cons_succeeds cli createVolumes cname names structure networks
    volumes cfile cNetworks cVolumes t0 :
  generate cli cname createVolumes = (Done (inl (cfile, cNetworks, cVolumes)), t0) →
  let rest := GenerateComposeFile_loop cli createVolumes names
                (cfile ∪ structure, cNetworks ∪ networks, cVolumes ∪ volumes) in
  GenerateComposeFile_loop cli createVolumes (cname :: names)
    (structure, networks, volumes)
  = (rest.1, (t0 ++ rest.2)%list).
Proof.
  intros Hgen. cbn [GenerateComposeFile_loop]. by rewrite Hgen, bind_Done.
Qed.

Lemma loop_cons_panics cli createVolumes cname names acc msg t0 :
  generate cli cname createVolumes = (Panicked msg, t0) →
  GenerateComposeFile_loop cli createVolumes (cname :: names) acc
  = (Panicked msg, t0).
Proof. intros Hgen. cbn [GenerateComposeFile_loop]. by rewrite Hgen. Qed.

(** What the loop computes is what it computes on the containers whose
    inspection does not fail. *)
Lemma loop_skips_failures cli createVolumes names acc :
  (GenerateComposeFile_loop cli createVolumes names acc).1
  = (GenerateComposeFile_loop cli createVolumes
       (filter (λ n, ¬ generate_fails cli createVolumes n) names) acc).1.
Proof.
  revert acc. induction names as [|cname names IH]; intros acc; [done|].
  destruct (generate cli cname createVolumes)
    as [[[[[cfile cNetworks] cVolumes]|err]|msg] t0] eqn:Hgen.
  - rewrite filter_cons_True by (intros (? & ? & ?); congruence).
    destruct acc as [[structure networks] volumes].
    rewrite !(loop_cons_succeeds _ _ _ _ _ _ _ _ _ _ _ Hgen). apply IH.
  - rewrite filter_cons_False by (intros Hn; apply Hn; by exists err, t0).
    rewrite (loop_cons_fails _ _ _ _ _ _ _ Hgen). apply IH.
  - rewrite filter_cons_True by (intros (? & ? & ?); congruence).
    by rewrite !(loop_cons_panics _ _ _ _ _ _ _ Hgen).
Qed.

(** A failure is logged. *)
Lemma loop_logs_failure cli createVolumes names acc acc' t cname err t0 :
  GenerateComposeFile_loop cli createVolumes names acc = (Done acc', t) →
  cname ∈ names →
  generate cli cname createVolumes = (Done (inr err), t0) →
  Log ("Error generating config for container " ++ cname ++ ": " ++ err) ∈ t.
Proof.
  revert acc t. induction names as [|n names IH]; intros acc t Hrun Hin Hgen.
  { by apply elem_of_nil in Hin. }
  destruct (generate cli n createVolumes)
    as [[[[[cfile cNetworks] cVolumes]|err']|msg] t1] eqn:Hn.
  - destruct acc as [[structure networks] volumes].
    rewrite (loop_cons_succeeds _ _ _ _ _ _ _ _ _ _ _ Hn) in Hrun.
    apply elem_of_cons in Hin as [->|Hin]; [congruence|].
    cbn zeta in Hrun.
    destruct (GenerateComposeFile_loop _ _ names _) as [o t2] eqn:Hrest.
    simpl in Hrun. injection Hrun as -> <-.
    apply elem_of_app. right. by eapply IH.
  - rewrite (loop_cons_fails _ _ _ _ _ _ _ Hn) in Hrun.
    destruct (GenerateComposeFile_loop _ _ names _) as [o t2] eqn:Hrest.
    simpl in Hrun. injection Hrun as -> <-.
    apply elem_of_app. right.
    apply elem_of_cons in Hin as [->|Hin].
    + assert (err' = err) as -> by congruence. apply list_elem_of_here.
    + apply list_elem_of_further. by eapply IH.
  - by rewrite (loop_cons_panics _ _ _ _ _ _ _ Hn) in Hrun.
Qed.

(** The services after the loop: those before it and one per container
    whose [generate] returned a service. *)
Lemma loop_services cli createVolumes names structure networks volumes
    structure' networks' volumes' t key :
  GenerateComposeFile_loop cli createVolumes names (structure, networks, volumes)
  = (Done (structure', networks', volumes'), t) →
  key ∈ dom structure'
  ↔ key ∈ dom structure
    ∨ ∃ cname cfile cNetworks cVolumes t0,
        cname ∈ names
        ∧ generate cli cname createVolumes
          = (Done (inl (cfile, cNetworks, cVolumes)), t0)
        ∧ key ∈ dom cfile.
Proof.
  revert structure networks volumes t.
  induction names as [|n names IH]; intros structure networks volumes t Hrun.
  { apply ret_inv in Hrun as [[= -> -> ->] _]. split; [by left|].
    intros [?|(? & ? & ? & ? & ? & Hin & _)]; [done|].
    by apply elem_of_nil in Hin. }
  destruct (generate cli n createVolumes)
    as [[[[[cfile cNetworks] cVolumes]|err']|msg] t1] eqn:Hn.
  - rewrite (loop_cons_succeeds _ _ _ _ _ _ _ _ _ _ _ Hn) in Hrun.
    cbn zeta in Hrun.
    destruct (GenerateComposeFile_loop _ _ names _) as [o t2] eqn:Hrest.
    simpl in Hrun. injection Hrun as -> <-.
    rewrite (IH _ _ _ _ Hrest), dom_union, elem_of_union. split.
    + intros [[Hk|Hk]|(c & cf & cn & cv & t0 & Hin & Hgen & Hk)].
      * right. exists n, cfile, cNetworks, cVolumes, t1.
        split_and!; [apply list_elem_of_here|done..].
      * by left.
      * right. exists c, cf, cn, cv, t0.
        split_and!; [by apply list_elem_of_further|done..].
    + intros [Hk|(c & cf & cn & cv & t0 & Hin & Hgen & Hk)]; [by left; right|].
      apply elem_of_cons in Hin as [->|Hin].
      * left; left. congruence.
      * right. by exists c, cf, cn, cv, t0.
  - rewrite (loop_cons_fails _ _ _ _ _ _ _ Hn) in Hrun.
    destruct (GenerateComposeFile_loop _ _ names _) as [o t2] eqn:Hrest.
    simpl in Hrun. injection Hrun as -> <-.
    rewrite (IH _ _ _ _ Hrest). split.
    + intros [Hk|(c & cf & cn & cv & t0 & Hin & Hgen & Hk)]; [by left|].
      right. exists c, cf, cn, cv, t0.
      split_and!; [by apply list_elem_of_further|done..].
    + intros [Hk|(c & cf & cn & cv & t0 & Hin & Hgen & Hk)]; [by left|].
      apply elem_of_cons in Hin as [->|Hin]; [congruence|].
      right. by exists c, cf, cn, cv, t0.
  - by rewrite (loop_cons_panics _ _ _ _ _ _ _ Hn) in Hrun.
Qed.

End Loop.

(** ** Listing and filtering *)

Section Listing.
Implicit Types (cli : Client) (containers : list Container).

Lemma listContainerNames_loop_silent containers names :
  (listContainerNames_loop containers names).2 = [].
Proof.
  revert names. induction containers as [|c containers IH]; intros names; [done|].
  cbn [listContainerNames_loop]. rewrite bind_snd, displayName_silent.
  destruct (displayName c).1; [apply IH|done].
Qed.

(** [listContainerNames] makes one call, whatever it returns. *)
Lemma listContainerNames_trace cli :
  (listContainerNames cli).2 = [Call_ContainerList].
Proof.
  unfold listContainerNames. rewrite cli_ContainerList_run, bind_Done.
  cbn [fst snd]. destruct (answer_ContainerList cli) as [containers|err]; [|done].
  rewrite bind_snd, listContainerNames_loop_silent.
  by destruct (listContainerNames_loop containers []).1.
Qed.



Context `{!Regexp}.

Lemma GenerateComposeFile_filter_spec filterRegex names filtered :
  GenerateComposeFile_filter filterRegex names filtered
  = (filtered ++ filter (λ name, MatchString filterRegex name) names)%list.
Proof.
  revert filtered. induction names as [|name names IH]; intros filtered.
  { by rewrite app_nil_r. }
  cbn [GenerateComposeFile_filter]. rewrite IH.
  destruct (MatchString filterRegex name) eqn:Hm.
  - rewrite filter_cons_True by (by apply Is_true_true_2).
    unfold append. by rewrite <- app_assoc.
  - rewrite filter_cons_False; [done|]. by apply Is_true_false_2.
Qed.

Lemma GenerateComposeFile_select_empty names :
  GenerateComposeFile_select "" names = inl names.
Proof. done. Qed.

Lemma GenerateComposeFile_select_valid containerFilter filterRegex names :
  containerFilter ≠ "" →
  Compile containerFilter = inl filterRegex →
  GenerateComposeFile_select containerFilter names
  = inl (filter (λ name, MatchString filterRegex name) names).
Proof.
  intros Hne Hc. unfold GenerateComposeFile_select.
  by rewrite bool_decide_eq_true_2, Hc, GenerateComposeFile_filter_spec.
Qed.

Lemma GenerateComposeFile_select_invalid containerFilter err names :
  containerFilter ≠ "" →
  Compile containerFilter = inr err →
  GenerateComposeFile_select containerFilter names
  = inr ("invalid filter regex: " ++ err).
Proof.
  intros Hne Hc. unfold GenerateComposeFile_select.
  by rewrite bool_decide_eq_true_2, Hc.
Qed.


End Listing.

(** ** The host-wide export: [generateNetworkInfo] *)

Section HostNetworks.
Implicit Types (cli : Client) (networks : section).

Lemma listNetworkNames_loop_spec (l : list NetworkResource) names :
  listNetworkNames_loop l names = (names ++ (Net_Name <$> l))%list.
Proof.
  revert names. induction l as [|n l IH]; intros names.
  { by rewrite app_nil_r. }
  cbn [listNetworkNames_loop]. rewrite IH. unfold append.
  by rewrite <- app_assoc.
Qed.

(** The loop either inspects every network and returns an entry for
    each, over the entries it started from, or returns the error of a
    network whose inspection failed. *)
Lemma generateNetworkInfo_loop_cases cli names networks :
  (∃ networks' t,
      generateNetworkInfo_loop cli names networks = (Done (inl networks'), t)
      ∧ Forall (λ name, is_Some (host_entry cli name)) names
      ∧ ∀ name, networks' !! name
                = if decide (name ∈ names) then host_entry cli name
                  else networks !! name)
  ∨ (∃ name err t,
      generateNetworkInfo_loop cli names networks = (Done (inr err), t)
      ∧ name ∈ names
      ∧ answer_NetworkInspect cli name = inr err).
Proof.
  revert networks. induction names as [|name names IH]; intros networks.
  { left. exists networks, []. split_and!; [done|constructor|].
    intros name. case_decide as Hin; [by apply elem_of_nil in Hin|done]. }
  cbn [generateNetworkInfo_loop]. rewrite cli_NetworkInspect_run, bind_Done.
  cbn [fst snd].
  destruct (answer_NetworkInspect cli name) as [r|err] eqn:Hi.
  - destruct (IH (<[name:=generateNetworkInfo_values r]> networks))
      as [(networks' & t & -> & Hall & Hlook)|(n & err & t & -> & Hin & Herr)].
    + left. exists networks', (Call_NetworkInspect name :: t).
      split_and!; [done| |].
      * constructor; [|done]. unfold host_entry. rewrite Hi. by eexists.
      * intros k. rewrite Hlook.
        destruct (decide (k ∈ names)) as [Hin|Hin].
        { by rewrite decide_True by (by apply list_elem_of_further). }
        destruct (decide (k = name)) as [->|Hne].
        -- rewrite decide_True by apply list_elem_of_here.
           rewrite lookup_insert_eq. unfold host_entry. by rewrite Hi.
        -- rewrite decide_False by (intros [?|?]%elem_of_cons; done).
           by rewrite lookup_insert_ne.
    + right. exists n, err, (Call_NetworkInspect name :: t).
      split_and!; [done|by apply list_elem_of_further|done].
  - right. exists name, err, [Call_NetworkInspect name].
    split_and!; [done|apply list_elem_of_here|done].
Qed.

Lemma generateNetworkInfo_run cli hostNetworks :
  answer_NetworkList cli = inl hostNetworks →
  let loop := generateNetworkInfo_loop cli (Net_Name <$> hostNetworks) ∅ in
  generateNetworkInfo cli = (loop.1, Call_NetworkList :: loop.2).
Proof.
  intros Hl loop. unfold generateNetworkInfo, listNetworkNames.
  rewrite cli_NetworkList_run, bind_Done, Hl. cbn [fst snd].
  unfold mret, M_ret. cbn [fst snd]. rewrite bind_Done.
  rewrite listNetworkNames_loop_spec. cbn [app]. fold loop.
  by destruct loop.
Qed.

Lemma generateNetworkInfo_values_dom (r : NetworkResource) :
  dom (generateNetworkInfo_values r) = detail_keys.
Proof.
  unfold generateNetworkInfo_values, detail_keys.
  rewrite !dom_insert_L, dom_singleton_L. set_solver.
Qed.

Lemma generateNetworkInfo_values_full_detail (r : NetworkResource) :
  full_detail r (generateNetworkInfo_values r).
Proof.
  unfold full_detail, generateNetworkInfo_values.
  split_and!; [by simplify_map_eq..|].
  eexists. split_and!; [by simplify_map_eq..|].
  rewrite dom_insert_L, dom_singleton_L. set_solver.
Qed.

End HostNetworks.

(** ** The whole generation *)

Section Whole.
Context `{!Regexp, !Yaml}.
Implicit Types (cli : Client) (config : Config).
Implicit Types (includeAllContainers createVolumes : bool).

(** After a listing and a selection that succeed, the rest is the batch
    of the selected names. *)
Lemma GenerateComposeFile_config_run cli includeAllContainers containerFilter
    createVolumes all names :
  (listContainerNames cli).1 = Done (inl all) →
  GenerateComposeFile_select containerFilter all = inl names →
  let batch := GenerateComposeFile_batch cli includeAllContainers createVolumes
                 names in
  GenerateComposeFile_config cli includeAllContainers containerFilter createVolumes
  = (batch.1, Call_ContainerList :: batch.2).
Proof.
  intros Hl Hs batch. pose proof (listContainerNames_trace cli) as Ht.
  unfold GenerateComposeFile_config.
  destruct (listContainerNames cli) as [o t]. simpl in Hl, Ht. subst o t.
  by rewrite bind_Done, Hs.
Qed.

Lemma GenerateComposeFile_config_inv cli includeAllContainers containerFilter
    createVolumes config t :
  GenerateComposeFile_config cli includeAllContainers containerFilter createVolumes
  = (Done (inl config), t) →
  ∃ all names tb,
    (listContainerNames cli).1 = Done (inl all)
    ∧ GenerateComposeFile_select containerFilter all = inl names
    ∧ GenerateComposeFile_batch cli includeAllContainers createVolumes names
      = (Done (inl config), tb)
    ∧ t = Call_ContainerList :: tb.
Proof.
  intros Hrun. unfold GenerateComposeFile_config in Hrun.
  pose proof (listContainerNames_trace cli) as Ht.
  destruct (listContainerNames cli) as [[[all|err]|msg] tl]; [|done..].
  simpl in Ht. subst tl. rewrite bind_Done in Hrun.
  destruct (GenerateComposeFile_select containerFilter all) as [names|err] eqn:Hs;
    [|done].
  destruct (GenerateComposeFile_batch _ _ _ names) as [o tb] eqn:Hb.
  simpl in Hrun. injection Hrun as -> <-. by exists all, names, tb.
Qed.

(** [GenerateComposeFile] returns a text iff it built a [config] and
    [yaml.Marshal] rendered it. *)
Lemma GenerateComposeFile_inv cli includeAllContainers containerFilter
    createVolumes out t :
  GenerateComposeFile cli includeAllContainers containerFilter createVolumes
  = (Done (inl out), t) →
  ∃ config,
    GenerateComposeFile_config cli includeAllContainers containerFilter
      createVolumes = (Done (inl config), t)
    ∧ Marshal config = inl out.
Proof.
  unfold GenerateComposeFile.
  destruct (GenerateComposeFile_config _ _ _ _) as [[[config|err]|msg] t0];
    [|by rewrite bind_Done|done].
  rewrite bind_Done. unfold render.
  destruct (Marshal config) as [out'|err] eqn:Hm; [|done].
  simpl. rewrite app_nil_r. intros [= <- <-]. by exists config.
Qed.

Lemma GenerateComposeFile_fst cli includeAllContainers containerFilter
    createVolumes :
  (GenerateComposeFile cli includeAllContainers containerFilter createVolumes).1
  = match (GenerateComposeFile_config cli includeAllContainers containerFilter
             createVolumes).1 with
    | Done (inl config) => Done (render config)
    | Done (inr err) => Done (inr err)
    | Panicked msg => Panicked msg
    end.
Proof.
  unfold GenerateComposeFile.
  destruct (GenerateComposeFile_config _ _ _ _) as [[[config|err]|msg] t];
    [by rewrite bind_Done..|done].
Qed.

Lemma GenerateComposeFile_snd cli includeAllContainers containerFilter
    createVolumes :
  (GenerateComposeFile cli includeAllContainers containerFilter createVolumes).2
  = (GenerateComposeFile_config cli includeAllContainers containerFilter
       createVolumes).2.
Proof.
  unfold GenerateComposeFile.
  destruct (GenerateComposeFile_config _ _ _ _) as [[[config|err]|msg] t];
    [rewrite bind_Done; simpl; by rewrite app_nil_r..|done].
Qed.

(** The batch after its loop. *)
Lemma GenerateComposeFile_batch_run cli includeAllContainers createVolumes names
    structure networks volumes t :
  GenerateComposeFile_loop cli createVolumes names (∅, ∅, ∅)
  = (Done (structure, networks, volumes), t) →
  GenerateComposeFile_batch cli includeAllContainers createVolumes names
  = if includeAllContainers then
      (match (generateNetworkInfo cli).1 with
       | Done (inl hostNetworks) =>
           Done (inl {| Version := "3.6"; Services := structure;
                        Networks := hostNetworks; Volumes := volumes |})
       | Done (inr err) => Done (inr ("error generating network info: " ++ err))
       | Panicked msg => Panicked msg
       end, (t ++ (generateNetworkInfo cli).2)%list)
    else
      (Done (inl {| Version := "3.6"; Services := structure;
                    Networks := networks; Volumes := volumes |}), t).
Proof.
  intros Hloop. unfold GenerateComposeFile_batch. rewrite Hloop, bind_Done.
  destruct includeAllContainers.
  - destruct (generateNetworkInfo cli) as [[[hostNetworks|err]|msg] tn];
      rewrite ?bind_Done; simpl; by rewrite ?app_nil_r.
  - rewrite bind_ret. simpl. by rewrite app_nil_r.
Qed.

Lemma GenerateComposeFile_batch_inv cli includeAllContainers createVolumes names
    (r : result Config) t :
  GenerateComposeFile_batch cli includeAllContainers createVolumes names
  = (Done r, t) →
  ∃ structure networks volumes t1,
    GenerateComposeFile_loop cli createVolumes names (∅, ∅, ∅)
    = (Done (structure, networks, volumes), t1).
Proof.
  unfold GenerateComposeFile_batch.
  destruct (GenerateComposeFile_loop _ _ _ _)
    as [[[[structure networks] volumes]|msg] t1]; [|done].
  intros _. by eexists _, _, _, _.
Qed.

(** On a pattern that does not compile, everything after the listing is
    skipped. *)
Lemma GenerateComposeFile_config_invalid cli includeAllContainers
    containerFilter createVolumes err :
  containerFilter ≠ "" →
  Compile containerFilter = inr err →
  GenerateComposeFile_config cli includeAllContainers containerFilter createVolumes
  = (match (listContainerNames cli).1 with
     | Done (inl _) => Done (inr ("invalid filter regex: " ++ err))
     | Done (inr listErr) => Done (inr listErr)
     | Panicked msg => Panicked msg
     end, [Call_ContainerList]).
Proof.
  intros Hne Hc. unfold GenerateComposeFile_config.
  pose proof (listContainerNames_trace cli) as Ht.
  destruct (listContainerNames cli) as [[[all|listErr]|msg] t];
    simpl in Ht; subst t; [|done..].
  by rewrite bind_Done, (GenerateComposeFile_select_invalid _ err).
Qed.

(** C4, as the code has it: on a non-empty pattern that does not compile,
    [GenerateComposeFile] returns no document, and the only call it makes
    is the listing of the containers: no container is inspected.  When
    the listing succeeds, the error returned is the InvalidFilter error,
    [invalid filter regex: ...]; when the listing fails, it is the error
    of the listing. *)
Theorem invalid_filter_fails cli includeAllContainers containerFilter
    createVolumes err :
  containerFilter ≠ "" →
  Compile containerFilter = inr err →
  let run := GenerateComposeFile cli includeAllContainers containerFilter
               createVolumes in
  (∀ out, run.1 ≠ Done (inl out))
  ∧ run.2 = [Call_ContainerList]
  ∧ (∀ containerID, Call_ContainerInspect containerID ∉ run.2)
  ∧ (∀ all, (listContainerNames cli).1 = Done (inl all) →
            run.1 = Done (inr ("invalid filter regex: " ++ err)))
  ∧ (∀ listErr, answer_ContainerList cli = inr listErr →
                run.1 = Done (inr listErr)).
Proof.
  intros Hne Hc run.
  pose proof (GenerateComposeFile_config_invalid cli includeAllContainers
                containerFilter createVolumes err Hne Hc) as Hcfg.
  assert (run.2 = [Call_ContainerList]) as Htrace.
  { unfold run. by rewrite GenerateComposeFile_snd, Hcfg. }
  assert (run.1 = match (listContainerNames cli).1 with
                  | Done (inl _) => Done (inr ("invalid filter regex: " ++ err))
                  | Done (inr listErr) => Done (inr listErr)
                  | Panicked msg => Panicked msg
                  end) as Hout.
  { unfold run. rewrite GenerateComposeFile_fst, Hcfg. cbn [fst].
    by destruct (listContainerNames cli).1 as [[|]|]. }
  split_and!.
  - intros out. rewrite Hout. by destruct (listContainerNames cli).1 as [[|]|].
  - done.
  - intros containerID. rewrite Htrace. by intros [=]%list_elem_of_singleton.
  - intros all Hall. by rewrite Hout, Hall.
  - intros listErr Hl. rewrite Hout. unfold listContainerNames.
    by rewrite cli_ContainerList_run, bind_Done, Hl.
Qed.

(** C7: with a non-empty pattern that compiles, the names selected are
    the listed display names that [MatchString] accepts, in the order of
    the listing, and the generation is the batch of these names.  The
    pattern goes to [Compile] and the names to [MatchString] as they
    are: nothing anchors the pattern or folds the case. *)
Theorem filter_selects_matching_names cli includeAllContainers containerFilter
    createVolumes filterRegex all :
  containerFilter ≠ "" →
  Compile containerFilter = inl filterRegex →
  (listContainerNames cli).1 = Done (inl all) →
  let names := filter (λ name, MatchString filterRegex name) all in
  let batch := GenerateComposeFile_batch cli includeAllContainers createVolumes
                 names in
  GenerateComposeFile_select containerFilter all = inl names
  ∧ (∀ name, name ∈ names ↔ name ∈ all ∧ MatchString filterRegex name = true)
  ∧ GenerateComposeFile_config cli includeAllContainers containerFilter
      createVolumes = (batch.1, Call_ContainerList :: batch.2)
  ∧ (all = ["web1"; "web2"; "db1"] →
     MatchString filterRegex "web1" = true →
     MatchString filterRegex "web2" = true →
     MatchString filterRegex "db1" = false →
     names = ["web1"; "web2"]).
Proof.
  intros Hne Hc Hl names batch.
  pose proof (GenerateComposeFile_select_valid _ _ all Hne Hc) as Hs.
  split_and!; [done| |by apply (GenerateComposeFile_config_run _ _ _ _ all)|].
  - intros name. unfold names. rewrite list_elem_of_filter, Is_true_true.
    tauto.
  - intros -> H1 H2 H3. unfold names.
    rewrite !filter_cons_True by (by apply Is_true_true_2).
    by rewrite filter_cons_False by (by apply Is_true_false_2).
Qed.

(** The generation with [includeAllContainers], once the container
    phase has ended with the accumulators of the run without the flag. *)
Lemma GenerateComposeFile_config_host_wide cli containerFilter createVolumes
    config0 t0 hostNetworks :
  GenerateComposeFile_config cli false containerFilter createVolumes
  = (Done (inl config0), t0) →
  answer_NetworkList cli = inl hostNetworks →
  let loop := generateNetworkInfo_loop cli (Net_Name <$> hostNetworks) ∅ in
  GenerateComposeFile_config cli true containerFilter createVolumes
  = (match loop.1 with
     | Done (inl hostNetworks) =>
         Done (inl {| Version := "3.6"; Services := Services config0;
                      Networks := hostNetworks; Volumes := Volumes config0 |})
     | Done (inr err) => Done (inr ("error generating network info: " ++ err))
     | Panicked msg => Panicked msg
     end, (t0 ++ Call_NetworkList :: loop.2)%list).
Proof.
  intros Hcfg0 Hnl loop.
  destruct (GenerateComposeFile_config_inv _ _ _ _ _ _ Hcfg0)
    as (all & names & tb & Hl & Hs & Hb & ->).
  destruct (GenerateComposeFile_batch_inv _ _ _ _ _ _ Hb)
    as (structure & networks & volumes & t1 & Hloop).
  rewrite (GenerateComposeFile_batch_run _ false _ _ _ _ _ _ Hloop) in Hb.
  injection Hb as <- <-.
  rewrite (GenerateComposeFile_config_run cli true _ createVolumes _ _ Hl Hs).
  rewrite (GenerateComposeFile_batch_run _ true _ _ _ _ _ _ Hloop).
  by rewrite (generateNetworkInfo_run _ _ Hnl).
Qed.

(** A document of the generation with [includeAllContainers]: the flag
    off gives a document as well, and every listed network was
    inspected. *)
Lemma GenerateComposeFile_config_host_wide_inv cli containerFilter createVolumes
    config t :
  GenerateComposeFile_config cli true containerFilter createVolumes
  = (Done (inl config), t) →
  ∃ config0 t0 hostNetworks networks tn,
    GenerateComposeFile_config cli false containerFilter createVolumes
    = (Done (inl config0), t0)
    ∧ answer_NetworkList cli = inl hostNetworks
    ∧ generateNetworkInfo_loop cli (Net_Name <$> hostNetworks) ∅
      = (Done (inl networks), tn)
    ∧ Networks config = networks.
Proof.
  intros Hcfg.
  destruct (GenerateComposeFile_config_inv _ _ _ _ _ _ Hcfg)
    as (all & names & tb & Hl & Hs & Hb & ->).
  destruct (GenerateComposeFile_batch_inv _ _ _ _ _ _ Hb)
    as (structure & networks & volumes & t1 & Hloop).
  pose proof (GenerateComposeFile_config_run cli false _ createVolumes _ _ Hl Hs)
    as Hrun0. cbn zeta in Hrun0.
  rewrite (GenerateComposeFile_batch_run _ false _ _ _ _ _ _ Hloop) in Hrun0.
  rewrite (GenerateComposeFile_batch_run _ true _ _ _ _ _ _ Hloop) in Hb.
  unfold generateNetworkInfo, listNetworkNames in Hb.
  rewrite cli_NetworkList_run, bind_Done in Hb. cbn [fst snd] in Hb.
  destruct (answer_NetworkList cli) as [hostNetworks|err] eqn:Hnl;
    [|by simplify_eq].
  unfold mret, M_ret in Hb. cbn [fst snd] in Hb. rewrite bind_Done in Hb.
  rewrite listNetworkNames_loop_spec in Hb. cbn [app fst snd] in Hb.
  destruct (generateNetworkInfo_loop cli (Net_Name <$> hostNetworks) ∅)
    as [[[hn|err]|msg] tn] eqn:Hgni; [|by simplify_eq..].
  cbn [fst snd] in Hb. injection Hb as <- _.
  by eexists _, _, hostNetworks, hn, tn.
Qed.

(** C5: with [includeAllContainers] the networks of the document are
    those of the host: one full-detail entry per listed network (the
    name, scope, driver, IPv6 flag, internal flag and IPAM of its
    inspection, under these six keys), whether a processed container is
    attached to it or not, and nothing of the per-container stubs.  The services and volumes are those of the
    generation without the flag.  If the inspection of a listed network
    fails, the generation returns no document, and where the container
    phase ends it returns the error of a failed inspection. *)
Theorem host_wide_networks cli containerFilter createVolumes hostNetworks :
  answer_NetworkList cli = inl hostNetworks →
  let run := GenerateComposeFile cli true containerFilter createVolumes in
  (∀ out t, run = (Done (inl out), t) →
     ∃ config config0 t0 tn,
       GenerateComposeFile_config cli true containerFilter createVolumes
       = (Done (inl config), t)
       ∧ Marshal config = inl out
       ∧ GenerateComposeFile_config cli false containerFilter createVolumes
         = (Done (inl config0), t0)
       ∧ t = (t0 ++ tn)%list
       ∧ Services config = Services config0
       ∧ Volumes config = Volumes config0
       ∧ dom (Networks config) = list_to_set (Net_Name <$> hostNetworks)
       ∧ ∀ n, n ∈ hostNetworks →
           ∃ r, answer_NetworkInspect cli (Net_Name n) = inl r
                ∧ Networks config !! Net_Name n
                  = Some (generateNetworkInfo_values r)
                ∧ dom (generateNetworkInfo_values r) = detail_keys
                ∧ full_detail r (generateNetworkInfo_values r))
  ∧ (∀ config0 t0,
       GenerateComposeFile_config cli false containerFilter createVolumes
       = (Done (inl config0), t0) →
       (∀ n, n ∈ hostNetworks → is_Some (host_entry cli (Net_Name n))) →
       ∃ config, run.1 = Done (render config))
  ∧ (∀ n err, n ∈ hostNetworks →
       answer_NetworkInspect cli (Net_Name n) = inr err →
       (∀ out, run.1 ≠ Done (inl out))
       ∧ (∀ config0 t0,
            GenerateComposeFile_config cli false containerFilter createVolumes
            = (Done (inl config0), t0) →
            ∃ n' err',
              n' ∈ hostNetworks
              ∧ answer_NetworkInspect cli (Net_Name n') = inr err'
              ∧ run.1 = Done (inr ("error generating network info: " ++ err')))).
Proof.
  intros Hnl run.
  pose proof (GenerateComposeFile_fst cli true containerFilter createVolumes)
    as Hfst. fold run in Hfst.
  (* a document: every network was inspected, and the map holds them *)
  assert (∀ config t,
    GenerateComposeFile_config cli true containerFilter createVolumes
    = (Done (inl config), t) →
    Forall (λ name, is_Some (host_entry cli name)) (Net_Name <$> hostNetworks)
    ∧ (∀ name, Networks config !! name
               = if decide (name ∈ Net_Name <$> hostNetworks)
                 then host_entry cli name else None)
    ∧ ∃ config0 t0 tn,
        GenerateComposeFile_config cli false containerFilter createVolumes
        = (Done (inl config0), t0)
        ∧ t = (t0 ++ tn)%list
        ∧ Services config = Services config0
        ∧ Volumes config = Volumes config0) as Hdoc.
  { intros config t Hcfg.
    destruct (GenerateComposeFile_config_host_wide_inv _ _ _ _ _ Hcfg)
      as (config0 & t0 & hn & networks & tn & Hcfg0 & Hnl' & Hgni & Hnets).
    assert (hn = hostNetworks) as -> by congruence.
    rewrite (GenerateComposeFile_config_host_wide _ _ _ _ _ _ Hcfg0 Hnl) in Hcfg.
    rewrite Hgni in Hcfg. cbn [fst snd] in Hcfg. injection Hcfg as <- <-.
    destruct (generateNetworkInfo_loop_cases cli (Net_Name <$> hostNetworks) ∅)
      as [(networks' & tn' & Hgni' & Hall & Hlook)|(? & ? & ? & Hgni' & _)];
      rewrite Hgni in Hgni'; [|done]. injection Hgni' as <- <-.
    split_and!; [done| |by eexists config0, t0, _].
    intros name. cbn [Networks]. rewrite Hlook.
    case_decide; [done|apply lookup_empty]. }
  split_and!.
  - intros out t (config & Hcfg & Hm)%GenerateComposeFile_inv.
    destruct (Hdoc _ _ Hcfg)
      as (Hall & Hlook & config0 & t0 & tn & Hcfg0 & -> & Hsv & Hvol).
    exists config, config0, t0, tn. split_and!; try done.
    + apply set_eq. intros k. rewrite elem_of_dom, elem_of_list_to_set, Hlook.
      case_decide as Hk; [|by rewrite is_Some_alt].
      split; [done|]. intros _. by apply (proj1 (Forall_forall _ _) Hall).
    + intros n Hn. rewrite Hlook.
      assert (Net_Name n ∈ Net_Name <$> hostNetworks) as Hk
        by (by apply list_elem_of_fmap_2).
      rewrite decide_True by done.
      pose proof (proj1 (Forall_forall _ _) Hall _ Hk) as [e He].
      unfold host_entry in *.
      destruct (answer_NetworkInspect cli (Net_Name n)) as [r|?]; [|done].
      exists r.
      split_and!; [done..|apply generateNetworkInfo_values_dom
                  |apply generateNetworkInfo_values_full_detail].
  - intros config0 t0 Hcfg0 Hall. rewrite Hfst.
    rewrite (GenerateComposeFile_config_host_wide _ _ _ _ _ _ Hcfg0 Hnl).
    cbn [fst].
    destruct (generateNetworkInfo_loop_cases cli (Net_Name <$> hostNetworks) ∅)
      as [(networks' & tn & -> & _)|(name & err & tn & _ & Hin & Herr)].
    + by eexists.
    + apply list_elem_of_fmap in Hin as (n' & -> & Hn').
      destruct (Hall _ Hn') as [e He]. unfold host_entry in He.
      by rewrite Herr in He.
  - intros n err Hn Herr.
    assert (Net_Name n ∈ Net_Name <$> hostNetworks) as Hk
      by (by apply list_elem_of_fmap_2).
    split.
    + intros out Hout. rewrite Hfst in Hout.
      destruct (GenerateComposeFile_config cli true containerFilter createVolumes)
        as [[[config|e]|msg] t]; [|done..].
      destruct (Hdoc _ _ eq_refl) as (Hall & _).
      pose proof (proj1 (Forall_forall _ _) Hall _ Hk) as [e He].
      unfold host_entry in He. by rewrite Herr in He.
    + intros config0 t0 Hcfg0. rewrite Hfst.
      rewrite (GenerateComposeFile_config_host_wide _ _ _ _ _ _ Hcfg0 Hnl).
      cbn [fst].
      destruct (generateNetworkInfo_loop_cases cli (Net_Name <$> hostNetworks) ∅)
        as [(networks' & tn & _ & Hall & _)|(name & err' & tn & -> & Hin & Herr')].
      * pose proof (proj1 (Forall_forall _ _) Hall _ Hk) as [e He].
        unfold host_entry in He. by rewrite Herr in He.
      * apply list_elem_of_fmap in Hin as (n' & -> & Hn').
        by exists n', err'.
Qed.

(** C6: a container whose inspection fails is logged and skipped.  What
    the generation returns, document or error, is what it returns on the
    batch without the containers that fail; when it ends, the log holds
    the line of the failure; and in a document every container of the
    batch whose [generate] succeeded has its service. *)
Theorem inspection_failure_is_skipped cli includeAllContainers containerFilter
    createVolumes all names cname err t0 :
  (listContainerNames cli).1 = Done (inl all) →
  GenerateComposeFile_select containerFilter all = inl names →
  cname ∈ names →
  generate cli cname createVolumes = (Done (inr err), t0) →
  let kept := filter (λ n, ¬ generate_fails cli createVolumes n) names in
  let line := "Error generating config for container " ++ cname ++ ": " ++ err in
  (cname ∉ kept)
  ∧ (GenerateComposeFile_config cli includeAllContainers containerFilter
       createVolumes).1
    = (GenerateComposeFile_batch cli includeAllContainers createVolumes kept).1
  ∧ (∀ r t, GenerateComposeFile cli includeAllContainers containerFilter
              createVolumes = (Done r, t) →
            Log line ∈ t)
  ∧ (∀ out t, GenerateComposeFile cli includeAllContainers containerFilter
                createVolumes = (Done (inl out), t) →
       ∃ config,
         GenerateComposeFile_config cli includeAllContainers containerFilter
           createVolumes = (Done (inl config), t)
         ∧ Marshal config = inl out
         ∧ ∀ other cfile cNetworks cVolumes t1,
             other ∈ names →
             generate cli other createVolumes
             = (Done (inl (cfile, cNetworks, cVolumes)), t1) →
             dom cfile ⊆ dom (Services config)).
Proof.
  intros Hl Hs Hin Hgen kept line.
  pose proof (GenerateComposeFile_config_run cli includeAllContainers _
                createVolumes _ _ Hl Hs) as Hcfg. cbn zeta in Hcfg.
  (* what a finished batch says about its loop *)
  assert (∀ (r : result Config) tb,
    GenerateComposeFile_batch cli includeAllContainers createVolumes names
    = (Done r, tb) →
    Log line ∈ tb
    ∧ ∀ config, r = inl config →
        ∀ other cfile cNetworks cVolumes t1,
          other ∈ names →
          generate cli other createVolumes
          = (Done (inl (cfile, cNetworks, cVolumes)), t1) →
          dom cfile ⊆ dom (Services config)) as Hbatch.
  { intros r tb Hb.
    destruct (GenerateComposeFile_batch_inv _ _ _ _ _ _ Hb)
      as (structure & networks & volumes & t1 & Hloop).
    pose proof (loop_logs_failure _ _ _ _ _ _ _ _ _ Hloop Hin Hgen) as Hlog.
    rewrite (GenerateComposeFile_batch_run _ includeAllContainers _ _ _ _ _ _ Hloop)
      in Hb.
    assert (Log line ∈ tb ∧ ∀ config, r = inl config → Services config = structure)
      as [Htb Hsv].
    { destruct includeAllContainers.
      - injection Hb as Hr <-. split; [apply elem_of_app; by left|].
        intros config ->.
        destruct (generateNetworkInfo cli).1 as [[hostNetworks|e]|msg];
          by simplify_eq.
      - injection Hb as <- <-. split; [done|]. by intros config [= <-]. }
    split; [done|]. intros config Hr other cfile cNetworks cVolumes t2 Ho Hog.
    rewrite (Hsv _ Hr). intros key Hkey.
    apply (loop_services _ _ _ _ _ _ _ _ _ _ key Hloop). right.
    by exists other, cfile, cNetworks, cVolumes, t2. }
  split_and!.
  - unfold kept. rewrite list_elem_of_filter. intros [Hnf _]. apply Hnf.
    by exists err, t0.
  - rewrite Hcfg. cbn [fst]. unfold GenerateComposeFile_batch.
    rewrite !bind_fst. by rewrite loop_skips_failures.
  - intros r t Hrun.
    pose proof (GenerateComposeFile_snd cli includeAllContainers containerFilter
                  createVolumes) as Hsnd.
    pose proof (GenerateComposeFile_fst cli includeAllContainers containerFilter
                  createVolumes) as Hfst.
    rewrite Hrun, Hcfg in Hsnd. rewrite Hrun, Hcfg in Hfst.
    cbn [fst snd] in Hsnd, Hfst. subst t.
    destruct (GenerateComposeFile_batch cli includeAllContainers createVolumes
                names) as [[rb|msg] tb] eqn:Hb; [|done].
    apply list_elem_of_further. by apply (Hbatch rb tb).
  - intros out t (config & Hc & Hm)%GenerateComposeFile_inv.
    exists config. split_and!; [done..|].
    rewrite Hcfg in Hc.
    destruct (GenerateComposeFile_batch cli includeAllContainers createVolumes
                names) as [o tb] eqn:Hb.
    cbn [fst snd] in Hc. injection Hc as -> <-.
    by apply (Hbatch (inl config) tb).
Qed.



(** C10: the document of a successful generation has version ["3.6"]. *)
Theorem version_is_3_6 cli includeAllContainers containerFilter createVolumes
    out t :
  GenerateComposeFile cli includeAllContainers containerFilter createVolumes
  = (Done (inl out), t) →
  ∃ config,
    GenerateComposeFile_config cli includeAllContainers containerFilter
      createVolumes = (Done (inl config), t)
    ∧ Marshal config = inl out
    ∧ Version config = "3.6".
Proof.
  intros (config & Hcfg & Hm)%GenerateComposeFile_inv.
  exists config. split_and!; [done..|].
  apply GenerateComposeFile_config_inv in Hcfg as (all & names & tb & _ & _ & Hb & _).
  destruct (GenerateComposeFile_batch_inv _ _ _ _ _ _ Hb)
    as (structure & networks & volumes & t1 & Hloop).
  rewrite (GenerateComposeFile_batch_run _ includeAllContainers _ _ _ _ _ _ Hloop)
    in Hb.
  destruct includeAllContainers.
  - destruct (generateNetworkInfo cli).1 as [[hostNetworks|e]|msg];
      by simplify_eq.
  - by simplify_eq.
Qed.

End Whole.

(** ** The properties at the example runtimes *)

Section Instances.
#[local] Existing Instance RE2_fragment.
#[local] Existing Instance Plain_yaml.
Import Examples.

Local Ltac run := vm_compute; reflexivity.

(** The mounts of [db1], with and without volume entries. *)
Example generateVolumes_db1 :
  generateVolumes db1 true
  = [""; "/etc/app:/conf"; "pgdata:/var/lib/postgresql/data"]
  ∧ generateVolumes db1 false = [""; ""; "/etc/app:/conf"].
Proof. split; run. Qed.

Lemma volume_mount_entry_witness :
  data_volume ∈ Mounts db1
  ∧ Mount_Type data_volume = "volume"
  ∧ "pgdata:/var/lib/postgresql/data" ∈ generateVolumes db1 true
  ∧ "" ∈ generateVolumes db1 false.
Proof.
  assert (data_volume ∈ Mounts db1) as Hin by apply list_elem_of_here.
  split_and!; [exact Hin|reflexivity| |].
  - exact (proj1 (proj2 (volume_mount_entry db1 true data_volume Hin eq_refl))).
  - exact (proj1 (proj2 (volume_mount_entry db1 false data_volume Hin eq_refl))).
Defined.

Lemma bind_mount_entry_witness :
  conf_bind ∈ Mounts db1
  ∧ Mount_Type conf_bind = "bind"
  ∧ "/etc/app:/conf" ∈ generateVolumes db1 false
  ∧ "/etc/app:/conf" ∈ generateVolumes db1 true
  ∧ Sorted String.le (generateVolumes db1 true).
Proof.
  assert (conf_bind ∈ Mounts db1) as Hin
    by apply list_elem_of_further, list_elem_of_here.
  split_and!; [exact Hin|reflexivity| | |].
  - exact (proj1 (proj2 (proj2
             (bind_mount_entry db1 false conf_bind Hin eq_refl)))).
  - exact (proj1 (proj2 (proj2
             (bind_mount_entry db1 true conf_bind Hin eq_refl)))).
  - exact (proj1 (proj2 (proj2 (proj2
             (bind_mount_entry db1 true conf_bind Hin eq_refl))))).
Defined.

(** The pattern [(] on a runtime that answers: the InvalidFilter error,
    after the listing and nothing else. *)
Lemma invalid_filter_fails_witness :
  "(" ≠ ""
  ∧ Compile "(" = inr "error parsing regexp: missing closing ): `(`"
  ∧ (GenerateComposeFile healthy true "(" true).1
    = Done (inr "invalid filter regex: error parsing regexp: missing closing ): `(`")
  ∧ (GenerateComposeFile healthy true "(" true).2 = [Call_ContainerList].
Proof.
  assert ("(" ≠ "") as Hne by done.
  assert (Compile "(" = inr "error parsing regexp: missing closing ): `(`")
    as Hc by reflexivity.
  pose proof (invalid_filter_fails healthy true "(" true _ Hne Hc)
    as (_ & Htrace & _ & Herr & _).
  split_and!; [exact Hne|exact Hc| |exact Htrace].
  apply (Herr ["web1"; "web2"; "db1"]). run.
Defined.

(** The same pattern while the daemon is down: the error returned is the
    one of the listing, not an InvalidFilter error. *)
Lemma invalid_filter_daemon_down :
  "(" ≠ ""
  ∧ (∃ err, Compile "(" = inr err)
  ∧ (GenerateComposeFile daemon_down false "(" false).1
    = Done (inr "Cannot connect to the Docker daemon")
  ∧ ¬ ∃ err, (GenerateComposeFile daemon_down false "(" false).1
             = Done (inr ("invalid filter regex: " ++ err)).
Proof.
  split_and!; [done|by eexists|run|].
  intros [err Herr]. vm_compute in Herr. discriminate Herr.
Qed.

(** The pattern [^web] over [web1], [web2], [db1]. *)
Lemma filter_selects_matching_names_witness :
  let web := RE2.Cat RE2.Bol
               (RE2.Cat (RE2.Lit "w") (RE2.Cat (RE2.Lit "e")
                  (RE2.Cat (RE2.Lit "b") RE2.Eps))) in
  "^web" ≠ ""
  ∧ Compile "^web" = inl web
  ∧ (listContainerNames healthy).1 = Done (inl ["web1"; "web2"; "db1"])
  ∧ GenerateComposeFile_select "^web" ["web1"; "web2"; "db1"]
    = inl ["web1"; "web2"]
  ∧ GenerateComposeFile_select "eb" ["web1"; "WEB2"; "db1"] = inl ["web1"].
Proof.
  intros web.
  assert ("^web" ≠ "") as Hne by done.
  assert (Compile "^web" = inl web) as Hc by reflexivity.
  assert ((listContainerNames healthy).1 = Done (inl ["web1"; "web2"; "db1"]))
    as Hl by run.
  split_and!; [exact Hne|exact Hc|exact Hl| |run].
  pose proof (filter_selects_matching_names healthy false "^web" true
                web _ Hne Hc Hl) as (Hs & _ & _ & Hweb).
  rewrite Hs. exact (f_equal inl (Hweb eq_refl eq_refl eq_refl eq_refl)).
Defined.

(** [includeAllContainers] with the filter [^web]: only [web1] and [web2]
    are processed, and the document holds the three networks of the host;
    no processed container is attached to [backend] or [unused]. *)
Lemma host_wide_networks_witness :
  answer_NetworkList healthy = inl host_networks
  ∧ ∃ out t,
      GenerateComposeFile healthy true "^web" true = (Done (inl out), t)
      ∧ ∃ config,
          GenerateComposeFile_config healthy true "^web" true
          = (Done (inl config), t)
          ∧ dom (Networks config) = {[ "frontend"; "backend"; "unused" ]}
          ∧ Networks config !! "unused"
            = Some (generateNetworkInfo_values (network "unused" false))
          ∧ ∃ entry,
              Networks config !! "unused" = Some entry
              ∧ entry !! "name" = Some (I_string "unused")
              ∧ entry !! "driver" = Some (I_string "bridge")
              ∧ entry !! "internal" = Some (I_bool false).
Proof.
  split; [reflexivity|].
  assert (∃ out t, GenerateComposeFile healthy true "^web" true
                   = (Done (inl out), t)) as (out & t & Hrun)
    by (eexists _, _; run).
  exists out, t. split; [exact Hrun|].
  destruct (proj1 (host_wide_networks healthy "^web" true host_networks eq_refl)
              out t Hrun)
    as (config & _ & _ & _ & Hcfg & _ & _ & _ & _ & _ & Hdom & Hentries).
  destruct (Hentries (network "unused" false))
    as (r & Hr & Hlook & _ & Hname & _ & Hdriver & _ & Hinternal & _).
  { unfold host_networks. do 2 apply list_elem_of_further.
    apply list_elem_of_here. }
  injection Hr as <-.
  exists config. split_and!; [exact Hcfg| |exact Hlook|].
  - rewrite Hdom. apply set_eq. intros k.
    rewrite elem_of_list_to_set. unfold host_networks.
    rewrite !fmap_cons, fmap_nil, !elem_of_cons, elem_of_nil.
    rewrite !elem_of_union, !elem_of_singleton. simpl. tauto.
  - exists (generateNetworkInfo_values (network "unused" false)).
    split_and!; [exact Hlook|exact Hname|exact Hdriver|exact Hinternal].
Defined.

(** A listed network that cannot be inspected: no document. *)
Example host_wide_networks_failure :
  GenerateComposeFile unused_gone true "" true
  = (Done (inr "error generating network info: Error: No such network: unused"),
     [Call_ContainerList;
      Call_ContainerList; Call_ContainerInspect "c1"; Call_NetworkInspect "frontend";
      Call_ContainerList; Call_ContainerInspect "c2";
      Call_ContainerList; Call_ContainerInspect "c3"; Call_NetworkInspect "backend";
      Call_NetworkList; Call_NetworkInspect "frontend";
      Call_NetworkInspect "backend"; Call_NetworkInspect "unused"]).
Proof. run. Qed.

(** [web2] is listed and gone: the document is returned, the log holds
    the line. *)
Lemma inspection_failure_is_skipped_witness :
  (listContainerNames web2_gone).1 = Done (inl ["web1"; "web2"; "db1"])
  ∧ GenerateComposeFile_select "" ["web1"; "web2"; "db1"]
    = inl ["web1"; "web2"; "db1"]
  ∧ "web2" ∈ ["web1"; "web2"; "db1"]
  ∧ generate web2_gone "web2" true
    = (Done (inr "Error: No such container: c2"),
       [Call_ContainerList; Call_ContainerInspect "c2"])
  ∧ ∃ out t,
      GenerateComposeFile web2_gone false "" true = (Done (inl out), t)
      ∧ Log "Error generating config for container web2: Error: No such container: c2"
        ∈ t.
Proof.
  assert ((listContainerNames web2_gone).1 = Done (inl ["web1"; "web2"; "db1"]))
    as Hl by run.
  assert ("web2" ∈ ["web1"; "web2"; "db1"]) as Hin
    by apply list_elem_of_further, list_elem_of_here.
  assert (generate web2_gone "web2" true
          = (Done (inr "Error: No such container: c2"),
             [Call_ContainerList; Call_ContainerInspect "c2"])) as Hgen by run.
  assert (∃ out t, GenerateComposeFile web2_gone false "" true
                   = (Done (inl out), t)) as (out & t & Hrun)
    by (eexists _, _; run).
  split_and!; [exact Hl|reflexivity|exact Hin|exact Hgen|].
  exists out, t. split; [exact Hrun|].
  exact (proj1 (proj2 (proj2
           (inspection_failure_is_skipped web2_gone false "" true _ _ _ _ _
              Hl eq_refl Hin Hgen))) _ _ Hrun).
Defined.



Lemma version_is_3_6_witness :
  ∃ out t,
    GenerateComposeFile healthy true "^web" false = (Done (inl out), t)
    ∧ ∃ config,
        GenerateComposeFile_config healthy true "^web" false
        = (Done (inl config), t)
        ∧ Marshal config = inl out
        ∧ Version config = "3.6".
Proof.
  assert (∃ out t, GenerateComposeFile healthy true "^web" false
                   = (Done (inl out), t)) as (out & t & Hrun)
    by (eexists _, _; run).
  exists out, t. split; [exact Hrun|].
  exact (version_is_3_6 healthy true "^web" false out t Hrun).
Defined.

End Instances.

(** * Further properties of the package *)

(** ** Attributes *)

Section Attributes.
Implicit Types (cli : Client) (cattrs : ContainerJSON) (value : iface).
Implicit Types (ct : gmap string iface).

(** X1: [isIgnoredValue] by dynamic type.  The nil interface is ignored;
    a string iff it is one of the five string sentinels; an int iff it is
    0; a value of type [[]interface{}] or [map[string]interface{}] makes
    the comparison with the sentinel of its type panic; a value of any
    other type is never ignored. *)
Theorem isIgnoredValue_by_type value :
  match value with
  | I_nil => isIgnoredValue value = mret true
  | I_string s =>
      isIgnoredValue value = mret (bool_decide (s ∈ string_sentinels))
  | I_int n => isIgnoredValue value = mret (bool_decide (n = 0%Z))
  | I_slice_iface _ | I_map_string_iface _ =>
      ∃ msg, isIgnoredValue value = (Panicked msg, [])
  | _ => isIgnoredValue value = mret false
  end.
Proof.
  destruct value as [|s|n| | | | | | | |]; try reflexivity.
  - apply isIgnoredValue_string.
  - unfold isIgnoredValue, ignoreValues.
    rewrite !isIgnoredValue_scan_differs by done.
    destruct (decide (n = 0%Z)) as [->|Hn].
    + by rewrite isIgnoredValue_scan_equal.
    + rewrite isIgnoredValue_scan_differs
        by (simpl; by rewrite bool_decide_eq_false_2).
      rewrite !isIgnoredValue_scan_differs by done.
      by rewrite bool_decide_eq_false_2.
  - by eexists.
  - by eexists.
Qed.

Lemma generate_keep_string values ct t key s :
  generate_keep values ∅ = (Done ct, t) →
  NoDup values.*1 →
  (key, I_string s) ∈ values →
  string_attribute ct key s.
Proof.
  intros Hkeep Hnd Hin. unfold string_attribute. case_bool_decide as Hs.
  - eapply generate_keep_dropped; [done..| |done].
    rewrite isIgnoredValue_string. by rewrite bool_decide_eq_true_2.
  - eapply generate_keep_kept; [done..|].
    rewrite isIgnoredValue_string. by rewrite bool_decide_eq_false_2.
Qed.

Local Ltac find_value :=
  unfold generate_values;
  repeat first [apply list_elem_of_here | apply list_elem_of_further].

(** X2: the scalar attributes of a record.  Each string attribute is in
    the record, with its value, unless the value is one of [""], ["null"],
    ["default"], [","], ["no"]; the three booleans are always in the
    record, false as well as true; and the record has no key outside the
    seventeen of the literal. *)
Theorem record_scalar_attributes cli cname createVolumes cfile cNetworks
    cVolumes t :
  generate cli cname createVolumes = (Done (inl (cfile, cNetworks, cVolumes)), t) →
  ∃ cattrs name ct,
    inspects_as cli cname cattrs
    ∧ from1 (Name cattrs) = Done name
    ∧ cfile = {[ name := ct ]}
    ∧ string_attribute ct "container_name" name
    ∧ string_attribute ct "image" (Config_Image cattrs)
    ∧ string_attribute ct "working_dir" (Config_WorkingDir cattrs)
    ∧ string_attribute ct "user" (Config_User cattrs)
    ∧ string_attribute ct "hostname" (Config_Hostname cattrs)
    ∧ string_attribute ct "domainname" (Config_Domainname cattrs)
    ∧ ct !! "privileged" = Some (I_bool (HostConfig_Privileged cattrs))
    ∧ ct !! "tty" = Some (I_bool (Config_Tty cattrs))
    ∧ ct !! "stdin_open" = Some (I_bool (Config_OpenStdin cattrs))
    ∧ ∀ key, is_Some (ct !! key) → key ∈ attribute_keys.
Proof.
  intros (cattrs & name & ct & Hin & Hname & Hkeep & -> & _)%generate_inv.
  pose proof (generate_values_NoDup cattrs name createVolumes) as Hnd.
  exists cattrs, name, ct. split_and!; [done..| | | | | | | | | |].
  1-6: apply (generate_keep_string _ _ _ _ _ Hkeep Hnd); find_value.
  1-3: apply (generate_keep_kept _ _ _ _ _ _ Hkeep Hnd);
         [find_value|by apply isIgnoredValue_other_type].
  intros key [value Hv].
  destruct (generate_keep_lookup_inv _ _ _ _ _ _ Hkeep Hv) as [He|[Hmem _]].
  { by rewrite lookup_empty in He. }
  by apply (list_elem_of_fmap_2 fst _ (key, value)) in Hmem.
Qed.

(** X3: the network mode of a record.  A mode other than ["default"] is
    written as it is (unless it is a sentinel string).  In the default
    mode the name of some attached network is written instead: the one
    the range of [getNetworkMode] yields first, which need not be the one
    [generate] inspects first.  A container in the default mode that is
    attached to no network has no [network_mode] key, the mode
    ["default"] being a sentinel. *)
Theorem record_network_mode cli cname createVolumes cfile cNetworks cVolumes t :
  generate cli cname createVolumes = (Done (inl (cfile, cNetworks, cVolumes)), t) →
  ∃ cattrs name ct,
    inspects_as cli cname cattrs
    ∧ cfile = {[ name := ct ]}
    ∧ (HostConfig_NetworkMode cattrs ≠ "default" →
       string_attribute ct "network_mode" (HostConfig_NetworkMode cattrs))
    ∧ (∀ first rest,
         HostConfig_NetworkMode cattrs = "default" →
         NetworkSettings_Networks_mode cattrs = first :: rest →
         string_attribute ct "network_mode" first)
    ∧ (same_networks cattrs →
       HostConfig_NetworkMode cattrs = "default" →
       if decide (NetworkSettings_Networks cattrs = [])
       then ct !! "network_mode" = None
       else ∃ k, k ∈ NetworkSettings_Networks cattrs
                 ∧ string_attribute ct "network_mode" k).
Proof.
  intros (cattrs & name & ct & Hin & Hname & Hkeep & -> & _)%generate_inv.
  pose proof (generate_values_NoDup cattrs name createVolumes) as Hnd.
  assert (string_attribute ct "network_mode" (getNetworkMode cattrs)) as Hmode.
  { apply (generate_keep_string _ _ _ _ _ Hkeep Hnd). find_value. }
  exists cattrs, name, ct. split_and!; [done..| | |].
  - intros Hne. revert Hmode. unfold getNetworkMode, NetworkMode_IsDefault.
    by rewrite bool_decide_eq_false_2.
  - intros first rest Hd Hnets. revert Hmode.
    unfold getNetworkMode, NetworkMode_IsDefault.
    by rewrite bool_decide_eq_true_2, Hnets.
  - intros Hsame Hd. unfold same_networks in Hsame. revert Hmode.
    unfold getNetworkMode, NetworkMode_IsDefault.
    rewrite bool_decide_eq_true_2 by done.
    destruct (NetworkSettings_Networks_mode cattrs) as [|first rest] eqn:Hnets.
    + symmetry in Hsame. apply Permutation_nil_r in Hsame.
      rewrite decide_True by done. rewrite Hd.
      unfold string_attribute. rewrite bool_decide_eq_true_2; [done|].
      unfold string_sentinels. do 2 apply list_elem_of_further.
      apply list_elem_of_here.
    + intros Hmode. rewrite decide_False.
      * exists first. split; [|done]. rewrite <- Hsame. apply list_elem_of_here.
      * intros He. rewrite He in Hsame. by apply Permutation_nil_r in Hsame.
Qed.

Lemma getPorts_bindings_spec port bindings ports :
  getPorts_bindings port bindings ports
  = (ports ++ (port_entry port <$> bindings))%list.
Proof.
  revert ports. induction bindings as [|b bindings IH]; intros ports.
  { by rewrite app_nil_r. }
  cbn [getPorts_bindings]. rewrite IH. unfold append, port_entry, Sprintf_colon.
  rewrite <- app_assoc. simpl. do 2 f_equal.
  by destruct (decide (HostIP b = "")) as [Hip|Hip];
    [rewrite bool_decide_eq_false_2, bool_decide_eq_true_2 by (by auto)
    |rewrite bool_decide_eq_true_2, bool_decide_eq_false_2 by done].
Qed.

Lemma getPorts_loop_spec (portBindings : list (string * list PortBinding)) ports :
  getPorts_loop portBindings ports
  = (ports ++ mjoin (port_entries <$> portBindings))%list.
Proof.
  revert ports. induction portBindings as [|[port bindings] rest IH]; intros ports.
  { by rewrite app_nil_r. }
  cbn [getPorts_loop]. rewrite IH, getPorts_bindings_spec.
  by rewrite <- app_assoc.
Qed.

(** X4: [getPorts] returns one entry per binding of each published port,
    in the order the bindings are visited and without sorting:
    [hostIP:hostPort:port], or [hostPort:port] when the host IP is unset.
    A port without bindings contributes nothing. *)
Theorem getPorts_entries cattrs :
  getPorts cattrs
  = mjoin (port_entries <$> HostConfig_PortBindings cattrs)
  ∧ length (getPorts cattrs)
    = sum_list ((λ pb : string * list PortBinding, length pb.2)
                <$> HostConfig_PortBindings cattrs)
  ∧ ∀ port binding bindings,
      (port, bindings) ∈ HostConfig_PortBindings cattrs →
      binding ∈ bindings →
      port_entry port binding ∈ getPorts cattrs.
Proof.
  assert (getPorts cattrs
          = mjoin (port_entries
                    <$> HostConfig_PortBindings cattrs)) as Heq.
  { unfold getPorts. by rewrite getPorts_loop_spec. }
  split_and!; [done| |].
  - rewrite Heq, length_join, <- list_fmap_compose. f_equal.
    apply Forall_fmap_ext, Forall_forall. intros pb _.
    unfold port_entries. simpl. by rewrite length_fmap.
  - intros port binding bindings Hp Hb. rewrite Heq.
    apply list_elem_of_join. exists (port_entry port <$> bindings). split.
    + by apply list_elem_of_fmap_2.
    + by apply (list_elem_of_fmap_2 port_entries _
                  (port, bindings)).
Qed.

(** X5: the mount entries do not depend on the order of the mounts. *)
Theorem generateVolumes_mount_order cattrs1 cattrs2 createVolumes :
  Mounts cattrs1 ≡ₚ Mounts cattrs2 →
  generateVolumes cattrs1 createVolumes = generateVolumes cattrs2 createVolumes.
Proof.
  intros Hp. apply generateVolumes_unique; [apply generateVolumes_Sorted|].
  by rewrite generateVolumes_Permutation, Hp.
Qed.

(** X6: [createVolumes] changes the entries of volume mounts only: on a
    container without a mount of type volume both values of the flag give
    the same list. *)
Theorem generateVolumes_without_volumes cattrs :
  Forall (λ mount, Mount_Type mount ≠ "volume") (Mounts cattrs) →
  generateVolumes cattrs true = generateVolumes cattrs false.
Proof.
  intros Hall. unfold generateVolumes. rewrite !generateVolumes_loop_spec.
  do 2 f_equal. apply Forall_fmap_ext. eapply Forall_impl; [exact Hall|].
  intros mount Hty. unfold generateVolumes_entry.
  by rewrite bool_decide_eq_false_2.
Qed.

End Attributes.

(** ** One container: [generate] *)

Section GenerateCases.
Implicit Types (cli : Client) (cname : string) (createVolumes : bool).
Implicit Types (containers : list Container).

Lemma generate_lookup_run containers cname :
  generate_lookup containers cname = ((generate_lookup containers cname).1, []).
Proof.
  pose proof (generate_lookup_silent containers cname) as Hs.
  destruct (generate_lookup containers cname) as [o t]. simpl in Hs. by subst.
Qed.

Lemma generate_lookup_none containers cname :
  Forall (no_match cname) containers →
  generate_lookup containers cname = (Done "", []).
Proof.
  intros Hall. rewrite generate_lookup_run. f_equal.
  induction Hall as [|c containers (n & Hn & Hne & Hid) _ IH]; [done|].
  cbn [generate_lookup]. rewrite bind_fst, Hn.
  by rewrite !bool_decide_eq_false_2.
Qed.

Lemma generate_lookup_match (pre : list Container) c post cname n :
  Forall (no_match cname) pre →
  (displayName c).1 = Done n →
  n = cname ∨ ID c = cname →
  generate_lookup (pre ++ c :: post)%list cname = (Done (ID c), []).
Proof.
  intros Hall Hn Hm. rewrite generate_lookup_run. f_equal.
  induction Hall as [|c' pre (n' & Hn' & Hne & Hid) _ IH].
  - cbn [app generate_lookup]. rewrite bind_fst, Hn.
    destruct Hm as [->|Hm].
    + by rewrite bool_decide_eq_true_2.
    + rewrite (bool_decide_eq_true_2 (ID c = cname)) by done.
      by rewrite orb_true_r.
  - cbn [app generate_lookup]. rewrite bind_fst, Hn'.
    by rewrite !bool_decide_eq_false_2.
Qed.

Lemma generate_list_error cli cname createVolumes err :
  answer_ContainerList cli = inr err →
  generate cli cname createVolumes = (Done (inr err), [Call_ContainerList]).
Proof.
  intros Hl. unfold generate. by rewrite cli_ContainerList_run, bind_Done, Hl.
Qed.

Lemma generate_lookup_panic cli cname createVolumes containers msg :
  answer_ContainerList cli = inl containers →
  (generate_lookup containers cname).1 = Panicked msg →
  generate cli cname createVolumes = (Panicked msg, [Call_ContainerList]).
Proof.
  intros Hl Hk. unfold generate.
  rewrite cli_ContainerList_run, bind_Done, Hl. cbn [fst snd].
  by rewrite generate_lookup_run, Hk.
Qed.

Lemma generate_not_found cli cname createVolumes containers :
  answer_ContainerList cli = inl containers →
  (generate_lookup containers cname).1 = Done "" →
  generate cli cname createVolumes
  = (Done (inr ("container " ++ cname ++ " not found")), [Call_ContainerList]).
Proof.
  intros Hl Hk. unfold generate.
  rewrite cli_ContainerList_run, bind_Done, Hl. cbn [fst snd].
  by rewrite generate_lookup_run, Hk, bind_Done.
Qed.

Lemma generate_inspect_error cli cname createVolumes containers containerID err :
  answer_ContainerList cli = inl containers →
  (generate_lookup containers cname).1 = Done containerID →
  containerID ≠ "" →
  answer_ContainerInspect cli containerID = inr err →
  generate cli cname createVolumes
  = (Done (inr err), [Call_ContainerList; Call_ContainerInspect containerID]).
Proof.
  intros Hl Hk Hid Hi. unfold generate.
  rewrite cli_ContainerList_run, bind_Done, Hl. cbn [fst snd].
  rewrite generate_lookup_run, Hk, bind_Done, bool_decide_eq_false_2 by done.
  by rewrite cli_ContainerInspect_run, bind_Done, Hi.
Qed.

Lemma generate_name_panic cli cname createVolumes containers containerID cattrs :
  answer_ContainerList cli = inl containers →
  (generate_lookup containers cname).1 = Done containerID →
  containerID ≠ "" →
  answer_ContainerInspect cli containerID = inl cattrs →
  Name cattrs = "" →
  ∃ msg, generate cli cname createVolumes
         = (Panicked msg, [Call_ContainerList; Call_ContainerInspect containerID]).
Proof.
  intros Hl Hk Hid Hi Hn. unfold generate.
  rewrite cli_ContainerList_run, bind_Done, Hl. cbn [fst snd].
  rewrite generate_lookup_run, Hk, bind_Done, bool_decide_eq_false_2 by done.
  rewrite cli_ContainerInspect_run, bind_Done, Hi. cbn [fst snd].
  rewrite Hn. by eexists.
Qed.

(** The run of [generate] on a container that is found, inspected and
    named. *)
Lemma generate_run cli cname createVolumes containers containerID cattrs name :
  answer_ContainerList cli = inl containers →
  (generate_lookup containers cname).1 = Done containerID →
  containerID ≠ "" →
  answer_ContainerInspect cli containerID = inl cattrs →
  from1 (Name cattrs) = Done name →
  ∃ ct networks tn,
    generate_networks cli (NetworkSettings_Networks cattrs) ∅ = (Done networks, tn)
    ∧ generate_keep (generate_values cattrs name createVolumes) ∅ = (Done ct, [])
    ∧ generate cli cname createVolumes
      = (Done (inl ({[ name := ct ]}, networks, ∅)),
         Call_ContainerList :: Call_ContainerInspect containerID :: tn).
Proof.
  intros Hl Hk Hid Hi Hname.
  destruct (generate_keep_values_total cattrs name createVolumes) as [ct Hct].
  destruct (generate_networks_total cli (NetworkSettings_Networks cattrs) ∅)
    as (networks & tn & Hnets).
  exists ct, networks, tn. split_and!; [done..|].
  unfold generate.
  rewrite cli_ContainerList_run, bind_Done, Hl. cbn [fst snd].
  rewrite generate_lookup_run, Hk, bind_Done, bool_decide_eq_false_2 by done.
  rewrite cli_ContainerInspect_run, bind_Done, Hi. cbn [fst snd].
  rewrite Hname. unfold lift. rewrite bind_Done.
  assert ((if bool_decide (0 < length (NetworkSettings_Networks cattrs))
           then generate_networks cli (NetworkSettings_Networks cattrs) ∅
           else mret ∅) = (Done networks, tn)) as ->.
  { case_bool_decide as Hlen; [done|].
    destruct (NetworkSettings_Networks cattrs); [|simpl in Hlen; lia].
    by rewrite <- Hnets. }
  rewrite bind_Done, Hct, bind_Done. cbn [fst snd app].
  by rewrite app_nil_r.
Qed.

(** The loop over the attached networks: what it returns and what it
    emits. *)
Lemma generate_networks_spec cli names networks :
  ∃ networks' t,
    generate_networks cli names networks = (Done networks', t)
    ∧ (∀ k, networks' !! k
            = if decide (k ∈ names)
              then match stub_entry cli k with
                   | Some stub => Some stub
                   | None => networks !! k
                   end
              else networks !! k)
    ∧ (∀ k err, k ∈ names → answer_NetworkInspect cli k = inr err →
                Log ("Error inspecting network " ++ k ++ ": " ++ err) ∈ t)
    ∧ Forall (λ e, (∃ k, k ∈ names ∧ e = Call_NetworkInspect k)
                   ∨ ∃ line, e = Log line) t.
Proof.
  revert networks. induction names as [|name names IH]; intros networks.
  { exists networks, []. split_and!; [done| | |constructor].
    - intros k. by rewrite decide_False by apply not_elem_of_nil.
    - intros k err Hk. by apply elem_of_nil in Hk. }
  cbn [generate_networks]. rewrite cli_NetworkInspect_run, bind_Done.
  cbn [fst snd].
  assert (∀ (t : list event),
    Forall (λ e, (∃ k, k ∈ names ∧ e = Call_NetworkInspect k)
                 ∨ ∃ line, e = Log line) t →
    Forall (λ e, (∃ k, k ∈ name :: names ∧ e = Call_NetworkInspect k)
                 ∨ ∃ line, e = Log line) t) as Hweaken.
  { intros t Ht. eapply Forall_impl; [exact Ht|].
    intros e [(k & Hk & ->)|?]; [left|by right].
    exists k. split; [by apply list_elem_of_further|done]. }
  destruct (answer_NetworkInspect cli name) as [r|err] eqn:Hi.
  - destruct (IH (<[name:={["external" := I_bool (negb (Net_Internal r));
                            "name" := I_string name]}]> networks))
      as (networks' & t & -> & Hlook & Hlog & Htr).
    exists networks', (Call_NetworkInspect name :: t).
    split_and!; [done| | |].
    + intros k. rewrite Hlook.
      destruct (decide (k ∈ names)) as [Hin|Hin].
      { rewrite decide_True by (by apply list_elem_of_further).
        destruct (stub_entry cli k) eqn:Hstub; [done|].
        rewrite lookup_insert_ne; [done|]. intros <-.
        unfold stub_entry in Hstub. by rewrite Hi in Hstub. }
      destruct (decide (k = name)) as [->|Hne].
      * rewrite decide_True by apply list_elem_of_here.
        rewrite lookup_insert_eq. unfold stub_entry. by rewrite Hi.
      * rewrite decide_False by (intros [?|?]%elem_of_cons; done).
        by rewrite lookup_insert_ne.
    + intros k err Hk Herr. apply list_elem_of_further.
      apply elem_of_cons in Hk as [->|Hk]; [congruence|]. by eapply Hlog.
    + constructor; [|by apply Hweaken]. left. exists name.
      split; [apply list_elem_of_here|done].
  - destruct (IH networks) as (networks' & t & Hrest & Hlook & Hlog & Htr).
    unfold log_Printf, emit. rewrite bind_Done, Hrest. cbn [fst snd app].
    exists networks',
      (Call_NetworkInspect name
       :: Log ("Error inspecting network " ++ name ++ ": " ++ err) :: t).
    split_and!; [done| | |].
    + intros k. rewrite Hlook.
      destruct (decide (k ∈ names)) as [Hin|Hin].
      { by rewrite decide_True by (by apply list_elem_of_further). }
      destruct (decide (k = name)) as [->|Hne].
      * rewrite decide_True by apply list_elem_of_here.
        unfold stub_entry. by rewrite Hi.
      * by rewrite decide_False by (intros [?|?]%elem_of_cons; done).
    + intros k err' Hk Herr. apply list_elem_of_further.
      apply elem_of_cons in Hk as [->|Hk].
      * assert (err' = err) as -> by congruence. apply list_elem_of_here.
      * apply list_elem_of_further. by eapply Hlog.
    + constructor; [|constructor; [|by apply Hweaken]].
      * left. exists name. split; [apply list_elem_of_here|done].
      * right. by eexists.
Qed.

(** X7: [generate] resolves its argument against the display names and
    the IDs of the listing: it inspects the first listed container whose
    display name or whose ID is the argument, whatever comes after it in
    the listing. *)
Theorem generate_resolves_name_or_id cli cname createVolumes
    (pre : list Container) c (post : list Container) n :
  answer_ContainerList cli = inl (pre ++ c :: post)%list →
  Forall (no_match cname) pre →
  (displayName c).1 = Done n →
  n = cname ∨ ID c = cname →
  ID c ≠ "" →
  (generate cli cname createVolumes).2 !! 1 = Some (Call_ContainerInspect (ID c))
  ∧ (∀ cattrs, answer_ContainerInspect cli (ID c) = inl cattrs →
               inspects_as cli cname cattrs)
  ∧ (∀ err, answer_ContainerInspect cli (ID c) = inr err →
            generate cli cname createVolumes
            = (Done (inr err),
               [Call_ContainerList; Call_ContainerInspect (ID c)])).
Proof.
  intros Hl Hpre Hn Hm Hid.
  pose proof (generate_lookup_match pre c post cname n Hpre Hn Hm) as Hk.
  assert ((generate_lookup (pre ++ c :: post)%list cname).1 = Done (ID c)) as Hk1
    by (by rewrite Hk).
  assert (∀ cattrs, answer_ContainerInspect cli (ID c) = inl cattrs →
                    inspects_as cli cname cattrs) as Hin.
  { intros cattrs Hi. by exists (pre ++ c :: post)%list, (ID c). }
  split_and!; [|done|].
  - destruct (answer_ContainerInspect cli (ID c)) as [cattrs|err] eqn:Hi.
    + destruct (from1 (Name cattrs)) as [name|msg] eqn:Hname.
      * destruct (generate_run _ _ createVolumes _ _ _ _ Hl Hk1 Hid Hi Hname)
          as (ct & networks & tn & _ & _ & ->). done.
      * destruct (generate_name_panic _ _ createVolumes _ _ _ Hl Hk1 Hid Hi)
          as (msg' & ->); [by destruct (Name cattrs)|done].
    + by rewrite (generate_inspect_error _ _ _ _ _ _ Hl Hk1 Hid Hi).
  - intros err Hi. by apply (generate_inspect_error _ _ _ (pre ++ c :: post)%list).
Qed.

(** X8: the errors of [generate].  A failed listing and a failed
    inspection are returned as they are; a name that no listed container
    answers to gives [container ... not found] before any inspection; and
    [generate] returns no other error: a network that cannot be inspected
    does not make it fail. *)
Theorem generate_errors cli cname createVolumes :
  (∀ err, answer_ContainerList cli = inr err →
     generate cli cname createVolumes = (Done (inr err), [Call_ContainerList]))
  ∧ (∀ containers,
       answer_ContainerList cli = inl containers →
       Forall (no_match cname) containers →
       generate cli cname createVolumes
       = (Done (inr ("container " ++ cname ++ " not found")),
          [Call_ContainerList]))
  ∧ (∀ err t, generate cli cname createVolumes = (Done (inr err), t) →
       (answer_ContainerList cli = inr err ∧ t = [Call_ContainerList])
       ∨ (err = "container " ++ cname ++ " not found" ∧ t = [Call_ContainerList])
       ∨ (∃ containerID,
            answer_ContainerInspect cli containerID = inr err
            ∧ t = [Call_ContainerList; Call_ContainerInspect containerID])).
Proof.
  split_and!.
  - intros err. apply generate_list_error.
  - intros containers Hl Hall. apply (generate_not_found _ _ _ containers Hl).
    by rewrite generate_lookup_none.
  - intros err t Hgen.
    destruct (answer_ContainerList cli) as [containers|e] eqn:Hl.
    2: { rewrite (generate_list_error _ _ _ _ Hl) in Hgen.
         left. by simplify_eq. }
    destruct (generate_lookup containers cname).1 as [containerID|msg] eqn:Hk.
    2: { by rewrite (generate_lookup_panic _ _ _ _ _ Hl Hk) in Hgen. }
    destruct (decide (containerID = "")) as [->|Hid].
    { rewrite (generate_not_found _ _ _ _ Hl Hk) in Hgen.
      right; left. by simplify_eq. }
    destruct (answer_ContainerInspect cli containerID) as [cattrs|e] eqn:Hi.
    2: { rewrite (generate_inspect_error _ _ _ _ _ _ Hl Hk Hid Hi) in Hgen.
         right; right. exists containerID. by simplify_eq. }
    destruct (from1 (Name cattrs)) as [name|msg] eqn:Hname.
    + destruct (generate_run _ _ createVolumes _ _ _ _ Hl Hk Hid Hi Hname)
        as (ct & networks & tn & _ & _ & Hrun). by rewrite Hrun in Hgen.
    + destruct (generate_name_panic _ _ createVolumes _ _ _ Hl Hk Hid Hi)
        as (msg' & Hrun); [by destruct (Name cattrs)|].
      by rewrite Hrun in Hgen.
Qed.

(** X9: the network stubs of a container.  The networks [generate]
    returns hold, for each network the container is attached to and whose
    inspection succeeds, the stub [{external: !internal, name}], and
    nothing else; an attached network whose inspection fails is logged and
    left out. *)
Theorem generate_network_stubs cli cname createVolumes cfile cNetworks
    cVolumes t :
  generate cli cname createVolumes = (Done (inl (cfile, cNetworks, cVolumes)), t) →
  ∃ cattrs,
    inspects_as cli cname cattrs
    ∧ (∀ k, cNetworks !! k
            = if decide (k ∈ NetworkSettings_Networks cattrs)
              then stub_entry cli k else None)
    ∧ (∀ k err, k ∈ NetworkSettings_Networks cattrs →
                answer_NetworkInspect cli k = inr err →
                cNetworks !! k = None
                ∧ Log ("Error inspecting network " ++ k ++ ": " ++ err) ∈ t).
Proof.
  intros Hgen.
  destruct (generate_inv _ _ _ _ _ _ _ Hgen)
    as (cattrs & name & ct & Hin & Hname & _).
  destruct Hin as (containers & containerID & Hl & Hk & Hid & Hi).
  destruct (generate_run _ _ createVolumes _ _ _ _ Hl Hk Hid Hi Hname)
    as (ct' & networks & tn & Hnets & _ & Hrun).
  rewrite Hrun in Hgen. injection Hgen as _ <- _ <-.
  destruct (generate_networks_spec cli (NetworkSettings_Networks cattrs) ∅)
    as (networks' & tn' & Hnets' & Hlook & Hlog & _).
  rewrite Hnets in Hnets'. injection Hnets' as <- <-.
  assert (∀ k, networks !! k
               = if decide (k ∈ NetworkSettings_Networks cattrs)
                 then stub_entry cli k else None) as Hstub.
  { intros k. rewrite Hlook. case_decide; [|apply lookup_empty].
    destruct (stub_entry cli k); [done|apply lookup_empty]. }
  exists cattrs. split_and!; [by exists containers, containerID|done|].
  intros k err Hk' Herr. split.
  - rewrite Hstub, decide_True by done. unfold stub_entry. by rewrite Herr.
  - do 2 apply list_elem_of_further. by eapply Hlog.
Qed.

End GenerateCases.

(** ** The three sections of the document *)

Section Sections.
Context `{!Regexp, !Yaml}.
Implicit Types (cli : Client) (cname : string) (createVolumes : bool).
Implicit Types (structure networks volumes : section).

Lemma generate_stubs cli cname createVolumes cfile cNetworks cVolumes t :
  generate cli cname createVolumes = (Done (inl (cfile, cNetworks, cVolumes)), t) →
  ∃ cattrs name,
    inspects_as cli cname cattrs
    ∧ from1 (Name cattrs) = Done name
    ∧ cVolumes = ∅
    ∧ ∀ k, cNetworks !! k
           = if decide (k ∈ NetworkSettings_Networks cattrs)
             then stub_entry cli k else None.
Proof.
  intros Hgen.
  destruct (generate_inv _ _ _ _ _ _ _ Hgen)
    as (cattrs & name & ct & Hin & Hname & _ & _ & Hvol).
  exists cattrs, name. split_and!; [done..|].
  destruct Hin as (containers & containerID & Hl & Hk & Hid & Hi).
  destruct (generate_run _ _ createVolumes _ _ _ _ Hl Hk Hid Hi Hname)
    as (ct' & nets & tn & Hnets & _ & Hrun).
  rewrite Hrun in Hgen. injection Hgen as _ <- _ _.
  destruct (generate_networks_spec cli (NetworkSettings_Networks cattrs) ∅)
    as (nets' & tn' & Hnets' & Hlook & _).
  rewrite Hnets in Hnets'. injection Hnets' as <- _.
  intros k. rewrite Hlook. case_decide; [|apply lookup_empty].
  destruct (stub_entry cli k); [done|apply lookup_empty].
Qed.

(** The loop never adds a volume declaration. *)
Lemma loop_volumes cli createVolumes names structure networks volumes
    structure' networks' volumes' t :
  GenerateComposeFile_loop cli createVolumes names (structure, networks, volumes)
  = (Done (structure', networks', volumes'), t) →
  volumes' = volumes.
Proof.
  revert structure networks volumes t.
  induction names as [|n names IH]; intros structure networks volumes t Hrun.
  { by apply ret_inv in Hrun as [[= -> -> ->] _]. }
  destruct (generate cli n createVolumes)
    as [[[[[cfile cNetworks] cVolumes]|err]|msg] t1] eqn:Hn.
  - rewrite (loop_cons_succeeds _ _ _ _ _ _ _ _ _ _ _ Hn) in Hrun.
    cbn zeta in Hrun.
    destruct (GenerateComposeFile_loop _ _ names _) as [o t2] eqn:Hrest.
    simpl in Hrun. injection Hrun as -> <-.
    rewrite (IH _ _ _ _ Hrest).
    destruct (generate_stubs _ _ _ _ _ _ _ Hn) as (? & ? & _ & _ & -> & _).
    by rewrite (left_id ∅ (∪)).
  - rewrite (loop_cons_fails _ _ _ _ _ _ _ Hn) in Hrun.
    destruct (GenerateComposeFile_loop _ _ names _) as [o t2] eqn:Hrest.
    simpl in Hrun. injection Hrun as -> <-. by eapply IH.
  - by rewrite (loop_cons_panics _ _ _ _ _ _ _ Hn) in Hrun.
Qed.

(** A network entry after the loop was there before it or is the stub
    of a network some processed container is attached to. *)
Lemma loop_networks_sound cli createVolumes names structure networks volumes
    structure' networks' volumes' t k stub :
  GenerateComposeFile_loop cli createVolumes names (structure, networks, volumes)
  = (Done (structure', networks', volumes'), t) →
  networks' !! k = Some stub →
  networks !! k = Some stub
  ∨ ∃ cname cattrs name,
      cname ∈ names ∧ inspects_as cli cname cattrs
      ∧ from1 (Name cattrs) = Done name
      ∧ k ∈ NetworkSettings_Networks cattrs
      ∧ stub_entry cli k = Some stub.
Proof.
  revert structure networks volumes t.
  induction names as [|n names IH]; intros structure networks volumes t Hrun Hk.
  { apply ret_inv in Hrun as [[= -> -> ->] _]. by left. }
  destruct (generate cli n createVolumes)
    as [[[[[cfile cNetworks] cVolumes]|err]|msg] t1] eqn:Hn.
  - rewrite (loop_cons_succeeds _ _ _ _ _ _ _ _ _ _ _ Hn) in Hrun.
    cbn zeta in Hrun.
    destruct (GenerateComposeFile_loop _ _ names _) as [o t2] eqn:Hrest.
    simpl in Hrun. injection Hrun as -> <-.
    destruct (IH _ _ _ _ Hrest Hk) as [Hu|(c & ca & nm & Hin & ?)].
    + apply lookup_union_Some_raw in Hu as [Hc|[_ Hold]]; [|by left].
      right. destruct (generate_stubs _ _ _ _ _ _ _ Hn)
        as (cattrs & name & Hi & Hname & _ & Hlook).
      rewrite Hlook in Hc. case_decide; [|done].
      exists n, cattrs, name. split_and!; [apply list_elem_of_here|done..].
    + right. exists c, ca, nm. split; [by apply list_elem_of_further|done].
  - rewrite (loop_cons_fails _ _ _ _ _ _ _ Hn) in Hrun.
    destruct (GenerateComposeFile_loop _ _ names _) as [o t2] eqn:Hrest.
    simpl in Hrun. injection Hrun as -> <-.
    destruct (IH _ _ _ _ Hrest Hk) as [?|(c & ca & nm & Hin & ?)]; [by left|].
    right. exists c, ca, nm. split; [by apply list_elem_of_further|done].
  - by rewrite (loop_cons_panics _ _ _ _ _ _ _ Hn) in Hrun.
Qed.

(** A stub, once in the accumulator, stays: a later container attached
    to the same network writes the same stub. *)
Lemma loop_networks_stable cli createVolumes names structure networks volumes
    structure' networks' volumes' t k stub :
  GenerateComposeFile_loop cli createVolumes names (structure, networks, volumes)
  = (Done (structure', networks', volumes'), t) →
  stub_entry cli k = Some stub →
  networks !! k = Some stub →
  networks' !! k = Some stub.
Proof.
  revert structure networks volumes t.
  induction names as [|n names IH]; intros structure networks volumes t Hrun Hs Hk.
  { by apply ret_inv in Hrun as [[= -> -> ->] _]. }
  destruct (generate cli n createVolumes)
    as [[[[[cfile cNetworks] cVolumes]|err]|msg] t1] eqn:Hn.
  - rewrite (loop_cons_succeeds _ _ _ _ _ _ _ _ _ _ _ Hn) in Hrun.
    cbn zeta in Hrun.
    destruct (GenerateComposeFile_loop _ _ names _) as [o t2] eqn:Hrest.
    simpl in Hrun. injection Hrun as -> <-.
    apply (IH _ _ _ _ Hrest Hs).
    destruct (generate_stubs _ _ _ _ _ _ _ Hn) as (cattrs & name & _ & _ & _ & Hlook).
    apply lookup_union_Some_raw. rewrite Hlook.
    case_decide; [by left|by right].
  - rewrite (loop_cons_fails _ _ _ _ _ _ _ Hn) in Hrun.
    destruct (GenerateComposeFile_loop _ _ names _) as [o t2] eqn:Hrest.
    simpl in Hrun. injection Hrun as -> <-. by eapply IH.
  - by rewrite (loop_cons_panics _ _ _ _ _ _ _ Hn) in Hrun.
Qed.

Lemma loop_networks_complete cli createVolumes names structure networks volumes
    structure' networks' volumes' t k stub cname cattrs name :
  GenerateComposeFile_loop cli createVolumes names (structure, networks, volumes)
  = (Done (structure', networks', volumes'), t) →
  cname ∈ names →
  inspects_as cli cname cattrs →
  from1 (Name cattrs) = Done name →
  k ∈ NetworkSettings_Networks cattrs →
  stub_entry cli k = Some stub →
  networks' !! k = Some stub.
Proof.
  revert structure networks volumes t.
  induction names as [|n names IH];
    intros structure networks volumes t Hrun Hin Hi Hname Hk Hs.
  { by apply elem_of_nil in Hin. }
  destruct (generate cli n createVolumes)
    as [[[[[cfile cNetworks] cVolumes]|err]|msg] t1] eqn:Hn.
  - rewrite (loop_cons_succeeds _ _ _ _ _ _ _ _ _ _ _ Hn) in Hrun.
    cbn zeta in Hrun.
    destruct (GenerateComposeFile_loop _ _ names _) as [o t2] eqn:Hrest.
    simpl in Hrun. injection Hrun as -> <-.
    apply elem_of_cons in Hin as [->|Hin]; [|by eapply IH].
    apply (loop_networks_stable _ _ _ _ _ _ _ _ _ _ _ _ Hrest Hs).
    destruct (generate_stubs _ _ _ _ _ _ _ Hn) as (cattrs' & name' & Hi' & _ & _ & Hlook).
    rewrite (inspects_as_functional _ _ _ _ Hi' Hi) in Hlook.
    apply lookup_union_Some_raw. left. by rewrite Hlook, decide_True.
  - rewrite (loop_cons_fails _ _ _ _ _ _ _ Hn) in Hrun.
    destruct (GenerateComposeFile_loop _ _ names _) as [o t2] eqn:Hrest.
    simpl in Hrun. injection Hrun as -> <-.
    apply elem_of_cons in Hin as [->|Hin]; [|by eapply IH].
    destruct (generate_intro _ _ createVolumes _ _ Hi Hname) as (? & ? & ? & Hok).
    congruence.
  - by rewrite (loop_cons_panics _ _ _ _ _ _ _ Hn) in Hrun.
Qed.

(** A service, once written, stays as long as no later container writes
    the same key. *)
Lemma loop_services_stable cli createVolumes names structure networks volumes
    structure' networks' volumes' t key ct :
  GenerateComposeFile_loop cli createVolumes names (structure, networks, volumes)
  = (Done (structure', networks', volumes'), t) →
  structure !! key = Some ct →
  (∀ other cfile cNetworks cVolumes t1,
     other ∈ names →
     generate cli other createVolumes
     = (Done (inl (cfile, cNetworks, cVolumes)), t1) →
     cfile !! key = None) →
  structure' !! key = Some ct.
Proof.
  revert structure networks volumes t.
  induction names as [|n names IH]; intros structure networks volumes t Hrun Hk Hno.
  { by apply ret_inv in Hrun as [[= -> -> ->] _]. }
  assert (∀ other cfile cNetworks cVolumes t1,
            other ∈ names →
            generate cli other createVolumes
            = (Done (inl (cfile, cNetworks, cVolumes)), t1) →
            cfile !! key = None) as Hno'.
  { intros other ???? Ho. apply Hno. by apply list_elem_of_further. }
  destruct (generate cli n createVolumes)
    as [[[[[cfile cNetworks] cVolumes]|err]|msg] t1] eqn:Hn.
  - rewrite (loop_cons_succeeds _ _ _ _ _ _ _ _ _ _ _ Hn) in Hrun.
    cbn zeta in Hrun.
    destruct (GenerateComposeFile_loop _ _ names _) as [o t2] eqn:Hrest.
    simpl in Hrun. injection Hrun as -> <-.
    apply (IH _ _ _ _ Hrest); [|done].
    apply lookup_union_Some_raw. right. split; [|done].
    apply (Hno n _ _ _ _ (list_elem_of_here _ _) Hn).
  - rewrite (loop_cons_fails _ _ _ _ _ _ _ Hn) in Hrun.
    destruct (GenerateComposeFile_loop _ _ names _) as [o t2] eqn:Hrest.
    simpl in Hrun. injection Hrun as -> <-. by eapply IH.
  - by rewrite (loop_cons_panics _ _ _ _ _ _ _ Hn) in Hrun.
Qed.

Lemma loop_services_last cli createVolumes (pre : list string) cname post
    structure networks volumes structure' networks' volumes' t key ct
    cNetworks cVolumes t0 :
  GenerateComposeFile_loop cli createVolumes (pre ++ cname :: post)%list
    (structure, networks, volumes)
  = (Done (structure', networks', volumes'), t) →
  generate cli cname createVolumes
  = (Done (inl ({[ key := ct ]}, cNetworks, cVolumes)), t0) →
  (∀ other cfile cN cV t1,
     other ∈ post →
     generate cli other createVolumes = (Done (inl (cfile, cN, cV)), t1) →
     cfile !! key = None) →
  structure' !! key = Some ct.
Proof.
  revert structure networks volumes t.
  induction pre as [|n pre IH]; intros structure networks volumes t Hrun Hgen Hno.
  - cbn [app] in Hrun.
    rewrite (loop_cons_succeeds _ _ _ _ _ _ _ _ _ _ _ Hgen) in Hrun.
    cbn zeta in Hrun.
    destruct (GenerateComposeFile_loop _ _ post _) as [o t2] eqn:Hrest.
    simpl in Hrun. injection Hrun as -> <-.
    apply (loop_services_stable _ _ _ _ _ _ _ _ _ _ _ _ Hrest); [|done].
    apply lookup_union_Some_raw. left. apply lookup_singleton_eq.
  - cbn [app] in Hrun.
    destruct (generate cli n createVolumes)
      as [[[[[cfile cN] cV]|err]|msg] t1] eqn:Hn.
    + rewrite (loop_cons_succeeds _ _ _ _ _ _ _ _ _ _ _ Hn) in Hrun.
      cbn zeta in Hrun.
      destruct (GenerateComposeFile_loop _ _ (pre ++ _) _) as [o t2] eqn:Hrest.
      simpl in Hrun. injection Hrun as -> <-. by eapply IH.
    + rewrite (loop_cons_fails _ _ _ _ _ _ _ Hn) in Hrun.
      destruct (GenerateComposeFile_loop _ _ (pre ++ _) _) as [o t2] eqn:Hrest.
      simpl in Hrun. injection Hrun as -> <-. by eapply IH.
    + by rewrite (loop_cons_panics _ _ _ _ _ _ _ Hn) in Hrun.
Qed.

(** What a document says about the run that made it. *)
Lemma GenerateComposeFile_config_loop cli includeAllContainers containerFilter
    createVolumes config t :
  GenerateComposeFile_config cli includeAllContainers containerFilter createVolumes
  = (Done (inl config), t) →
  ∃ all names structure networks volumes t1,
    (listContainerNames cli).1 = Done (inl all)
    ∧ GenerateComposeFile_select containerFilter all = inl names
    ∧ GenerateComposeFile_loop cli createVolumes names (∅, ∅, ∅)
      = (Done (structure, networks, volumes), t1)
    ∧ Version config = "3.6"
    ∧ Services config = structure
    ∧ Volumes config = volumes
    ∧ (includeAllContainers = false → Networks config = networks).
Proof.
  intros Hcfg.
  destruct (GenerateComposeFile_config_inv _ _ _ _ _ _ Hcfg)
    as (all & names & tb & Hl & Hs & Hb & ->).
  destruct (GenerateComposeFile_batch_inv _ _ _ _ _ _ Hb)
    as (structure & networks & volumes & t1 & Hloop).
  exists all, names, structure, networks, volumes, t1.
  rewrite (GenerateComposeFile_batch_run _ includeAllContainers _ _ _ _ _ _ Hloop)
    in Hb.
  destruct includeAllContainers.
  - destruct (generateNetworkInfo cli).1 as [[hostNetworks|e]|msg];
      [|by simplify_eq..].
    injection Hb as <- _. by split_and!.
  - injection Hb as <- _. by split_and!.
Qed.

(** X10: the volumes section of a document is empty, with and without
    [createVolumes]: no volume is ever declared, a named volume appears in
    the mount entries of its container only. *)
Theorem volumes_section_is_empty cli includeAllContainers containerFilter
    createVolumes out t :
  GenerateComposeFile cli includeAllContainers containerFilter createVolumes
  = (Done (inl out), t) →
  ∃ config,
    GenerateComposeFile_config cli includeAllContainers containerFilter
      createVolumes = (Done (inl config), t)
    ∧ Marshal config = inl out
    ∧ Volumes config = ∅.
Proof.
  intros (config & Hcfg & Hm)%GenerateComposeFile_inv.
  exists config. split_and!; [done..|].
  destruct (GenerateComposeFile_config_loop _ _ _ _ _ _ Hcfg)
    as (all & names & structure & networks & volumes & t1 & _ & _ & Hloop
        & _ & _ & -> & _).
  by apply loop_volumes in Hloop.
Qed.

(** X11: without [includeAllContainers] the networks of a document are
    the stubs of the networks the processed containers are attached to:
    a network has an entry iff a selected container that was inspected is
    attached to it and its own inspection succeeded, and the entry is
    [{external: !internal, name}]. *)
Theorem networks_section_without_flag cli containerFilter createVolumes config t :
  GenerateComposeFile_config cli false containerFilter createVolumes
  = (Done (inl config), t) →
  ∃ all names,
    (listContainerNames cli).1 = Done (inl all)
    ∧ GenerateComposeFile_select containerFilter all = inl names
    ∧ ∀ k stub,
        Networks config !! k = Some stub
        ↔ stub_entry cli k = Some stub
          ∧ ∃ cname cattrs name,
              cname ∈ names ∧ inspects_as cli cname cattrs
              ∧ from1 (Name cattrs) = Done name
              ∧ k ∈ NetworkSettings_Networks cattrs.
Proof.
  intros Hcfg.
  destruct (GenerateComposeFile_config_loop _ _ _ _ _ _ Hcfg)
    as (all & names & structure & networks & volumes & t1 & Hl & Hs & Hloop
        & _ & _ & _ & Hnets).
  exists all, names. split_and!; [done..|]. rewrite (Hnets eq_refl).
  intros k stub. split.
  - intros Hk.
    destruct (loop_networks_sound _ _ _ _ _ _ _ _ _ _ _ _ Hloop Hk)
      as [He|(cname & cattrs & name & Hin & Hi & Hname & Hatt & Hstub)].
    { by rewrite lookup_empty in He. }
    split; [done|]. by exists cname, cattrs, name.
  - intros [Hstub (cname & cattrs & name & Hin & Hi & Hname & Hatt)].
    by eapply loop_networks_complete.
Qed.

(** X12: the record of a service in the document is the one [generate]
    built for the last selected container that has this service name: a
    later write replaces an earlier one, and nothing else changes a
    record. *)
Theorem services_last_write_wins cli includeAllContainers containerFilter
    createVolumes config t all (pre : list string) cname post key ct
    cNetworks cVolumes t0 :
  GenerateComposeFile_config cli includeAllContainers containerFilter createVolumes
  = (Done (inl config), t) →
  (listContainerNames cli).1 = Done (inl all) →
  GenerateComposeFile_select containerFilter all
  = inl (pre ++ cname :: post)%list →
  generate cli cname createVolumes
  = (Done (inl ({[ key := ct ]}, cNetworks, cVolumes)), t0) →
  (∀ other cfile cN cV t1,
     other ∈ post →
     generate cli other createVolumes = (Done (inl (cfile, cN, cV)), t1) →
     cfile !! key = None) →
  Services config !! key = Some ct.
Proof.
  intros Hcfg Hl Hs Hgen Hno.
  destruct (GenerateComposeFile_config_loop _ _ _ _ _ _ Hcfg)
    as (all' & names & structure & networks & volumes & t1 & Hl' & Hs' & Hloop
        & _ & -> & _).
  assert (all' = all) as -> by congruence.
  assert (names = (pre ++ cname :: post)%list) as -> by congruence.
  by eapply loop_services_last.
Qed.

End Sections.

(** ** The calls of a generation *)

Section Calls.
Context `{!Regexp, !Yaml}.
Implicit Types (cli : Client) (cname : string) (createVolumes : bool).
Implicit Types (t : list event).

Lemma listings_app t1 t2 : listings (t1 ++ t2) = listings t1 + listings t2.
Proof. unfold listings. by rewrite filter_app, length_app. Qed.

Lemma listings_cons t :
  listings (Call_ContainerList :: t) = S (listings t).
Proof. unfold listings. by rewrite filter_cons_True. Qed.

Lemma listings_other e t :
  e ≠ Call_ContainerList → listings (e :: t) = listings t.
Proof. intros. unfold listings. by rewrite filter_cons_False. Qed.

Lemma listings_none t :
  Forall (λ e, e ≠ Call_ContainerList) t → listings t = 0.
Proof. intros Hall. unfold listings. by rewrite filter_none. Qed.

(** [generate] lists once, then inspects at most one container, a listed
    one, then the networks that container is attached to. *)
Lemma generate_trace cli cname createVolumes :
  ∃ rest,
    (generate cli cname createVolumes).2 = Call_ContainerList :: rest
    ∧ Forall (λ e, e ≠ Call_ContainerList ∧ allowed_event cli false e) rest.
Proof.
  destruct (answer_ContainerList cli) as [containers|e] eqn:Hl.
  2: { rewrite (generate_list_error _ _ _ _ Hl). by exists []. }
  destruct (generate_lookup containers cname).1 as [containerID|msg] eqn:Hk.
  2: { rewrite (generate_lookup_panic _ _ _ _ _ Hl Hk). by exists []. }
  destruct (decide (containerID = "")) as [->|Hid].
  { rewrite (generate_not_found _ _ _ _ Hl Hk). by exists []. }
  assert (listed_id cli containerID) as Hlisted.
  { split; [done|].
    destruct (generate_lookup_found _ _ _ Hk Hid) as (c & Hc & Hidc & _).
    by exists containers, c. }
  destruct (answer_ContainerInspect cli containerID) as [cattrs|e] eqn:Hi.
  2: { rewrite (generate_inspect_error _ _ _ _ _ _ Hl Hk Hid Hi).
       exists [Call_ContainerInspect containerID]. split; [done|].
       constructor; [by split|constructor]. }
  destruct (from1 (Name cattrs)) as [name|msg] eqn:Hname.
  - destruct (generate_run _ _ createVolumes _ _ _ _ Hl Hk Hid Hi Hname)
      as (ct & networks & tn & Hnets & _ & ->).
    exists (Call_ContainerInspect containerID :: tn). split; [done|].
    constructor; [by split|].
    destruct (generate_networks_spec cli (NetworkSettings_Networks cattrs) ∅)
      as (networks' & tn' & Hnets' & _ & _ & Htr).
    rewrite Hnets in Hnets'. injection Hnets' as _ <-.
    eapply Forall_impl; [exact Htr|].
    intros e [(k & Hk' & ->)|[line ->]]; [|done].
    split; [done|]. left. by exists containerID, cattrs.
  - destruct (generate_name_panic _ _ createVolumes _ _ _ Hl Hk Hid Hi)
      as (msg' & ->); [by destruct (Name cattrs)|].
    exists [Call_ContainerInspect containerID]. split; [done|].
    constructor; [by split|constructor].
Qed.

Lemma loop_events cli createVolumes names acc :
  Forall (allowed_event cli false)
    (GenerateComposeFile_loop cli createVolumes names acc).2.
Proof.
  revert acc. induction names as [|n names IH]; intros acc; [constructor|].
  destruct (generate_trace cli n createVolumes) as (rest & Ht & Hrest).
  assert (Forall (allowed_event cli false) (generate cli n createVolumes).2)
    as Hgen.
  { rewrite Ht. constructor; [done|].
    eapply Forall_impl; [exact Hrest|]. by intros e [_ ?]. }
  destruct (generate cli n createVolumes)
    as [[[[[cfile cNetworks] cVolumes]|err]|msg] t1] eqn:Hn; simpl in Hgen.
  - destruct acc as [[structure networks] volumes].
    rewrite (loop_cons_succeeds _ _ _ _ _ _ _ _ _ _ _ Hn). cbn [snd].
    apply Forall_app. split; [done|apply IH].
  - rewrite (loop_cons_fails _ _ _ _ _ _ _ Hn). cbn [snd].
    apply Forall_app. split; [done|]. constructor; [done|apply IH].
  - by rewrite (loop_cons_panics _ _ _ _ _ _ _ Hn).
Qed.

Lemma loop_listings cli createVolumes names acc acc' t :
  GenerateComposeFile_loop cli createVolumes names acc = (Done acc', t) →
  listings t = length names.
Proof.
  revert acc t. induction names as [|n names IH]; intros acc t Hrun.
  { by apply ret_inv in Hrun as [_ ->]. }
  destruct (generate_trace cli n createVolumes) as (rest & Ht & Hrest).
  assert (listings (generate cli n createVolumes).2 = 1) as Hone.
  { rewrite Ht, listings_cons, listings_none; [done|].
    eapply Forall_impl; [exact Hrest|]. by intros e [? _]. }
  destruct (generate cli n createVolumes)
    as [[[[[cfile cNetworks] cVolumes]|err]|msg] t1] eqn:Hn; simpl in Hone.
  - destruct acc as [[structure networks] volumes].
    rewrite (loop_cons_succeeds _ _ _ _ _ _ _ _ _ _ _ Hn) in Hrun.
    cbn zeta in Hrun.
    destruct (GenerateComposeFile_loop _ _ names _) as [o t2] eqn:Hrest'.
    simpl in Hrun. injection Hrun as -> <-.
    rewrite listings_app, Hone, (IH _ _ Hrest'). done.
  - rewrite (loop_cons_fails _ _ _ _ _ _ _ Hn) in Hrun.
    destruct (GenerateComposeFile_loop _ _ names _) as [o t2] eqn:Hrest'.
    simpl in Hrun. injection Hrun as -> <-.
    rewrite listings_app, Hone, listings_other by done.
    by rewrite (IH _ _ Hrest').
  - by rewrite (loop_cons_panics _ _ _ _ _ _ _ Hn) in Hrun.
Qed.

(** The host-wide export inspects the listed networks in order, up to and
    including the first one whose inspection fails. *)
Lemma generateNetworkInfo_loop_events cli names networks :
  Forall (λ e, ∃ k, k ∈ names ∧ e = Call_NetworkInspect k)
    (generateNetworkInfo_loop cli names networks).2.
Proof.
  revert networks. induction names as [|name names IH]; intros networks;
    [constructor|].
  cbn [generateNetworkInfo_loop]. rewrite cli_NetworkInspect_run, bind_Done.
  cbn [fst snd app]. constructor.
  { exists name. split; [apply list_elem_of_here|done]. }
  destruct (answer_NetworkInspect cli name) as [r|err]; [|constructor].
  eapply Forall_impl; [apply IH|]. intros e (k & Hk & ->).
  exists k. split; [by apply list_elem_of_further|done].
Qed.

Lemma generateNetworkInfo_events cli :
  Forall (λ e, e ≠ Call_ContainerList ∧ allowed_event cli true e)
    (generateNetworkInfo cli).2.
Proof.
  unfold generateNetworkInfo, listNetworkNames.
  rewrite cli_NetworkList_run, bind_Done. cbn [fst snd].
  destruct (answer_NetworkList cli) as [hostNetworks|err] eqn:Hnl.
  - unfold mret, M_ret. cbn [fst snd]. rewrite bind_Done.
    rewrite listNetworkNames_loop_spec. cbn [fst snd app].
    constructor; [done|].
    eapply Forall_impl; [apply generateNetworkInfo_loop_events|].
    intros e (k & Hk & ->). split; [done|]. right. split; [done|].
    by exists hostNetworks.
  - simpl. constructor; [by split|constructor].
Qed.

Lemma allowed_event_mono cli includeAllContainers e :
  allowed_event cli false e → allowed_event cli includeAllContainers e.
Proof.
  destruct e; simpl; try done. intros [?|[? _]]; [by left|done].
Qed.

Lemma GenerateComposeFile_batch_events cli includeAllContainers createVolumes
    names :
  Forall (allowed_event cli includeAllContainers)
    (GenerateComposeFile_batch cli includeAllContainers createVolumes names).2.
Proof.
  pose proof (loop_events cli createVolumes names (∅, ∅, ∅)) as Hloop.
  destruct (GenerateComposeFile_loop cli createVolumes names (∅, ∅, ∅))
    as [[[[structure networks] volumes]|msg] t1] eqn:Hl.
  - rewrite (GenerateComposeFile_batch_run _ includeAllContainers _ _ _ _ _ _ Hl).
    simpl in Hloop.
    assert (Forall (allowed_event cli includeAllContainers) t1) as Ht1.
    { eapply Forall_impl; [exact Hloop|]. apply allowed_event_mono. }
    destruct includeAllContainers; [|done]. cbn [snd].
    apply Forall_app. split; [done|].
    eapply Forall_impl; [apply generateNetworkInfo_events|]. by intros e [_ ?].
  - unfold GenerateComposeFile_batch. rewrite Hl. simpl in *.
    eapply Forall_impl; [exact Hloop|]. apply allowed_event_mono.
Qed.

(** X13: what a generation asks of the runtime.  Every container it
    inspects is a listed one, by its non-empty ID; every network it
    inspects is one an inspected container is attached to or, with
    [includeAllContainers] only, one of the host listing; and without the
    flag the networks of the host are never listed. *)
Theorem calls_are_bounded cli includeAllContainers containerFilter createVolumes :
  Forall (allowed_event cli includeAllContainers)
    (GenerateComposeFile cli includeAllContainers containerFilter createVolumes).2.
Proof.
  rewrite GenerateComposeFile_snd. unfold GenerateComposeFile_config.
  pose proof (listContainerNames_trace cli) as Ht.
  destruct (listContainerNames cli) as [[[all|err]|msg] tl];
    simpl in Ht; subst tl; [|by constructor; [|constructor]..].
  rewrite bind_Done.
  destruct (GenerateComposeFile_select containerFilter all) as [names|err].
  - cbn [snd app]. constructor; [done|]. apply GenerateComposeFile_batch_events.
  - by constructor; [|constructor].
Qed.

(** X14: the containers are listed once for the names and once more for
    each selected container: a generation that ends, with a document or
    with an error of the network export or of the rendering, has made one
    more [ContainerList] call than there are selected names. *)
Theorem listings_per_container cli includeAllContainers containerFilter
    createVolumes all names r t :
  (listContainerNames cli).1 = Done (inl all) →
  GenerateComposeFile_select containerFilter all = inl names →
  GenerateComposeFile cli includeAllContainers containerFilter createVolumes
  = (Done r, t) →
  listings t = S (length names).
Proof.
  intros Hl Hs Hrun.
  pose proof (GenerateComposeFile_snd cli includeAllContainers containerFilter
                createVolumes) as Hsnd.
  pose proof (GenerateComposeFile_fst cli includeAllContainers containerFilter
                createVolumes) as Hfst.
  rewrite Hrun in Hsnd, Hfst. cbn [fst snd] in Hsnd, Hfst.
  rewrite (GenerateComposeFile_config_run _ _ _ _ _ _ Hl Hs) in Hsnd, Hfst.
  cbn [fst snd] in Hsnd, Hfst. subst t.
  destruct (GenerateComposeFile_batch cli includeAllContainers createVolumes names)
    as [[rb|msg] tb] eqn:Hb; [|done]. cbn [snd].
  destruct (GenerateComposeFile_batch_inv _ _ _ _ _ _ Hb)
    as (structure & networks & volumes & t1 & Hloop).
  rewrite (GenerateComposeFile_batch_run _ includeAllContainers _ _ _ _ _ _ Hloop)
    in Hb.
  rewrite listings_cons.
  f_equal. pose proof (loop_listings _ _ _ _ _ _ Hloop) as Hcount.
  destruct includeAllContainers.
  - injection Hb as _ <-. rewrite listings_app, Hcount, listings_none; [lia|].
    eapply Forall_impl; [apply generateNetworkInfo_events|]. by intros e [? _].
  - by injection Hb as _ <-.
Qed.

Lemma displayName_stripped container :
  match stripped container with
  | Some name => displayName container = (Done name, [])
  | None => ∃ msg, displayName container = (Panicked msg, [])
  end.
Proof.
  unfold stripped, displayName.
  destruct (Names container) as [|[|c name] rest]; simpl; eauto.
Qed.

Lemma listContainerNames_loop_names containers names :
  Forall (λ c, is_Some (stripped c)) containers →
  listContainerNames_loop containers names
  = (Done (names ++ omap stripped containers)%list, []).
Proof.
  intros Hall. revert names.
  induction Hall as [|c containers [n Hn] _ IH]; intros names.
  { by rewrite app_nil_r. }
  cbn [listContainerNames_loop omap list_omap].
  pose proof (displayName_stripped c) as Hd. rewrite Hn in Hd. rewrite Hn.
  rewrite Hd, bind_Done, IH. unfold append. cbn [fst snd app].
  by rewrite <- app_assoc.
Qed.

Lemma listContainerNames_loop_panics containers names :
  Exists (λ c, stripped c = None) containers →
  ∃ msg, listContainerNames_loop containers names = (Panicked msg, []).
Proof.
  intros Hex. revert names.
  induction Hex as [c containers Hc|c containers _ IH]; intros names;
    cbn [listContainerNames_loop];
    pose proof (displayName_stripped c) as Hd.
  - rewrite Hc in Hd. destruct Hd as [msg ->]. by exists msg.
  - destruct (stripped c) as [n|].
    + rewrite Hd, bind_Done. destruct (IH (append names n)) as [msg ->].
      by exists msg.
    + destruct Hd as [msg ->]. by exists msg.
Qed.

(** X15: the names of the listing.  When every listed container has a
    non-empty first name, [listContainerNames] returns these names
    without their first byte, one per container and in the order of the
    listing.  A listed container without names, or with an empty first
    name, makes the indexing panic: [GenerateComposeFile] then returns
    neither a document nor an error, whatever the filter and the flags. *)
Theorem listContainerNames_edges cli containers :
  answer_ContainerList cli = inl containers →
  (Forall (λ c, is_Some (stripped c)) containers →
   listContainerNames cli
   = (Done (inl (omap stripped containers)), [Call_ContainerList])
   ∧ length (omap stripped containers) = length containers)
  ∧ (Exists (λ c, stripped c = None) containers →
     ∃ msg,
       listContainerNames cli = (Panicked msg, [Call_ContainerList])
       ∧ ∀ includeAllContainers containerFilter createVolumes,
           GenerateComposeFile cli includeAllContainers containerFilter
             createVolumes = (Panicked msg, [Call_ContainerList])).
Proof.
  intros Hl. split.
  - intros Hall. split.
    + unfold listContainerNames.
      rewrite cli_ContainerList_run, bind_Done, Hl. cbn [fst snd].
      by rewrite (listContainerNames_loop_names _ _ Hall), bind_Done.
    + clear Hl. induction Hall as [|c cs [n Hn] _ IH]; [done|].
      cbn [omap list_omap]. rewrite Hn. simpl. by rewrite IH.
  - intros Hex.
    destruct (listContainerNames_loop_panics _ [] Hex) as [msg Hp].
    assert (listContainerNames cli = (Panicked msg, [Call_ContainerList])) as Hn.
    { unfold listContainerNames.
      rewrite cli_ContainerList_run, bind_Done, Hl. cbn [fst snd].
      by rewrite Hp. }
    exists msg. split; [done|]. intros includeAllContainers containerFilter cv.
    unfold GenerateComposeFile, GenerateComposeFile_config. by rewrite Hn.
Qed.

Lemma generateNetworkInfo_error cli err :
  (generateNetworkInfo cli).1 = Done (inr err) →
  answer_NetworkList cli = inr err
  ∨ ∃ k, host_network cli k ∧ answer_NetworkInspect cli k = inr err.
Proof.
  destruct (answer_NetworkList cli) as [hostNetworks|e] eqn:Hnl.
  - rewrite (generateNetworkInfo_run _ _ Hnl). cbn [fst].
    destruct (generateNetworkInfo_loop_cases cli (Net_Name <$> hostNetworks) ∅)
      as [(networks' & tn & -> & _)|(name & err' & tn & -> & Hin & Herr)];
      [done|].
    intros [= <-]. right. exists name. split; [by exists hostNetworks|done].
  - unfold generateNetworkInfo, listNetworkNames.
    rewrite cli_NetworkList_run, bind_Done, Hnl. intros [= <-]. by left.
Qed.

Lemma GenerateComposeFile_select_error containerFilter all err :
  GenerateComposeFile_select containerFilter all = inr err →
  containerFilter ≠ ""
  ∧ ∃ e, Compile containerFilter = inr e ∧ err = "invalid filter regex: " ++ e.
Proof.
  unfold GenerateComposeFile_select. case_bool_decide; [|done].
  destruct (Compile containerFilter) as [re|e]; [done|].
  intros [= <-]. split; [done|by exists e].
Qed.

(** X16: the errors of [GenerateComposeFile].  An error it returns is
    the error of the listing of the containers, or [invalid filter
    regex: ...] on a pattern that does not compile, or, with
    [includeAllContainers] only, [error generating network info: ...]
    with the error of the listing or of the inspection of a host network,
    or [error marshaling to YAML: ...] on a document that was built.  It
    is never the error of the inspection of a container. *)
Theorem GenerateComposeFile_errors cli includeAllContainers containerFilter
    createVolumes err t :
  GenerateComposeFile cli includeAllContainers containerFilter createVolumes
  = (Done (inr err), t) →
  answer_ContainerList cli = inr err
  ∨ (containerFilter ≠ ""
     ∧ ∃ e, Compile containerFilter = inr e
            ∧ err = "invalid filter regex: " ++ e)
  ∨ (includeAllContainers = true
     ∧ ∃ e, err = "error generating network info: " ++ e
            ∧ (answer_NetworkList cli = inr e
               ∨ ∃ k, host_network cli k ∧ answer_NetworkInspect cli k = inr e))
  ∨ (∃ config e,
       GenerateComposeFile_config cli includeAllContainers containerFilter
         createVolumes = (Done (inl config), t)
       ∧ Marshal config = inr e
       ∧ err = "error marshaling to YAML: " ++ e).
Proof.
  intros Hrun. unfold GenerateComposeFile in Hrun.
  destruct (GenerateComposeFile_config cli includeAllContainers containerFilter
              createVolumes) as [[[config|e]|msg] t0] eqn:Hcfg; [| |done].
  { rewrite bind_Done in Hrun. unfold render in Hrun.
    destruct (Marshal config) as [out|e] eqn:Hm; [done|].
    simpl in Hrun. rewrite app_nil_r in Hrun. injection Hrun as <- <-.
    do 3 right. by exists config, e. }
  rewrite bind_Done in Hrun. simpl in Hrun. injection Hrun as -> _.
  unfold GenerateComposeFile_config in Hcfg.
  destruct (listContainerNames cli) as [[[all|e]|msg] tl] eqn:Hl; [| |done].
  2: { rewrite bind_Done in Hcfg. simpl in Hcfg. injection Hcfg as -> _.
       left. unfold listContainerNames in Hl.
       rewrite cli_ContainerList_run, bind_Done in Hl. cbn [fst snd] in Hl.
       destruct (answer_ContainerList cli) as [containers|e]; [|by simplify_eq].
       destruct (listContainerNames_loop containers []) as [[?|?] ?];
         [by rewrite bind_Done in Hl|done]. }
  rewrite bind_Done in Hcfg.
  destruct (GenerateComposeFile_select containerFilter all) as [names|e] eqn:Hs.
  2: { simpl in Hcfg. injection Hcfg as -> _. right; left.
       by apply GenerateComposeFile_select_error in Hs. }
  destruct (GenerateComposeFile_batch cli includeAllContainers createVolumes names)
    as [ob tb] eqn:Hb. cbn [fst snd] in Hcfg. injection Hcfg as -> _.
  destruct (GenerateComposeFile_batch_inv _ _ _ _ _ _ Hb)
    as (structure & networks & volumes & t1 & Hloop).
  rewrite (GenerateComposeFile_batch_run _ includeAllContainers _ _ _ _ _ _ Hloop)
    in Hb.
  destruct includeAllContainers; [|done].
  destruct (generateNetworkInfo cli).1 as [[hostNetworks|e]|msg] eqn:Hg;
    [done| |done].
  injection Hb as <- _. do 2 right; left. split; [done|]. exists e.
  split; [done|]. by apply generateNetworkInfo_error.
Qed.

Lemma generateNetworkInfo_loop_stops cli (pre : list string) bad post err networks :
  Forall (λ k, is_Some (host_entry cli k)) pre →
  answer_NetworkInspect cli bad = inr err →
  generateNetworkInfo_loop cli (pre ++ bad :: post)%list networks
  = (Done (inr err),
     ((Call_NetworkInspect <$> pre) ++ [Call_NetworkInspect bad])%list).
Proof.
  intros Hall Hbad. revert networks.
  induction Hall as [|k pre [e He] _ IH]; intros networks;
    cbn [app generateNetworkInfo_loop];
    rewrite cli_NetworkInspect_run, bind_Done; cbn [fst snd].
  - by rewrite Hbad.
  - unfold host_entry in He.
    destruct (answer_NetworkInspect cli k) as [r|?]; [|done].
    by rewrite IH.
Qed.

(** X17: the host-wide export stops at the first network whose
    inspection fails: it returns that error, and the networks listed
    after it are not inspected. *)
Theorem generateNetworkInfo_stops_at_first_failure cli hostNetworks
    (pre : list string) bad post err :
  answer_NetworkList cli = inl hostNetworks →
  Net_Name <$> hostNetworks = (pre ++ bad :: post)%list →
  Forall (λ k, is_Some (host_entry cli k)) pre →
  answer_NetworkInspect cli bad = inr err →
  generateNetworkInfo cli
  = (Done (inr err),
     (Call_NetworkList :: (Call_NetworkInspect <$> pre)
      ++ [Call_NetworkInspect bad])%list).
Proof.
  intros Hnl Hnames Hall Hbad.
  rewrite (generateNetworkInfo_run _ _ Hnl), Hnames.
  by rewrite (generateNetworkInfo_loop_stops _ _ _ _ _ _ Hall Hbad).
Qed.

End Calls.

(** ** The further properties at the example runtimes *)

Section MoreInstances.
#[local] Existing Instance RE2_fragment.
#[local] Existing Instance Plain_yaml.
Import Examples MoreExamples.

Local Ltac run := vm_compute; reflexivity.
Local Ltac not_sentinel :=
  let Hs := fresh in
  intros Hs; unfold string_sentinels in Hs;
  repeat (apply elem_of_cons in Hs as [Hs|Hs]; [discriminate Hs|]);
  by apply elem_of_nil in Hs.

Lemma healthy_inspects_web1 : inspects_as healthy "web1" web1.
Proof. exists listed, "c1". split_and!; [reflexivity|run|discriminate|reflexivity]. Qed.
Lemma healthy_inspects_web2 : inspects_as healthy "web2" web2.
Proof. exists listed, "c2". split_and!; [reflexivity|run|discriminate|reflexivity]. Qed.
Lemma healthy_inspects_db1 : inspects_as healthy "db1" db1.
Proof. exists listed, "c3". split_and!; [reflexivity|run|discriminate|reflexivity]. Qed.
Lemma api_host_inspects_api : inspects_as api_host "api" api.
Proof.
  eexists _, "c7". split_and!; [reflexivity|run|discriminate|reflexivity].
Qed.

(** The published ports of [api]. *)
Example getPorts_api :
  getPorts api = ["8080:80/tcp"; "127.0.0.1:8081:80/tcp"].
Proof. run. Qed.

(** Successful runs of [generate] at the example runtimes. *)
Lemma generate_healthy_web2 :
  ∃ ct networks tn,
    generate healthy "web2" true
    = (Done (inl ({[ "web2" := ct ]}, networks, ∅)),
       Call_ContainerList :: Call_ContainerInspect "c2" :: tn).
Proof.
  destruct (generate_run healthy "web2" true listed "c2" web2 "web2")
    as (ct & networks & tn & _ & _ & Hgen);
    [reflexivity|run|discriminate|reflexivity|reflexivity|].
  exists ct, networks, tn. exact Hgen.
Qed.

Lemma generate_api_host_api :
  ∃ ct networks tn,
    generate api_host "api" false
    = (Done (inl ({[ "api" := ct ]}, networks, ∅)),
       Call_ContainerList :: Call_ContainerInspect "c7" :: tn).
Proof.
  destruct (generate_run api_host "api" false
              [ {| ID := "c7"; Names := ["/api"] |} ] "c7" api "api")
    as (ct & networks & tn & _ & _ & Hgen);
    [reflexivity|run|discriminate|reflexivity|reflexivity|].
  exists ct, networks, tn. exact Hgen.
Qed.

Lemma record_scalar_attributes_witness :
  ∃ cfile cNetworks cVolumes t,
    generate healthy "web2" true = (Done (inl (cfile, cNetworks, cVolumes)), t)
    ∧ ∃ ct, cfile = {[ "web2" := ct ]}
        ∧ ct !! "image" = Some (I_string "nginx:1.27")
        ∧ ct !! "working_dir" = None
        ∧ ct !! "privileged" = Some (I_bool false).
Proof.
  destruct generate_healthy_web2 as (ct0 & cN & tn & Hgen).
  eexists _, _, _, _. split; [exact Hgen|].
  destruct (record_scalar_attributes healthy "web2" true _ _ _ _ Hgen)
    as (cattrs & name & ct & Hin & Hname & Hcfile & _ & Himg & Hwd & _ & _ & _
        & Hpriv & _).
  rewrite (inspects_as_functional _ _ _ _ Hin healthy_inspects_web2)
    in Hname, Himg, Hwd, Hpriv.
  injection Hname as <-. exists ct.
  unfold string_attribute in Himg, Hwd.
  rewrite bool_decide_eq_false_2 in Himg by not_sentinel.
  rewrite bool_decide_eq_true_2 in Hwd by apply list_elem_of_here.
  split_and!; [exact Hcfile|exact Himg|exact Hwd|exact Hpriv].
Defined.

Lemma worker_host_inspects_worker : inspects_as worker_host "worker" worker.
Proof.
  eexists _, "c8". split_and!; [reflexivity|run|discriminate|reflexivity].
Qed.

Lemma generate_worker_host_worker :
  ∃ ct networks tn,
    generate worker_host "worker" true
    = (Done (inl ({[ "worker" := ct ]}, networks, ∅)),
       Call_ContainerList :: Call_ContainerInspect "c8" :: tn).
Proof.
  destruct (generate_run worker_host "worker" true
              [ {| ID := "c8"; Names := ["/worker"] |} ] "c8" worker "worker")
    as (ct & networks & tn & _ & _ & Hgen);
    [reflexivity|run|discriminate|reflexivity|reflexivity|].
  exists ct, networks, tn. exact Hgen.
Qed.

(** [worker] in the default mode: [frontend] is inspected first and
    [backend] is the mode written. *)
Lemma record_network_mode_witness :
  ∃ cfile cNetworks cVolumes t,
    generate worker_host "worker" true
    = (Done (inl (cfile, cNetworks, cVolumes)), t)
    ∧ HostConfig_NetworkMode worker = "default"
    ∧ same_networks worker
    ∧ t = [Call_ContainerList; Call_ContainerInspect "c8";
           Call_NetworkInspect "frontend"; Call_NetworkInspect "backend"]
    ∧ ∃ name ct, cfile = {[ name := ct ]}
                 ∧ ct !! "network_mode" = Some (I_string "backend").
Proof.
  destruct generate_worker_host_worker as (ct0 & cN & tn & Hgen).
  assert ((generate worker_host "worker" true).2
          = [Call_ContainerList; Call_ContainerInspect "c8";
             Call_NetworkInspect "frontend"; Call_NetworkInspect "backend"])
    as Ht by run.
  rewrite Hgen in Ht. cbn [snd] in Ht.
  eexists _, _, _, _. split_and!; [exact Hgen|reflexivity| |exact Ht|].
  { unfold same_networks. apply (Permutation_swap "frontend" "backend" []). }
  destruct (record_network_mode worker_host "worker" true _ _ _ _ Hgen)
    as (cattrs & name & ct & Hin & Hcfile & _ & Hfirst & _).
  rewrite (inspects_as_functional _ _ _ _ Hin worker_host_inspects_worker)
    in Hfirst.
  exists name, ct. split; [exact Hcfile|].
  pose proof (Hfirst "backend" ["frontend"] eq_refl eq_refl) as Hmode.
  unfold string_attribute in Hmode.
  rewrite bool_decide_eq_false_2 in Hmode by not_sentinel. exact Hmode.
Defined.

Lemma generateVolumes_mount_order_witness :
  Mounts db1 ≡ₚ Mounts db1_reversed
  ∧ generateVolumes db1 true = generateVolumes db1_reversed true.
Proof.
  assert (Mounts db1 ≡ₚ Mounts db1_reversed) as Hp.
  { symmetry. apply (reverse_Permutation (Mounts db1)). }
  split; [exact Hp|]. exact (generateVolumes_mount_order db1 db1_reversed true Hp).
Defined.

Lemma generateVolumes_without_volumes_witness :
  Forall (λ mount, Mount_Type mount ≠ "volume") (Mounts web2)
  ∧ generateVolumes web2 true = generateVolumes web2 false.
Proof.
  assert (Forall (λ mount, Mount_Type mount ≠ "volume") (Mounts web2)) as Hall.
  { constructor; [discriminate|constructor]. }
  split; [exact Hall|]. exact (generateVolumes_without_volumes web2 Hall).
Defined.

(** [generate] called with the ID [c2] instead of a name. *)
Lemma generate_resolves_name_or_id_witness :
  let pre := [ {| ID := "c1"; Names := ["/web1"] |} ] in
  let c := {| ID := "c2"; Names := ["/web2"] |} in
  let post := [ {| ID := "c3"; Names := ["/db1"] |} ] in
  answer_ContainerList healthy = inl (pre ++ c :: post)%list
  ∧ Forall (no_match "c2") pre
  ∧ (displayName c).1 = Done "web2"
  ∧ ID c = "c2"
  ∧ inspects_as healthy "c2" web2
  ∧ (generate healthy "c2" true).2 !! 1 = Some (Call_ContainerInspect "c2").
Proof.
  intros pre c post.
  assert (Forall (no_match "c2") pre) as Hpre.
  { constructor; [|constructor]. exists "web1".
    split_and!; [reflexivity|discriminate..]. }
  assert (ID c ≠ "") as Hid by discriminate.
  destruct (generate_resolves_name_or_id healthy "c2" true pre c post "web2"
              eq_refl Hpre eq_refl (or_intror eq_refl) Hid)
    as (Htrace & Hin & _).
  split_and!; [reflexivity|exact Hpre|reflexivity..| |exact Htrace].
  exact (Hin web2 eq_refl).
Defined.

(** [api] is attached to [frontend] and to [ghost], which the runtime
    does not know. *)
Lemma generate_network_stubs_witness :
  ∃ cfile cNetworks cVolumes t,
    generate api_host "api" false = (Done (inl (cfile, cNetworks, cVolumes)), t)
    ∧ cNetworks !! "frontend" = stub_entry api_host "frontend"
    ∧ cNetworks !! "ghost" = None
    ∧ cNetworks !! "backend" = None
    ∧ Log "Error inspecting network ghost: Error: No such network: ghost" ∈ t.
Proof.
  destruct generate_api_host_api as (ct0 & cN & tn & Hgen).
  eexists _, _, _, _. split; [exact Hgen|].
  destruct (generate_network_stubs api_host "api" false _ _ _ _ Hgen)
    as (cattrs & Hin & Hlook & Hfail).
  rewrite (inspects_as_functional _ _ _ _ Hin api_host_inspects_api)
    in Hlook, Hfail.
  split_and!.
  - rewrite Hlook. by rewrite decide_True by apply list_elem_of_here.
  - apply (Hfail "ghost" "Error: No such network: ghost");
      [apply list_elem_of_further, list_elem_of_here|reflexivity].
  - rewrite Hlook. rewrite decide_False; [reflexivity|].
    intros Hb. repeat (apply elem_of_cons in Hb as [Hb|Hb]; [discriminate Hb|]).
    by apply elem_of_nil in Hb.
  - apply (Hfail "ghost" "Error: No such network: ghost");
      [apply list_elem_of_further, list_elem_of_here|reflexivity].
Defined.

Lemma volumes_section_is_empty_witness :
  Mount_Type data_volume = "volume" ∧ data_volume ∈ Mounts db1
  ∧ ∃ out t,
      GenerateComposeFile healthy false "" true = (Done (inl out), t)
      ∧ ∃ config,
          GenerateComposeFile_config healthy false "" true
          = (Done (inl config), t)
          ∧ Marshal config = inl out
          ∧ Volumes config = ∅.
Proof.
  split_and!; [reflexivity|apply list_elem_of_here|].
  assert (∃ out t, GenerateComposeFile healthy false "" true
                   = (Done (inl out), t)) as (out & t & Hrun)
    by (eexists _, _; run).
  exists out, t. split; [exact Hrun|].
  exact (volumes_section_is_empty healthy false "" true out t Hrun).
Defined.

Lemma generate_healthy_db1 :
  ∃ ct networks tn,
    generate healthy "db1" true
    = (Done (inl ({[ "db1" := ct ]}, networks, ∅)),
       Call_ContainerList :: Call_ContainerInspect "c3" :: tn).
Proof.
  destruct (generate_run healthy "db1" true listed "c3" db1 "db1")
    as (ct & networks & tn & _ & _ & Hgen);
    [reflexivity|run|discriminate|reflexivity|reflexivity|].
  exists ct, networks, tn. exact Hgen.
Qed.

(** The filter [^web] without [includeAllContainers]: [web1] is attached
    to [frontend]; [backend] is the network of [db1], which the filter
    leaves out. *)
Lemma networks_section_without_flag_witness :
  ∃ config t,
    GenerateComposeFile_config healthy false "^web" true = (Done (inl config), t)
    ∧ Networks config !! "frontend" = stub_entry healthy "frontend"
    ∧ Networks config !! "backend" = None.
Proof.
  assert (∃ out t, GenerateComposeFile healthy false "^web" true
                   = (Done (inl out), t)) as (out & t & Hrun)
    by (eexists _, _; run).
  destruct (GenerateComposeFile_inv _ _ _ _ _ _ Hrun) as (config & Hcfg & _).
  exists config, t. split; [exact Hcfg|].
  destruct (networks_section_without_flag healthy "^web" true config t Hcfg)
    as (all & names & Hl & Hs & Hnets).
  vm_compute in Hl. injection Hl as <-.
  vm_compute in Hs. injection Hs as <-.
  split.
  - assert (∃ stub, stub_entry healthy "frontend" = Some stub) as [stub Hstub]
      by (eexists; reflexivity).
    rewrite Hstub. apply Hnets. split; [exact Hstub|].
    exists "web1", web1, "web1".
    split_and!; [apply list_elem_of_here|exact healthy_inspects_web1
                |reflexivity|apply list_elem_of_here].
  - destruct (Networks config !! "backend") as [stub|] eqn:Hb; [exfalso|reflexivity].
    apply Hnets in Hb as (_ & cname & cattrs & name & Hin & Hi & _ & Hatt).
    apply elem_of_cons in Hin as [->|Hin].
    { rewrite (inspects_as_functional _ _ _ _ Hi healthy_inspects_web1) in Hatt.
      apply elem_of_cons in Hatt as [Hatt|Hatt]; [discriminate Hatt|].
      by apply elem_of_nil in Hatt. }
    apply elem_of_cons in Hin as [->|Hin]; [|by apply elem_of_nil in Hin].
    rewrite (inspects_as_functional _ _ _ _ Hi healthy_inspects_web2) in Hatt.
    by apply elem_of_nil in Hatt.
Defined.

(** The record of [web2] in the document of the three containers is the
    one [generate] builds for [web2]: [db1], processed after it, writes its
    own key. *)
Lemma services_last_write_wins_witness :
  ∃ config t ct cNetworks cVolumes t0,
    GenerateComposeFile_config healthy false "" true = (Done (inl config), t)
    ∧ generate healthy "web2" true
      = (Done (inl ({[ "web2" := ct ]}, cNetworks, cVolumes)), t0)
    ∧ Services config !! "web2" = Some ct.
Proof.
  assert (∃ out t, GenerateComposeFile healthy false "" true
                   = (Done (inl out), t)) as (out & t & Hrun)
    by (eexists _, _; run).
  destruct (GenerateComposeFile_inv _ _ _ _ _ _ Hrun) as (config & Hcfg & _).
  destruct generate_healthy_web2 as (ct & cN & tn & Hgen).
  exists config, t, ct. eexists _, _, _. split_and!; [exact Hcfg|exact Hgen|].
  assert ((listContainerNames healthy).1 = Done (inl ["web1"; "web2"; "db1"]))
    as Hl by run.
  apply (services_last_write_wins healthy false "" true config t
           ["web1"; "web2"; "db1"] ["web1"] "web2" ["db1"] "web2" ct _ _ _
           Hcfg Hl eq_refl Hgen).
  intros other cfile cN' cV' t1 Hin Hother.
  apply list_elem_of_singleton in Hin. revert Hother. rewrite Hin. clear Hin.
  intros Hother.
  destruct generate_healthy_db1 as (ct' & cN'' & tn' & Hdb).
  rewrite Hdb in Hother. injection Hother as <- _ _ _.
  apply lookup_singleton_ne. discriminate.
Defined.

(** The filter [^web] selects two containers: three listings. *)
Lemma listings_per_container_witness :
  (listContainerNames healthy).1 = Done (inl ["web1"; "web2"; "db1"])
  ∧ GenerateComposeFile_select "^web" ["web1"; "web2"; "db1"]
    = inl ["web1"; "web2"]
  ∧ ∃ r t,
      GenerateComposeFile healthy true "^web" true = (Done r, t)
      ∧ listings t = 3.
Proof.
  assert ((listContainerNames healthy).1 = Done (inl ["web1"; "web2"; "db1"]))
    as Hl by run.
  assert (GenerateComposeFile_select "^web" ["web1"; "web2"; "db1"]
          = inl ["web1"; "web2"]) as Hs by run.
  assert (∃ r t, GenerateComposeFile healthy true "^web" true = (Done r, t))
    as (r & t & Hrun) by (eexists _, _; run).
  split_and!; [exact Hl|exact Hs|]. exists r, t. split; [exact Hrun|].
  exact (listings_per_container healthy true "^web" true _ _ r t Hl Hs Hrun).
Defined.

(** The names of [healthy], and the panic on the nameless container of
    [nameless]. *)
Lemma listContainerNames_edges_witness :
  listContainerNames healthy
  = (Done (inl ["web1"; "web2"; "db1"]), [Call_ContainerList])
  ∧ ∃ msg,
      GenerateComposeFile nameless true "^web" false
      = (Panicked msg, [Call_ContainerList]).
Proof.
  split.
  - destruct (listContainerNames_edges healthy listed eq_refl) as [Hnames _].
    apply Hnames. repeat (constructor; [by eexists|]). constructor.
  - destruct (listContainerNames_edges nameless _ eq_refl) as [_ Hpanic].
    destruct Hpanic as (msg & _ & Hrun).
    { apply Exists_cons_tl, Exists_cons_hd. reflexivity. }
    exists msg. apply Hrun.
Defined.

(** The export of the networks of [unused_gone] fails on [unused]. *)
Lemma GenerateComposeFile_errors_witness :
  ∃ t,
    GenerateComposeFile unused_gone true "" true
    = (Done (inr "error generating network info: Error: No such network: unused"), t)
    ∧ host_network unused_gone "unused"
    ∧ answer_NetworkInspect unused_gone "unused"
      = inr "Error: No such network: unused".
Proof.
  assert (∃ t, GenerateComposeFile unused_gone true "" true
               = (Done (inr "error generating network info: Error: No such network: unused"), t))
    as [t Hrun] by (eexists; run).
  exists t. split; [exact Hrun|].
  destruct (GenerateComposeFile_errors unused_gone true "" true _ t Hrun)
    as [Hl|[[Hne _]|[(_ & e & He & [Hnl|(k & Hk & Hi)])|(config & e & Hcfg & _)]]].
  - discriminate Hl.
  - by destruct Hne.
  - discriminate Hnl.
  - split; [|reflexivity].
    exists host_networks. split; [reflexivity|].
    do 2 apply list_elem_of_further. apply list_elem_of_here.
  - exfalso.
    assert (∃ e t', GenerateComposeFile_config unused_gone true "" true
                    = (Done (inr e), t')) as (e' & t' & Hc) by (eexists _, _; run).
    rewrite Hc in Hcfg. discriminate Hcfg.
Defined.

(** [backend] cannot be inspected: [unused], listed after it, is not
    asked for. *)
Lemma generateNetworkInfo_stops_at_first_failure_witness :
  answer_NetworkList backend_gone = inl host_networks
  ∧ Net_Name <$> host_networks = (["frontend"] ++ "backend" :: ["unused"])%list
  ∧ is_Some (host_entry backend_gone "frontend")
  ∧ generateNetworkInfo backend_gone
    = (Done (inr "Error: No such network: backend"),
       [Call_NetworkList; Call_NetworkInspect "frontend";
        Call_NetworkInspect "backend"]).
Proof.
  assert (is_Some (host_entry backend_gone "frontend")) as Hfront
    by (eexists; reflexivity).
  assert (Forall (λ k, is_Some (host_entry backend_gone k)) ["frontend"])
    as Hpre by (constructor; [exact Hfront|constructor]).
  split_and!; [reflexivity|reflexivity|exact Hfront|].
  exact (generateNetworkInfo_stops_at_first_failure backend_gone host_networks
           ["frontend"] "backend" ["unused"] "Error: No such network: backend"
           eq_refl eq_refl Hpre eq_refl).
Defined.

End MoreInstances.
